(** * Gauls copy-trading system: trade lifecycle and risk management

  A shallow embedding of the signal parser
  ([src/parsers/gauls_signal_parser.py]), the price-driven exit monitor
  ([src/monitors/exit_monitor_v2.py]), the update processor
  ([src/processors/gauls_trade_update_processor.py]) and the signal
  execution path of the copy trader ([src/core/gauls_copy_trader.py]).

  Modelling conventions.
  - A Python [str] is the list of its Unicode code points ([list N]).
  - A Python [float] of the trading code is an exact rational ([Q]):
    rounding is outside the model, and numeric results are compared with
    [==].  The floats of the signal parser, which come from literals of
    any length, are modelled with their range as well ([PyFloat]): a
    result beyond it is an infinity, a result too small is 0.0, and
    [inf * 0.0] is nan.  The copy trader is modelled on signals whose
    numbers are finite.
  - The table [processed_gauls_signals] is modelled with its schema
    ([Ledger.signals_table]): the statements of the copy trader name
    columns that the table declared in the repository does not have.
  - [None] and SQL [NULL] are [None] of an [option].
  - A SQLite table keyed by its integer primary key is a [gmap Z row];
    insert-only tables are lists in insertion order.
  - The exchange, the clock and the Python runtime ([hash], [md5],
    [repr]) are explicit parameters. *)

From Stdlib Require Import ZArith NArith QArith Qabs Qminmax Lqa Lia List String Ascii Bool.
From Stdlib Require Import DecimalString.
From stdpp Require Import base option list gmap sorting.

#[local] Open Scope Z_scope.

(* ===================================================================== *)
(** * Part I: the model *)
(* ===================================================================== *)

(** ** Python strings *)

Module PyStr.

Definition pystr := list N.

(** An ASCII literal, as a list of code points. *)
Definition u (s : string) : pystr :=
  List.map N_of_ascii (list_ascii_of_string s).

Definition chr_eqb (a b : N) : bool := N.eqb a b.

Fixpoint eqb (a b : pystr) : bool :=
  match a, b with
  | [], [] => true
  | x :: a', y :: b' => N.eqb x y && eqb a' b'
  | _, _ => false
  end.

Definition is_upper (c : N) : bool := (N.leb 65 c && N.leb c 90)%bool.
Definition is_lower (c : N) : bool := (N.leb 97 c && N.leb c 122)%bool.
Definition is_ascii_digit (c : N) : bool := (N.leb 48 c && N.leb c 57)%bool.

Definition to_upper (c : N) : N := if is_lower c then (c - 32)%N else c.
Definition to_lower (c : N) : N := if is_upper c then (c + 32)%N else c.

(** [str.upper()], on the ASCII letters. *)
Definition upper (s : pystr) : pystr := List.map to_upper s.

(** [needle in haystack]. *)
Fixpoint starts_with (p s : pystr) : bool :=
  match p, s with
  | [], _ => true
  | x :: p', y :: s' => N.eqb x y && starts_with p' s'
  | _ :: _, [] => false
  end.

Fixpoint contains (needle hay : pystr) : bool :=
  starts_with needle hay ||
  match hay with
  | [] => false
  | _ :: hay' => contains needle hay'
  end.

(** [s[:n]]. *)
Definition prefix (n : nat) (s : pystr) : pystr := take n s.

(** [str.isdigit()] on ASCII text: non-empty, digits only. *)
Definition isdigit (s : pystr) : bool :=
  match s with
  | [] => false
  | _ => forallb is_ascii_digit s
  end.

Definition digit_val (c : N) : Z := Z.of_N c - 48.

(** [int(s)] for a string of ASCII digits. *)
Definition int_of (s : pystr) : Z :=
  fold_left (fun acc c => acc * 10 + digit_val c) s 0.

Fixpoint take_digits (s : pystr) : pystr :=
  match s with
  | c :: s' => if is_ascii_digit c then c :: take_digits s' else []
  | [] => []
  end.

(** The number a decimal literal of the patterns denotes
    ([[0-9]+\.?[0-9]*] and [\d+\.?\d*]: digits, an optional point, digits).
    Anything else makes [float] raise [ValueError], here [None]. *)
Definition decimal_of (s : pystr) : option Q :=
  let ip := take_digits s in
  match ip, drop (length ip) s with
  | [], _ => None
  | _, [] => Some (inject_Z (int_of ip))
  | _, 46%N :: fp =>
      if forallb is_ascii_digit fp
      then Some (inject_Z (int_of ip)
                 + inject_Z (int_of fp) / inject_Z (10 ^ Z.of_nat (length fp)))%Q
      else None
  | _, _ => None
  end.

End PyStr.

(** ** Regular expressions, with the backtracking semantics of Python's [re]

  A pattern is written as a syntax tree; next to every pattern below stands
  the source pattern it transcribes.  Matching is the backtracking search of
  [re]: alternatives left to right, greedy repetition longest first, lazy
  repetition shortest first, [search] trying every start position from the
  left.  [\d] and [\w] are modelled on ASCII (Python's also accept the
  other Unicode digits and letters); [\s], case folding and [.] follow
  Python on all code points that can match an ASCII pattern. *)

Module Re.
Import PyStr.

Inductive cset : Type :=
| CLit (c : N)                (* a literal character *)
| CRange (lo hi : N)          (* [lo-hi] *)
| CAny                        (* .  without DOTALL: all but newline *)
| CAll                        (* .  with DOTALL *)
| CSpace                      (* \s *)
| CDigit                      (* \d, on the ASCII digits *)
| CNot (s : cset)             (* [^...] *)
| COr (s1 s2 : cset).         (* union inside [...] *)

Inductive regex : Type :=
| Eps
| Chr (s : cset)
| Seq (r1 r2 : regex)
| Alt (r1 r2 : regex)
| Star (greedy : bool) (r : regex)
| Group (n : nat) (r : regex)   (* capturing group number n *)
| Ahead (r : regex)             (* (?=r) *)
| WordB                         (* \b *)
| Dollar.                       (* $ *)

Record flags := { ignorecase : bool; multiline : bool }.

(** Unicode white space, as [str.isspace] has it. *)
Definition is_space (c : N) : bool :=
  ((N.leb 9 c && N.leb c 13) || (N.leb 28 c && N.leb c 32)
   || N.eqb c 133 || N.eqb c 160 || N.eqb c 5760
   || (N.leb 8192 c && N.leb c 8202)
   || N.eqb c 8232 || N.eqb c 8233 || N.eqb c 8239 || N.eqb c 8287
   || N.eqb c 12288)%bool.

Definition is_word (c : N) : bool :=
  (is_upper c || is_lower c || is_ascii_digit c || N.eqb c 95)%bool.

(** The characters a text character stands for under IGNORECASE when the
    pattern is ASCII: itself, its other case, and the four non-ASCII
    letters that fold onto [i], [s] and [k]. *)
Definition case_variants (c : N) : list N :=
  if is_upper c then [c; to_lower c]
  else if is_lower c then [c; to_upper c]
  else if (N.eqb c 304 || N.eqb c 305)%bool then [c; 105%N; 73%N]
  else if N.eqb c 383 then [c; 115%N; 83%N]
  else if N.eqb c 8490 then [c; 107%N; 75%N]
  else [c].

Fixpoint cset_has (s : cset) (c : N) : bool :=
  match s with
  | CLit d => N.eqb c d
  | CRange lo hi => (N.leb lo c && N.leb c hi)%bool
  | CAny => negb (N.eqb c 10)
  | CAll => true
  | CSpace => is_space c
  | CDigit => is_ascii_digit c
  | CNot s' => negb (cset_has s' c)
  | COr s1 s2 => (cset_has s1 c || cset_has s2 c)%bool
  end.

Fixpoint cset_mem (ic : bool) (s : cset) (c : N) : bool :=
  match s with
  | CNot s' => negb (cset_mem ic s' c)
  | COr s1 s2 => (cset_mem ic s1 c || cset_mem ic s2 c)%bool
  | CAny | CAll | CSpace | CDigit => cset_has s c
  | CLit _ | CRange _ _ =>
      if ic then existsb (cset_has s) (case_variants c) else cset_has s c
  end.

(** The matcher's position: the character before the cursor, the text from
    the cursor on, the cursor's index, and the groups captured so far
    (latest first), each as a pair of indices. *)
Record mstate := {
  prev : option N;
  rest : pystr;
  pos : nat;
  caps : list (nat * (nat * nat))
}.

Definition advance (c : N) (tl : pystr) (st : mstate) : mstate :=
  {| prev := Some c; rest := tl; pos := S (pos st); caps := caps st |}.

Definition at_word_boundary (st : mstate) : bool :=
  let before := match prev st with Some c => is_word c | None => false end in
  let after := match rest st with c :: _ => is_word c | [] => false end in
  xorb before after.

Definition at_dollar (ml : bool) (st : mstate) : bool :=
  match rest st with
  | [] => true
  | [10%N] => true
  | 10%N :: _ => ml
  | _ => false
  end.

(** [rmatch f r st k]: match [r] at [st], then continue with [k]; the first
    success in backtracking order is the result. *)
Fixpoint rmatch (f : flags) (r : regex) (st : mstate)
         (k : mstate -> option mstate) {struct r} : option mstate :=
  match r with
  | Eps => k st
  | Chr s =>
      match rest st with
      | c :: tl => if cset_mem (ignorecase f) s c then k (advance c tl st) else None
      | [] => None
      end
  | Seq r1 r2 => rmatch f r1 st (fun st' => rmatch f r2 st' k)
  | Alt r1 r2 =>
      match rmatch f r1 st k with
      | Some res => Some res
      | None => rmatch f r2 st k
      end
  | Star greedy r1 =>
      (fix loop (fuel : nat) (st0 : mstate) {struct fuel} : option mstate :=
         match fuel with
         | O => k st0
         | S fuel' =>
             let again :=
               rmatch f r1 st0
                 (fun st' => if Nat.ltb (pos st0) (pos st') then loop fuel' st' else None) in
             if greedy then
               match again with
               | Some res => Some res
               | None => k st0
               end
             else
               match k st0 with
               | Some res => Some res
               | None => again
               end
         end) (S (length (rest st))) st
  | Group n r1 =>
      rmatch f r1 st
        (fun st' => k {| prev := prev st'; rest := rest st'; pos := pos st';
                         caps := (n, (pos st, pos st')) :: caps st' |})
  | Ahead r1 =>
      match rmatch f r1 st (fun st' => Some st') with
      | Some st' => k {| prev := prev st; rest := rest st; pos := pos st;
                         caps := caps st' |}
      | None => None
      end
  | WordB => if at_word_boundary st then k st else None
  | Dollar => if at_dollar (multiline f) st then k st else None
  end.

(** Derived forms. *)
Definition Plus (greedy : bool) (r : regex) : regex := Seq r (Star greedy r).
Definition Opt (r : regex) : regex := Alt r Eps.          (* r?  *)

Fixpoint Times (n : nat) (r : regex) : regex :=
  match n with
  | O => Eps
  | S n' => Seq r (Times n' r)
  end.

Fixpoint UpTo (n : nat) (r : regex) : regex :=
  match n with
  | O => Eps
  | S n' => Opt (Seq r (UpTo n' r))
  end.

(** [r{lo,hi}], greedy. *)
Definition Between (lo hi : nat) (r : regex) : regex :=
  Seq (Times lo r) (UpTo (hi - lo) r).

Fixpoint lit_chars (s : pystr) : regex :=
  match s with
  | [] => Eps
  | [c] => Chr (CLit c)
  | c :: s' => Seq (Chr (CLit c)) (lit_chars s')
  end.

(** A literal word of the pattern. *)
Definition Lit (s : string) : regex := lit_chars (u s).

Definition ch (s : string) : cset :=
  match u s with
  | c :: _ => CLit c
  | [] => CNot CAll
  end.

(** A successful match: the text, where it starts and ends, its groups. *)
Record rematch := {
  m_text : pystr;
  m_start : nat;
  m_end : nat;
  m_caps : list (nat * (nat * nat))
}.

Definition slice (s : pystr) (i j : nat) : pystr := take (j - i) (drop i s).

Fixpoint find_cap (n : nat) (l : list (nat * (nat * nat))) : option (nat * nat) :=
  match l with
  | [] => None
  | (m, span) :: l' => if Nat.eqb n m then Some span else find_cap n l'
  end.

(** [m.group(n)]; [None] when the group took no part in the match. *)
Definition group (n : nat) (m : rematch) : option pystr :=
  match find_cap n (m_caps m) with
  | Some (i, j) => Some (slice (m_text m) i j)
  | None => None
  end.

(** [m.group(0)]. *)
Definition group0 (m : rematch) : pystr := slice (m_text m) (m_start m) (m_end m).

(** Try the start positions from [st] rightwards. *)
Fixpoint search_from (f : flags) (r : regex) (text : pystr) (fuel : nat)
         (st : mstate) : option rematch :=
  match rmatch f r st (fun st' => Some st') with
  | Some st' =>
      Some {| m_text := text; m_start := pos st; m_end := pos st'; m_caps := caps st' |}
  | None =>
      match fuel, rest st with
      | S fuel', c :: tl => search_from f r text fuel' (advance c tl st)
      | _, _ => None
      end
  end.

Definition start_state (text : pystr) : mstate :=
  {| prev := None; rest := text; pos := O; caps := [] |}.

(** [pattern.search(text)]. *)
Definition search (f : flags) (r : regex) (text : pystr) : option rematch :=
  search_from f r text (length text) (start_state text).

Definition state_at (text : pystr) (i : nat) : mstate :=
  {| prev := last (take i text); rest := drop i text; pos := i; caps := [] |}.

(** [pattern.finditer(text)]: the successive non-overlapping matches. *)
Fixpoint finditer_from (f : flags) (r : regex) (text : pystr) (fuel : nat)
         (i : nat) : list rematch :=
  match fuel with
  | O => []
  | S fuel' =>
      if Nat.ltb (length text) i then []
      else
        match search_from f r text (length text - i) (state_at text i) with
        | None => []
        | Some m =>
            let next := if Nat.eqb (m_end m) (m_start m) then S (m_end m) else m_end m in
            m :: finditer_from f r text fuel' next
        end
  end.

Definition finditer (f : flags) (r : regex) (text : pystr) : list rematch :=
  finditer_from f r text (S (length text)) O.

Definition matches (f : flags) (r : regex) (text : pystr) : bool :=
  match search f r text with Some _ => true | None => false end.

Definition IGNORECASE : flags := {| ignorecase := true; multiline := false |}.
Definition NOFLAGS : flags := {| ignorecase := false; multiline := false |}.
Definition MULTILINE_DOTALL : flags := {| ignorecase := false; multiline := true |}.

End Re.

(** Python truthiness of numbers and of optional values. *)

Module Truth.

Definition q_truthy (q : Q) : bool := negb (Z.eqb (Qnum q) 0).

Definition opt_truthy (o : option Q) : bool :=
  match o with
  | Some q => q_truthy q
  | None => false
  end.

(** [a or b] on an optional number. *)
Definition q_or (a : option Q) (b : Q) : Q :=
  match a with
  | Some q => if q_truthy q then q else b
  | None => b
  end.

Definition z_or (a : option Z) (b : Z) : Z :=
  match a with
  | Some z => if Z.eqb z 0 then b else z
  | None => b
  end.

Definition Qleb (a b : Q) : bool := Qle_bool a b.
Definition Qltb (a b : Q) : bool := negb (Qle_bool b a).
Definition Qgeb (a b : Q) : bool := Qle_bool b a.
Definition Qgtb (a b : Q) : bool := negb (Qle_bool a b).

End Truth.

(** ** Python floats: their range *)

Module PyFloat.
Import PyStr Truth.
#[local] Open Scope Q_scope.

(** A float as the signal parser meets it: a number, an infinity or nan.
    Inside the normal range a float is taken as the exact number (the
    rounding to 53 bits is not modelled).  The range is modelled: a result
    at or beyond the overflow bound is an infinity, a result below the
    smallest normal number is rounded to the grid of the subnormal numbers,
    which takes it to 0 when it is small enough. *)
Inductive pyfloat := Finite (q : Q) | PosInf | NegInf | NaN.

Coercion Finite : Q >-> pyfloat.

(** Half-way between the largest float and 2^1024: from here on a number
    rounds to an infinity. *)
Definition overflow_bound : Q := inject_Z (2 ^ 1024 - 2 ^ 970).

(** The smallest normal number, 2^-1022, and the number of steps of the
    subnormal grid in 1, 2^1074. *)
Definition min_normal : Q := 1 # (2 ^ 1022).
Definition grid_steps : positive := 2 ^ 1074.

(** The integer nearest to [q], a tie going to the even one. *)
Definition round_half_even (q : Q) : Z :=
  let n := Qnum q in
  let d := Z.pos (Qden q) in
  let f := (n / d)%Z in
  let r := (n mod d)%Z in
  match (2 * r ?= d)%Z with
  | Lt => f
  | Gt => (f + 1)%Z
  | Eq => if Z.even f then f else (f + 1)%Z
  end.

Definition to_grid (q : Q) : Q :=
  round_half_even (q * inject_Z (Z.pos grid_steps)) # grid_steps.

Definition inf_of_sign (positive : bool) : pyfloat :=
  if positive then PosInf else NegInf.

(** The float of an exact result. *)
Definition to_float (q : Q) : pyfloat :=
  if Qeq_bool q 0 then Finite q
  else if Qle_bool overflow_bound (Qabs q) then inf_of_sign (Qle_bool 0 q)
  else if Qltb (Qabs q) min_normal then Finite (to_grid q)
  else Finite q.

(** [float(s)] for the decimal literals the patterns capture: a literal of
    more than 308 digits gives [inf], one that is small enough gives 0.0. *)
Definition float_of (s : pystr) : option pyfloat :=
  option_map to_float (decimal_of s).

(** [a * b] *)
Definition fmul (a b : pyfloat) : pyfloat :=
  match a, b with
  | NaN, _ | _, NaN => NaN
  | Finite x, Finite y => to_float (x * y)
  | Finite x, PosInf | PosInf, Finite x =>
      if Qeq_bool x 0 then NaN else inf_of_sign (Qle_bool 0 x)
  | Finite x, NegInf | NegInf, Finite x =>
      if Qeq_bool x 0 then NaN else inf_of_sign (negb (Qle_bool 0 x))
  | PosInf, PosInf | NegInf, NegInf => PosInf
  | PosInf, NegInf | NegInf, PosInf => NegInf
  end.

(** [a + b] *)
Definition fadd (a b : pyfloat) : pyfloat :=
  match a, b with
  | NaN, _ | _, NaN => NaN
  | Finite x, Finite y => to_float (x + y)
  | PosInf, NegInf | NegInf, PosInf => NaN
  | PosInf, _ | _, PosInf => PosInf
  | NegInf, _ | _, NegInf => NegInf
  end.

(** [a / 2] *)
Definition fhalf (a : pyfloat) : pyfloat :=
  match a with
  | Finite x => to_float (x / 2)
  | other => other
  end.

(** [a < b] and [a <= b]; a comparison with nan is false. *)
Definition flt (a b : pyfloat) : Prop :=
  match a, b with
  | Finite x, Finite y => x < y
  | Finite _, PosInf | NegInf, Finite _ | NegInf, PosInf => True
  | _, _ => False
  end.

Definition fle (a b : pyfloat) : Prop :=
  match a, b with
  | Finite x, Finite y => x <= y
  | Finite _, PosInf | NegInf, Finite _ | NegInf, PosInf
  | PosInf, PosInf | NegInf, NegInf => True
  | _, _ => False
  end.

(** A float that is not 0.0 (an infinity and nan are not). *)
Definition nonzero (a : pyfloat) : Prop :=
  match a with
  | Finite q => ~ q == 0
  | _ => True
  end.

(** The truth value of a float: 0.0 is false; the infinities and nan are
    true. *)
Definition float_truthy (a : pyfloat) : bool :=
  match a with
  | Finite q => q_truthy q
  | _ => true
  end.

Definition opt_float_truthy (o : option pyfloat) : bool :=
  match o with
  | Some a => float_truthy a
  | None => false
  end.

End PyFloat.


(** ** The signal parser ([GaulsSignalParser]) *)

Module SignalParser.
Import PyStr Re Truth PyFloat.

Fixpoint Cat (l : list regex) : regex :=
  match l with
  | [] => Eps
  | [r] => r
  | r :: l' => Seq r (Cat l')
  end.

Fixpoint AnyOf (l : list regex) : regex :=
  match l with
  | [] => Chr (CNot CAll)
  | [r] => r
  | r :: l' => Alt r (AnyOf l')
  end.

Definition spaces0 : regex := Star true (Chr CSpace).          (* \s* *)
Definition spaces1 : regex := Plus true (Chr CSpace).          (* \s+ *)
Definition digit09 : regex := Chr (CRange 48 57).              (* [0-9] *)
Definition dollar_opt : regex := Opt (Chr (ch "$")).           (* \$? *)
(** [[0-9]+\.?[0-9]*] *)
Definition number : regex :=
  Cat [Plus true digit09; Opt (Chr (ch ".")); Star true digit09].

(** [self.patterns], in the order of [__init__].  In the comments NUM
    abbreviates the source's [[0-9]+\.?[0-9]*]. *)

(** [\$?([A-Z]{2,10})\s*.*(?:Setup|buying|Buying)], IGNORECASE *)
Definition pat_symbol : regex :=
  Cat [dollar_opt; Group 1 (Between 2 10 (Chr (CRange 65 90))); spaces0;
       Star true (Chr CAny); AnyOf [Lit "Setup"; Lit "buying"; Lit "Buying"]].

(** [(?:Entry|ENTRY)\s*:\s*\$?(NUM|CMP)(?:\s+down\s+to\s+\$?(NUM))?], IGNORECASE *)
Definition pat_entry_price : regex :=
  Cat [AnyOf [Lit "Entry"; Lit "ENTRY"]; spaces0; Chr (ch ":"); spaces0; dollar_opt;
       Group 1 (AnyOf [number; Lit "CMP"]);
       Opt (Cat [spaces1; Lit "down"; spaces1; Lit "to"; spaces1; dollar_opt;
                 Group 2 number])].

(** [(?:Entry|ENTRY)\s*:\s*\$?NUM\s*\(([^)]+)\)], IGNORECASE *)
Definition pat_entry_hint : regex :=
  Cat [AnyOf [Lit "Entry"; Lit "ENTRY"]; spaces0; Chr (ch ":"); spaces0; dollar_opt;
       number; spaces0; Chr (ch "(");
       Group 1 (Plus true (Chr (CNot (ch ")")))); Chr (ch ")")].

(** [(?:TP|Target|TARGET)\s*:\s*\$?(NUM)(x?)], IGNORECASE *)
Definition pat_take_profit : regex :=
  Cat [AnyOf [Lit "TP"; Lit "Target"; Lit "TARGET"]; spaces0; Chr (ch ":"); spaces0;
       dollar_opt; Group 1 number; Group 2 (Opt (Chr (ch "x")))].

(** [(?:SL|Invalidation)\s*:\s*\$?(NUM)], IGNORECASE *)
Definition pat_stop_loss : regex :=
  Cat [AnyOf [Lit "SL"; Lit "Invalidation"]; spaces0; Chr (ch ":"); spaces0;
       dollar_opt; Group 1 number].

(** [RR\s*:\s*(NUM)], IGNORECASE *)
Definition pat_risk_reward : regex :=
  Cat [Lit "RR"; spaces0; Chr (ch ":"); spaces0; Group 1 number].

(** [buying\s+setup|Buying\s+Setup], IGNORECASE *)
Definition pat_buying_setup : regex :=
  Alt (Cat [Lit "buying"; spaces1; Lit "setup"])
      (Cat [Lit "Buying"; spaces1; Lit "Setup"]).

(** [Entry:\s*(NUM)-(NUM)], without flags (line 107) *)
Definition pat_entry_range : regex :=
  Cat [Lit "Entry:"; spaces0; Group 1 number; Chr (ch "-"); Group 2 number].

Inductive side := Buy | Sell.
Inductive entry_type := Market | Limit.

(** [signal['entry_hint']]: the parenthesised hint of the message, or the
    text the parser writes for a conservative limit (its two numbers kept).
    [F] is the type of the numbers. *)
Inductive entry_hint_of (F : Type) :=
| HintText (s : pystr)
| HintConservative (conservative_price target_price : F).

Arguments HintText {F} s.
Arguments HintConservative {F} conservative_price target_price.

(** The signal dictionary, over the numbers [F]: the parser fills it with
    floats; the copy trader is modelled on signals whose numbers are
    finite. *)
Record signal_of (F : Type) := {
  symbol : pystr;
  sig_side : side;
  entry_price : option F;
  sig_entry_type : entry_type;
  sig_entry_hint : option (entry_hint_of F);
  stop_loss : option F;
  take_profit : option F;
  risk_reward : option F;
  conviction : pystr;
  raw_text : pystr;
  source : pystr;
  original_target : option F
}.

Arguments symbol {F} s.
Arguments sig_side {F} s.
Arguments entry_price {F} s.
Arguments sig_entry_type {F} s.
Arguments sig_entry_hint {F} s.
Arguments stop_loss {F} s.
Arguments take_profit {F} s.
Arguments risk_reward {F} s.
Arguments conviction {F} s.
Arguments raw_text {F} s.
Arguments source {F} s.
Arguments original_target {F} s.

(** What [parse_signal] returns. *)
Definition entry_hint := entry_hint_of pyfloat.
Definition signal := signal_of pyfloat.

Fixpoint lstrip (s : pystr) : pystr :=
  match s with
  | c :: s' => if is_space c then lstrip s' else s
  | [] => []
  end.

(** [str.strip()]. *)
Definition strip (s : pystr) : pystr := rev (lstrip (rev (lstrip s))).

Definition group_str (n : nat) (m : rematch) : pystr := default [] (group n m).

(** 0.63 %, the [conservative_buffer]. *)
Definition conservative_buffer : Q := 63 # 10000.

(** The entry fields after lines 62-84:
    (entry_price, entry_type, entry_hint, original_target).
    [None] stands for an exception, which [parse_signal] turns into
    [return None]. *)
Definition parse_entry (text : pystr)
  : option (option pyfloat * entry_type * option entry_hint * option pyfloat) :=
  match search IGNORECASE pat_entry_price text with
  | Some entry_match =>
      let entry_str := group_str 1 entry_match in
      let secondary_price := group 2 entry_match in
      if PyStr.eqb (upper entry_str) (u "CMP") then
        match secondary_price with
        | Some (c :: sp) =>
            target_price ← float_of (c :: sp);
            let conservative_price :=
              fmul target_price (Finite (1 + conservative_buffer)) in
            Some (Some conservative_price, Limit,
                  Some (HintConservative conservative_price target_price),
                  Some target_price)
        | _ => Some (None, Market, None, None)
        end
      else
        p ← float_of entry_str;
        Some (Some p, Limit, None, None)
  | None => Some (None, Market, None, None)
  end.

(** Lines 105-116: no usable entry price; take the middle of an
    "Entry: low-high" range if the text has one, else keep the bare
    multiplier.  Result: (take_profit, entry_price, risk_reward). *)
Definition multiplier_without_entry (text : pystr) (entry : option pyfloat)
           (value : pyfloat)
  : option (option pyfloat * option pyfloat * option pyfloat) :=
  match search NOFLAGS pat_entry_range text with
  | Some entry_range_match =>
      entry_low ← float_of (group_str 1 entry_range_match);
      entry_high ← float_of (group_str 2 entry_range_match);
      let entry_mid := fhalf (fadd entry_low entry_high) in
      Some (Some (fmul entry_mid value), Some entry_mid, Some value)
  | None => Some (Some value, entry, Some value)
  end.

(** Lines 96-118: from the entry price so far, the new
    (take_profit, entry_price, risk_reward). *)
Definition parse_take_profit (text : pystr) (entry : option pyfloat)
  : option (option pyfloat * option pyfloat * option pyfloat) :=
  match search IGNORECASE pat_take_profit text with
  | Some tp_match =>
      value ← float_of (group_str 1 tp_match);
      let is_multiplier := PyStr.eqb (group_str 2 tp_match) (u "x") in
      if is_multiplier then
        if opt_float_truthy entry
        then Some (Some (fmul (default (Finite 0) entry) value), entry, None)
        else multiplier_without_entry text entry value
      else Some (Some value, entry, None)
  | None => Some (None, entry, None)
  end.

(** Lines 91-94. *)
Definition parse_stop_loss (text : pystr) : option (option pyfloat) :=
  match search IGNORECASE pat_stop_loss text with
  | Some sl_match => sl ← float_of (group_str 1 sl_match); Some (Some sl)
  | None => Some None
  end.

(** Lines 86-89: the parenthesised hint replaces the entry hint. *)
Definition parse_hint (text : pystr) (hint : option entry_hint) : option entry_hint :=
  match search IGNORECASE pat_entry_hint text with
  | Some hint_match => Some (HintText (strip (group_str 1 hint_match)))
  | None => hint
  end.

(** Lines 120-123: an "RR:" label replaces the risk/reward. *)
Definition parse_risk_reward (text : pystr) (rr : option pyfloat)
  : option (option pyfloat) :=
  match search IGNORECASE pat_risk_reward text with
  | Some rr_match => v ← float_of (group_str 1 rr_match); Some (Some v)
  | None => Some rr
  end.

(** [parse_signal]: [None] is both "not a signal" and the [except] branch. *)
Definition parse_signal (text : pystr) : option signal :=
  if negb (matches IGNORECASE pat_buying_setup text) then None
  else
    symbol_match ← search IGNORECASE pat_symbol text;
    let sym := group_str 1 symbol_match in
    '(entry0, etype, hint0, target) ← parse_entry text;
    let hint := parse_hint text hint0 in
    sl ← parse_stop_loss text;
    '(tp, entry, rr0) ← parse_take_profit text entry0;
    rr ← parse_risk_reward text rr0;
    let sg : signal :=
      {| symbol := sym ++ u "/USDT";
         sig_side := Buy;
         entry_price := entry;
         sig_entry_type := etype;
         sig_entry_hint := hint;
         stop_loss := sl;
         take_profit := tp;
         risk_reward := rr;
         conviction := u "high";
         raw_text := text;
         source := u "gauls_copy";
         original_target := target |} in
    if (negb (PyStr.eqb (symbol sg) []) && opt_float_truthy sl
        && opt_float_truthy tp)%bool
    then Some sg
    else None.

End SignalParser.


(** ** The position ledger and the exchange *)

Module Ledger.
Import PyStr Truth.
Export SignalParser (side, Buy, Sell).

Inductive status := StOpen | StClosed | StPending.

Inductive close_reason :=
| BreakevenStop          (* "Breakeven Stop (Free Trade)" *)
| StopLossHit.           (* "Stop Loss Hit" *)

(** The type tag of an update action ([action['type']]). *)
Inductive action_type :=
| RPartial (r_value : Q)     (* f'{r_value}R_partial' *)
| BookPartial                (* 'book_partial' *)
| MakeRiskFree               (* 'make_risk_free' *)
| RiskFreeGeneric            (* 'risk_free_generic' *)
| FullExit.                  (* 'full_exit' *)

(** The texts written to the [notes] columns, with the values formatted
    into them kept as arguments. *)
Inductive note :=
| NotePartialExit (tp_level : Z) (exit_percent : Q) (exchange_error : option pystr)
| NoteClosedViaPartials
| NoteFreeTrade
| NoteTpHit (tp_level : Z) (new_stop_loss : Q)
| NoteClose (reason : close_reason) (exchange_error : option pystr)
| NoteGauls (a : action_type)
| NoteSlMoved
| NoteClosedByUpdate
| NoteCopyTrade (conviction confidence recommendation : pystr) (sizing : option Q).

(** A row of [trades].  [entry_price] and [quantity] are written by every
    insert of the repository and are taken as not NULL. *)
Record trade := {
  t_symbol : pystr;
  t_side : side;
  t_entry_price : Q;
  t_entry_time : Z;
  t_quantity : Q;
  t_original_quantity : option Q;
  t_remaining_quantity : option Q;
  t_stop_loss : option Q;
  t_take_profit_1 : option Q;
  t_take_profit_2 : option Q;
  t_leverage : option Q;
  t_partial_exits_done : option Z;
  t_partial_pnl : option Q;
  t_status : status;
  t_strategy : pystr;
  t_exit_price : option Q;
  t_exit_time : option Z;
  t_pnl : option Q;
  t_notes : option (list note)
}.

(** A row of [partial_exits]. *)
Record partial_exit := {
  pe_trade_id : Z;
  pe_exit_price : Q;
  pe_quantity_exited : Q;
  pe_pnl : Q;
  pe_tp_level : Z;
  pe_new_stop_loss : option Q;
  pe_notes : note
}.

Inductive order_type := MarketOrder | LimitOrder.

(** An order sent to the exchange. *)
Record order := {
  o_symbol : pystr;
  o_type : order_type;
  o_side : side;
  o_amount : Q;
  o_price : option Q;
  o_leverage : option Q
}.

(** A row of [processed_gauls_signals] with the columns the copy trader
    names in its statements. *)
Record signal_marker := {
  sm_signal_id : option Z;
  sm_symbol : pystr;
  sm_signal_timestamp : pystr;
  sm_signal_hash : pystr;
  sm_raw_text : pystr;
  sm_trade_ids : pystr
}.

(** A row of [processed_gauls_signals] as utils/ensure_db_consistency.py
    declares the table: [signal_hash TEXT UNIQUE NOT NULL],
    [symbol TEXT NOT NULL], [result TEXT] (and [id], [processed_at]). *)
Record declared_marker := {
  dm_signal_hash : pystr;
  dm_symbol : pystr;
  dm_result : option pystr
}.

(** The table [processed_gauls_signals].  The one statement of the
    repository that creates it is in utils/ensure_db_consistency.py; the
    table it declares has no column [signal_id], [signal_timestamp],
    [raw_text] or [trade_ids], which the copy trader's SELECT and INSERT
    name.  [WithTraderColumns] is a table that has them (with [signal_hash]
    UNIQUE); nothing in the repository creates one. *)
Inductive signals_table :=
| NoSignalsTable
| DeclaredTable (rows : list declared_marker)
| WithTraderColumns (rows : list signal_marker).

(** A row of [processed_gauls_updates]; [message_hash] is a TEXT column. *)
Record update_marker := {
  um_message_hash : pystr;
  um_symbol : pystr;
  um_action_taken : action_type;
  um_processed_at : Z
}.

(** Both databases and the orders the exchange has accepted. *)
Record world := {
  trades : gmap Z trade;
  partial_exits : list partial_exit;
  orders : list order;
  processed_gauls_signals : signals_table;
  processed_gauls_updates : list update_marker;
  all_gauls_messages : list (pystr * Z)
}.

Definition set_trades (f : gmap Z trade -> gmap Z trade) (w : world) : world :=
  {| trades := f (trades w);
     partial_exits := partial_exits w;
     orders := orders w;
     processed_gauls_signals := processed_gauls_signals w;
     processed_gauls_updates := processed_gauls_updates w;
     all_gauls_messages := all_gauls_messages w |}.

Definition add_partial_exit (pe : partial_exit) (w : world) : world :=
  {| trades := trades w;
     partial_exits := partial_exits w ++ [pe];
     orders := orders w;
     processed_gauls_signals := processed_gauls_signals w;
     processed_gauls_updates := processed_gauls_updates w;
     all_gauls_messages := all_gauls_messages w |}.

Definition add_order (o : order) (w : world) : world :=
  {| trades := trades w;
     partial_exits := partial_exits w;
     orders := orders w ++ [o];
     processed_gauls_signals := processed_gauls_signals w;
     processed_gauls_updates := processed_gauls_updates w;
     all_gauls_messages := all_gauls_messages w |}.

Definition set_signals_table (table : signals_table) (w : world) : world :=
  {| trades := trades w;
     partial_exits := partial_exits w;
     orders := orders w;
     processed_gauls_signals := table;
     processed_gauls_updates := processed_gauls_updates w;
     all_gauls_messages := all_gauls_messages w |}.

Definition add_update_marker (m : update_marker) (w : world) : world :=
  {| trades := trades w;
     partial_exits := partial_exits w;
     orders := orders w;
     processed_gauls_signals := processed_gauls_signals w;
     processed_gauls_updates := processed_gauls_updates w ++ [m];
     all_gauls_messages := all_gauls_messages w |}.

(** The exchange as the code sees it: [fetch_ticker(symbol)['last']]
    ([None] when the call raises), the error an order call raises, the
    ['amount'] of the dictionary an order call returns, and
    [fetch_balance()['USDT']['free']]. *)
Record exchange := {
  last_price : pystr -> option Q;
  rejects : order -> option pystr;
  filled_amount : order -> Q;
  free_usdt : Q
}.

(** Place an order: the accepted order is recorded, a rejected one leaves
    the error text of the exception. *)
Definition place (E : exchange) (o : order) (w : world) : world * option pystr :=
  match rejects E o with
  | Some err => (w, Some err)
  | None => (add_order o w, None)
  end.

Definition opposite (s : side) : side :=
  match s with Buy => Sell | Sell => Buy end.

(** SQL [a + b] with NULL. *)
Definition sql_add (a : option Q) (b : Q) : option Q :=
  match a with
  | Some x => Some (x + b)%Q
  | None => None
  end.

(** SQL [notes || text] with NULL. *)
Definition sql_append (a : option (list note)) (n : note) : option (list note) :=
  match a with
  | Some l => Some (l ++ [n])
  | None => None
  end.

Definition pnl_per_unit (s : side) (entry exit_price : Q) : Q :=
  match s with
  | Buy => (exit_price - entry)%Q
  | Sell => (entry - exit_price)%Q
  end.

End Ledger.

(** ** The exit monitor ([EnhancedExitMonitor]) *)

Module ExitMonitor.
Import PyStr Truth Ledger.

Definition tp1_exit_percent : Q := 4 # 10.
Definition tp2_exit_percent : Q := 3 # 10.
Definition tp3_exit_percent : Q := 3 # 10.

(** The dictionary [get_open_trades] builds from a row. *)
Record trade_dict := {
  d_id : Z;
  d_symbol : pystr;
  d_side : side;
  d_entry_price : Q;
  d_stop_loss : option Q;
  d_take_profit_1 : option Q;
  d_take_profit_2 : option Q;
  d_leverage : Q;
  d_entry_time : Z;
  d_strategy : pystr;
  d_quantity : Q;
  d_original_quantity : Q;
  d_remaining_quantity : Q;
  d_partial_exits_done : Z;
  d_partial_pnl : Q
}.

Definition dict_of_row (id : Z) (r : trade) : trade_dict :=
  {| d_id := id;
     d_symbol := t_symbol r;
     d_side := t_side r;
     d_entry_price := t_entry_price r;
     d_stop_loss := t_stop_loss r;
     d_take_profit_1 := t_take_profit_1 r;
     d_take_profit_2 := t_take_profit_2 r;
     d_leverage := q_or (t_leverage r) 1;
     d_entry_time := t_entry_time r;
     d_strategy := t_strategy r;
     d_quantity := t_quantity r;
     d_original_quantity := q_or (t_original_quantity r) (t_quantity r);
     d_remaining_quantity := q_or (t_remaining_quantity r) (t_quantity r);
     d_partial_exits_done := z_or (t_partial_exits_done r) 0;
     d_partial_pnl := q_or (t_partial_pnl r) 0 |}.

(** [get_open_trades]: the open rows (the order of the rows plays no part
    in what follows). *)
Definition get_open_trades (w : world) : list trade_dict :=
  List.map (fun '(id, r) => dict_of_row id r)
    (List.filter (fun '(_, r) => match t_status r with StOpen => true | _ => false end)
       (map_to_list (trades w))).

(** [min(a, b)] of Python: [b] only when it is strictly smaller. *)
Definition py_min (a b : Q) : Q := if Qltb b a then b else a.

(** The "negligible" remainder below which a position counts as closed. *)
Definition epsilon : Q := 1 # 10000.

Definition is_free_trade (s : side) (new_stop_loss entry : Q) : bool :=
  match s with
  | Buy => Qgeb new_stop_loss entry
  | Sell => Qleb new_stop_loss entry
  end.

(** [execute_partial_exit].  An exception inside the outer [try] rolls the
    database back; an order already accepted by the exchange stays. *)
Definition execute_partial_exit (E : exchange) (now : Z) (trade_id : Z)
           (exit_price exit_percent : Q) (tp_level : Z) (new_stop_loss : option Q)
           (w : world) : world :=
  match trades w !! trade_id with
  | None => w
  | Some r =>
      let side := t_side r in
      let entry_price := t_entry_price r in
      let orig_qty := q_or (t_original_quantity r) (t_quantity r) in
      let remaining_qty := q_or (t_remaining_quantity r) (t_quantity r) in
      let exit_quantity := py_min (orig_qty * exit_percent)%Q remaining_qty in
      let pnl := (pnl_per_unit side entry_price exit_price * exit_quantity)%Q in
      let '(w1, exchange_error) :=
        place E {| o_symbol := t_symbol r; o_type := MarketOrder;
                   o_side := opposite side; o_amount := exit_quantity;
                   o_price := None; o_leverage := None |} w in
      let pnl_note := option_map (prefix 50) exchange_error in
      let w2 := add_partial_exit
                  {| pe_trade_id := trade_id; pe_exit_price := exit_price;
                     pe_quantity_exited := exit_quantity; pe_pnl := pnl;
                     pe_tp_level := tp_level; pe_new_stop_loss := new_stop_loss;
                     pe_notes := NotePartialExit tp_level exit_percent pnl_note |} w1 in
      let new_remaining := (remaining_qty - exit_quantity)%Q in
      match t_partial_exits_done r with
      | None => w1                                   (* None + 1 raises: rollback *)
      | Some partial_exits =>
          let new_partial_exits := partial_exits + 1 in
          if Qleb new_remaining epsilon then
            set_trades
              (insert trade_id
                 {| t_symbol := t_symbol r; t_side := t_side r;
                    t_entry_price := t_entry_price r; t_entry_time := t_entry_time r;
                    t_quantity := t_quantity r;
                    t_original_quantity := t_original_quantity r;
                    t_remaining_quantity := Some 0%Q;
                    t_stop_loss := t_stop_loss r;
                    t_take_profit_1 := t_take_profit_1 r;
                    t_take_profit_2 := t_take_profit_2 r;
                    t_leverage := t_leverage r;
                    t_partial_exits_done := Some new_partial_exits;
                    t_partial_pnl := sql_add (t_partial_pnl r) pnl;
                    t_status := StClosed;
                    t_strategy := t_strategy r;
                    t_exit_price := Some exit_price;
                    t_exit_time := Some now;
                    t_pnl := sql_add (t_partial_pnl r) pnl;
                    t_notes := Some [NoteClosedViaPartials] |}) w2
          else
            match new_stop_loss with
            | None => w1                             (* None >= entry raises: rollback *)
            | Some nsl =>
                let notes := if is_free_trade side nsl entry_price
                             then NoteFreeTrade else NoteTpHit tp_level nsl in
                set_trades
                  (insert trade_id
                     {| t_symbol := t_symbol r; t_side := t_side r;
                        t_entry_price := t_entry_price r; t_entry_time := t_entry_time r;
                        t_quantity := t_quantity r;
                        t_original_quantity := t_original_quantity r;
                        t_remaining_quantity := Some new_remaining;
                        t_stop_loss := Some nsl;
                        t_take_profit_1 := t_take_profit_1 r;
                        t_take_profit_2 := t_take_profit_2 r;
                        t_leverage := t_leverage r;
                        t_partial_exits_done := Some new_partial_exits;
                        t_partial_pnl := sql_add (t_partial_pnl r) pnl;
                        t_status := t_status r;
                        t_strategy := t_strategy r;
                        t_exit_price := t_exit_price r;
                        t_exit_time := t_exit_time r;
                        t_pnl := t_pnl r;
                        t_notes := Some [notes] |}) w2
            end
      end
  end.

(** [close_remaining_position]. *)
Definition close_remaining_position (E : exchange) (now : Z) (trade_id : Z)
           (exit_price : Q) (reason : close_reason) (w : world) : world :=
  match trades w !! trade_id with
  | None => w
  | Some r =>
      let side := t_side r in
      let entry_price := t_entry_price r in
      let partial_pnl := q_or (t_partial_pnl r) 0 in
      let remaining_qty :=
        match t_remaining_quantity r with
        | Some q => q
        | None => t_quantity r
        end in
      let final_pnl := (pnl_per_unit side entry_price exit_price * remaining_qty)%Q in
      let total_pnl := (partial_pnl + final_pnl)%Q in
      let '(w1, exchange_error) :=
        place E {| o_symbol := t_symbol r; o_type := MarketOrder;
                   o_side := opposite side; o_amount := remaining_qty;
                   o_price := None; o_leverage := None |} w in
      set_trades
        (insert trade_id
           {| t_symbol := t_symbol r; t_side := t_side r;
              t_entry_price := t_entry_price r; t_entry_time := t_entry_time r;
              t_quantity := t_quantity r;
              t_original_quantity := t_original_quantity r;
              t_remaining_quantity := Some 0%Q;
              t_stop_loss := t_stop_loss r;
              t_take_profit_1 := t_take_profit_1 r;
              t_take_profit_2 := t_take_profit_2 r;
              t_leverage := t_leverage r;
              t_partial_exits_done := t_partial_exits_done r;
              t_partial_pnl := t_partial_pnl r;
              t_status := StClosed;
              t_strategy := t_strategy r;
              t_exit_price := Some exit_price;
              t_exit_time := Some now;
              t_pnl := Some total_pnl;
              t_notes := Some [NoteClose reason (option_map (prefix 100) exchange_error)] |})
        w1
  end.

(** What [check_exit_conditions] returns: the event, at the polled price. *)
Inductive exit_event :=
| FreeTradeClosed (price : Q)
| StopLoss (price : Q)
| TP2Hit (price : Q)
| TP1Hit (price : Q).

(** [x and test(x)] on an optional number: set, non-zero, and the test. *)
Definition and_then (x : option Q) (test : Q -> bool) : bool :=
  match x with
  | Some q => q_truthy q && test q
  | None => false
  end.

(** [check_exit_conditions]. *)
Definition check_exit_conditions (E : exchange) (now : Z) (trade : trade_dict)
           (current_price : Q) (w : world) : option exit_event * world :=
  let trade_id := d_id trade in
  let side := d_side trade in
  let entry_price := d_entry_price trade in
  let stop_loss := d_stop_loss trade in
  let tp1 := d_take_profit_1 trade in
  let tp2 := d_take_profit_2 trade in
  let partial_exits := d_partial_exits_done trade in
  match side with
  | Buy =>
      (* LONG positions *)
      if and_then stop_loss (fun sl => Qleb current_price sl) then
        if and_then stop_loss (fun sl => Qgeb sl entry_price) then
          (Some (FreeTradeClosed current_price),
           close_remaining_position E now trade_id current_price BreakevenStop w)
        else
          (Some (StopLoss current_price),
           close_remaining_position E now trade_id current_price StopLossHit w)
      else if (Z.eqb partial_exits 1 && and_then tp2 (fun tp => Qgeb current_price tp))%bool
      then
        (Some (TP2Hit current_price),
         execute_partial_exit E now trade_id current_price tp2_exit_percent 2 tp1 w)
      else if (Z.eqb partial_exits 0 && and_then tp1 (fun tp => Qgeb current_price tp))%bool
      then
        (Some (TP1Hit current_price),
         execute_partial_exit E now trade_id current_price tp1_exit_percent 1
           (Some entry_price) w)
      else (None, w)
  | Sell =>
      (* SHORT positions *)
      if and_then stop_loss (fun sl => Qgeb current_price sl) then
        if and_then stop_loss (fun sl => Qleb sl entry_price) then
          (Some (FreeTradeClosed current_price),
           close_remaining_position E now trade_id current_price BreakevenStop w)
        else
          (Some (StopLoss current_price),
           close_remaining_position E now trade_id current_price StopLossHit w)
      else if (Z.eqb partial_exits 1 && and_then tp2 (fun tp => Qleb current_price tp))%bool
      then
        (Some (TP2Hit current_price),
         execute_partial_exit E now trade_id current_price tp2_exit_percent 2 tp1 w)
      else if (Z.eqb partial_exits 0 && and_then tp1 (fun tp => Qleb current_price tp))%bool
      then
        (Some (TP1Hit current_price),
         execute_partial_exit E now trade_id current_price tp1_exit_percent 1
           (Some entry_price) w)
      else (None, w)
  end.

(** One poll of one open position by [monitor_loop]: the row is read, the
    price fetched, the exit conditions checked. *)
Definition poll_trade (E : exchange) (now : Z) (trade_id : Z) (w : world)
  : option exit_event * world :=
  match trades w !! trade_id with
  | Some r =>
      match t_status r, last_price E (t_symbol r) with
      | StOpen, Some current_price =>
          check_exit_conditions E now (dict_of_row trade_id r) current_price w
      | _, _ => (None, w)
      end
  | None => (None, w)
  end.

End ExitMonitor.

(** ** The Python runtime a process runs on

  [hash()] of a string is salted per process, so every process carries its
  own; [repr] of a float and [hashlib.md5] are fixed functions that the
  model does not compute. *)

Module Runtime.
Import PyStr.

Record runtime := {
  py_hash : pystr -> Z;
  float_repr : Q -> pystr;
  md5_hexdigest : pystr -> pystr
}.

(** [str(n)] of an integer. *)
Definition str_of_int (z : Z) : pystr :=
  u (DecimalString.NilZero.string_of_int (Z.to_int z)).

(** The values a Python set of the model holds. *)
Inductive pyval :=
| PyInt (z : Z)
| PyStr (s : pystr).

(** [a == b]: an [int] never equals a [str]. *)
Definition pyval_eqb (a b : pyval) : bool :=
  match a, b with
  | PyInt x, PyInt y => Z.eqb x y
  | PyStr x, PyStr y => PyStr.eqb x y
  | _, _ => false
  end.

(** [x in s]. *)
Definition py_in (x : pyval) (s : list pyval) : bool := existsb (pyval_eqb x) s.

(** [s.add(x)]. *)
Definition py_add (x : pyval) (s : list pyval) : list pyval :=
  if py_in x s then s else s ++ [x].

End Runtime.

(** ** The update processor ([GaulsTradeUpdateProcessor]) *)

Module UpdateProcessor.
Import PyStr Re Truth Ledger Runtime.
Import SignalParser (Cat, AnyOf, spaces0, spaces1, group_str).

Definition digit : regex := Chr CDigit.                        (* \d *)
(** DEC in the comments: the source's [\d+\.?\d*]. *)
Definition decimal : regex :=
  Cat [Plus true digit; Opt (Chr (ch ".")); Star true digit].
Definition any0 : regex := Star true (Chr CAny).               (* .*  *)
Definition any0_lazy : regex := Star false (Chr CAny).         (* .*? *)
Definition any_opt : regex := Opt (Chr CAny).                  (* .?  *)
Definition upper_2_10 : regex := Between 2 10 (Chr (CRange 65 90)).  (* [A-Z]{2,10} *)

(** [self.update_patterns]. *)

(** [(DEC)R\s+(locked|done|reached|secured|taken)], IGNORECASE *)
Definition pat_r_action : regex :=
  Cat [Group 1 decimal; Lit "R"; spaces1;
       Group 2 (AnyOf [Lit "locked"; Lit "done"; Lit "reached"; Lit "secured"; Lit "taken"])].

(** [(DEC)R\s+(?:profit\s+)?running], IGNORECASE *)
Definition pat_r_info : regex :=
  Cat [Group 1 decimal; Lit "R"; spaces1; Opt (Cat [Lit "profit"; spaces1]); Lit "running"].

(** [risk.?free|move.*?(?:sl|stop.*?loss).*?(?:to|at).*?(?:entry|breakeven)|sl.?to.?breakeven|trade.*risk.free|moving.*?stop.*?to.*?entry],
    IGNORECASE *)
Definition pat_risk_free : regex :=
  AnyOf [
    Cat [Lit "risk"; any_opt; Lit "free"];
    Cat [Lit "move"; any0_lazy;
         AnyOf [Lit "sl"; Cat [Lit "stop"; any0_lazy; Lit "loss"]]; any0_lazy;
         AnyOf [Lit "to"; Lit "at"]; any0_lazy;
         AnyOf [Lit "entry"; Lit "breakeven"]];
    Cat [Lit "sl"; any_opt; Lit "to"; any_opt; Lit "breakeven"];
    Cat [Lit "trade"; any0; Lit "risk"; Chr CAny; Lit "free"];
    Cat [Lit "moving"; any0_lazy; Lit "stop"; any0_lazy; Lit "to"; any0_lazy; Lit "entry"]].

(** [book\s+(\d+)%|take\s+(\d+)%|partial.*(\d+)%], IGNORECASE *)
Definition pat_book_partial : regex :=
  AnyOf [
    Cat [Lit "book"; spaces1; Group 1 (Plus true digit); Chr (ch "%")];
    Cat [Lit "take"; spaces1; Group 2 (Plus true digit); Chr (ch "%")];
    Cat [Lit "partial"; any0; Group 3 (Plus true digit); Chr (ch "%")]].

(** [clos(?:e|ing)\s+(?:it\s+)?here|exit|out|done], IGNORECASE *)
Definition pat_full_exit : regex :=
  AnyOf [
    Cat [Lit "clos"; AnyOf [Lit "e"; Lit "ing"]; spaces1;
         Opt (Cat [Lit "it"; spaces1]); Lit "here"];
    Lit "exit"; Lit "out"; Lit "done"].

(** The pointing hand U+1F449, its skin tone U+1F3FB, the bullet U+2022,
    the em dash U+2014 and the en dash U+2013. *)
Definition HAND : N := 128073.
Definition TONE : N := 127995.
Definition BULLET : N := 8226.
Definition EM_DASH : N := 8212.
Definition EN_DASH : N := 8211.

(** [(?:HAND TONE|BULLET|-)\s*\$([A-Z]{2,10})\s*[EM_DASH EN_DASH -]\s*(.+?)(?=\n|HAND|$)],
    MULTILINE | DOTALL *)
Definition pat_symbol_line : regex :=
  Cat [AnyOf [Seq (Chr (CLit HAND)) (Chr (CLit TONE)); Chr (CLit BULLET); Chr (ch "-")];
       spaces0; Chr (ch "$"); Group 1 upper_2_10; spaces0;
       Chr (COr (CLit EM_DASH) (COr (CLit EN_DASH) (ch "-"))); spaces0;
       Group 2 (Plus false (Chr CAll));
       Ahead (AnyOf [Chr (CLit 10); Chr (CLit HAND); Dollar])].

(** [\b(?:both|all)\s+(?:trades?|positions?)\b], IGNORECASE *)
Definition pat_both_all : regex :=
  Cat [WordB; AnyOf [Lit "both"; Lit "all"]; spaces1;
       AnyOf [Cat [Lit "trade"; Opt (Lit "s")]; Cat [Lit "position"; Opt (Lit "s")]];
       WordB].

(** [let(?:ting)?\s+(?:the\s+)?(?:final\s+)?targets?\s+cook|patience|hold],
    IGNORECASE *)
Definition pat_let_cook : regex :=
  AnyOf [
    Cat [Lit "let"; Opt (Lit "ting"); spaces1; Opt (Cat [Lit "the"; spaces1]);
         Opt (Cat [Lit "final"; spaces1]); Lit "target"; Opt (Lit "s"); spaces1;
         Lit "cook"];
    Lit "patience"; Lit "hold"].

(** [(?:both\s+)?entries?\s+filled], IGNORECASE *)
Definition pat_entries_filled : regex :=
  Cat [Opt (Cat [Lit "both"; spaces1]); Lit "entrie"; Opt (Lit "s");
       spaces1; Lit "filled"].

(** The two fall-back patterns of [process_update_message]:
    [\$([A-Z]{2,10})] and [([A-Z]{2,10})(?=\s*(UPDATE|TRADE|:))], IGNORECASE *)
Definition pat_dollar_symbol : regex := Cat [Chr (ch "$"); Group 1 upper_2_10].
Definition pat_bare_symbol : regex :=
  Cat [Group 1 upper_2_10;
       Ahead (Cat [spaces0; Group 2 (AnyOf [Lit "UPDATE"; Lit "TRADE"; Lit ":"])])].

(** [float(m.group(n))] on a group that matched DEC, always a decimal
    literal: the number the literal denotes.  The code's float is that number
    up to rounding; for a literal beyond the float range it is [inf], which
    compares with 1 and 2 as the number does. *)
Definition float_matched (s : pystr) : Q := default 0%Q (decimal_of s).

(** The processor of one process: the set of processed hashes and the
    runtime, whose [hash] is this process's. *)
Record processor := {
  processed_updates : list pyval;
  rt : runtime
}.

(** [load_processed_updates]: the TEXT hashes of the table, as they are. *)
Definition load_processed_updates (w : world) : list pyval :=
  List.map (fun m => PyStr (um_message_hash m)) (processed_gauls_updates w).

(** [GaulsTradeUpdateProcessor.__init__] of a fresh process. *)
Definition new_processor (R : runtime) (w : world) : processor :=
  {| processed_updates := load_processed_updates w; rt := R |}.

Record symbol_data := {
  sd_r_value : option Q;
  sd_r_action : option pystr;
  sd_content : option pystr
}.

(** [updates[symbol] = data] on an insertion-ordered dict. *)
Fixpoint dict_set (k : pystr) (v : symbol_data) (d : list (pystr * symbol_data))
  : list (pystr * symbol_data) :=
  match d with
  | [] => [(k, v)]
  | (k', v') :: d' =>
      if PyStr.eqb k k' then (k, v) :: d' else (k', v') :: dict_set k v d'
  end.

Definition symbol_data_of_line (m : rematch) : pystr * symbol_data :=
  let symbol := group_str 1 m in
  let content := group_str 2 m in
  match search IGNORECASE pat_r_action content with
  | Some r_match =>
      (symbol, {| sd_r_value := Some (float_matched (group_str 1 r_match));
                  sd_r_action := Some (List.map to_lower (group_str 2 r_match));
                  sd_content := Some content |})
  | None =>
      match search IGNORECASE pat_r_info content with
      | Some r_match =>
          (symbol, {| sd_r_value := Some (float_matched (group_str 1 r_match));
                      sd_r_action := Some (u "running");
                      sd_content := Some content |})
      | None =>
          (symbol, {| sd_r_value := None; sd_r_action := None;
                      sd_content := Some content |})
      end
  end.

(** [extract_symbol_updates]. *)
Definition extract_symbol_updates (message_text : pystr) : list (pystr * symbol_data) :=
  fold_left (fun updates m => let '(k, v) := symbol_data_of_line m in dict_set k v updates)
    (finditer MULTILINE_DOTALL pat_symbol_line message_text) [].

Record generic_instructions := {
  all_risk_free : bool;
  let_cook : bool;
  no_partial_exit : bool
}.

(** [extract_generic_instructions]. *)
Definition extract_generic_instructions (message_text : pystr) : generic_instructions :=
  let has_risk_free := matches IGNORECASE pat_risk_free message_text in
  let has_both_all := matches IGNORECASE pat_both_all message_text in
  let cook := matches IGNORECASE pat_let_cook message_text in
  {| all_risk_free := has_risk_free && has_both_all;
     let_cook := cook;
     no_partial_exit := cook |}.

(** An action dictionary; absent keys are [None] / [false]. *)
Record action := {
  a_type : action_type;
  a_partial_percent : option Z;
  a_move_sl_to_breakeven : bool;
  a_r_value : option Q
}.

(** The first group of a [book_partial] match that is set and all digits. *)
Definition first_digit_group (m : rematch) : option Z :=
  let pick n :=
    match group n m with
    | Some g => if isdigit g then Some (int_of g) else None
    | None => None
    end in
  match pick 1%nat with
  | Some p => Some p
  | None => match pick 2%nat with
            | Some p => Some p
            | None => pick 3%nat
            end
  end.

(** [determine_action]. *)
Definition determine_action (message_text : pystr) : option action :=
  let r_rule :=
    match search IGNORECASE pat_r_action message_text with
    | Some r_match =>
        let r_value := float_matched (group_str 1 r_match) in
        if (Qgeb r_value 1 && Qltb r_value 2)%bool then
          Some {| a_type := RPartial r_value; a_partial_percent := Some 40;
                  a_move_sl_to_breakeven := true; a_r_value := Some r_value |}
        else if Qgeb r_value 2 then
          Some {| a_type := RPartial r_value; a_partial_percent := Some 30;
                  a_move_sl_to_breakeven := false; a_r_value := Some r_value |}
        else None
    | None => None
    end in
  let book_rule :=
    match search IGNORECASE pat_book_partial message_text with
    | Some book_match =>
        match first_digit_group book_match with
        | Some percent =>
            if Z.eqb percent 0 then None
            else Some {| a_type := BookPartial; a_partial_percent := Some percent;
                         a_move_sl_to_breakeven := false; a_r_value := None |}
        | None => None
        end
    | None => None
    end in
  match r_rule with
  | Some a => Some a
  | None =>
    match book_rule with
    | Some a => Some a
    | None =>
      if matches IGNORECASE pat_risk_free message_text then
        Some {| a_type := MakeRiskFree;
                a_partial_percent :=
                  match search IGNORECASE pat_book_partial message_text with
                  | Some book_match => first_digit_group book_match
                  | None => None
                  end;
                a_move_sl_to_breakeven := true; a_r_value := None |}
      else if matches IGNORECASE pat_full_exit message_text then
        Some {| a_type := FullExit; a_partial_percent := Some 100;
                a_move_sl_to_breakeven := false; a_r_value := None |}
      else None
    end
  end.

(** [determine_action_enhanced]. *)
Definition determine_action_enhanced (message_text : pystr) (sd : symbol_data)
           (g : generic_instructions) : option action :=
  if all_risk_free g then
    Some {| a_type := RiskFreeGeneric; a_partial_percent := None;
            a_move_sl_to_breakeven := true; a_r_value := None |}
  else determine_action message_text.

(** The dictionary [get_matching_trades] builds from a row. *)
Record trade_dict := {
  d_id : Z;
  d_symbol : pystr;
  d_side : side;
  d_entry_price : Q;
  d_quantity : Q;
  d_stop_loss : option Q;
  d_take_profit_1 : option Q;
  d_original_quantity : Q;
  d_partial_exits_done : Z;
  d_remaining_quantity : Q;
  d_leverage : Q;
  d_strategy : pystr
}.

Definition dict_of_row (id : Z) (r : trade) : trade_dict :=
  {| d_id := id;
     d_symbol := t_symbol r;
     d_side := t_side r;
     d_entry_price := t_entry_price r;
     d_quantity := t_quantity r;
     d_stop_loss := t_stop_loss r;
     d_take_profit_1 := t_take_profit_1 r;
     d_original_quantity := q_or (t_original_quantity r) (t_quantity r);
     d_partial_exits_done := z_or (t_partial_exits_done r) 0;
     d_remaining_quantity := q_or (t_remaining_quantity r) (t_quantity r);
     d_leverage := q_or (t_leverage r) 1;
     d_strategy := t_strategy r |}.

(** [WHERE symbol = ? AND status = 'open' AND strategy = 'gauls_copy'] *)
Definition is_matching (symbol : pystr) (r : trade) : bool :=
  PyStr.eqb (t_symbol r) symbol
  && match t_status r with StOpen => true | _ => false end
  && PyStr.eqb (t_strategy r) (u "gauls_copy").

(** [get_matching_trades]. *)
Definition get_matching_trades (symbol : pystr) (w : world) : list trade_dict :=
  List.map (fun '(id, r) => dict_of_row id r)
    (List.filter (fun '(_, r) => is_matching symbol r) (map_to_list (trades w))).

(** The string of an action type, [action['type']]. *)
Definition action_type_text (R : runtime) (a : action_type) : pystr :=
  match a with
  | RPartial r_value => float_repr R r_value ++ u "R_partial"
  | BookPartial => u "book_partial"
  | MakeRiskFree => u "make_risk_free"
  | RiskFreeGeneric => u "risk_free_generic"
  | FullExit => u "full_exit"
  end.

(** [update_trade_partial]; [None] when the row is gone and unpacking
    [fetchone()] raises. *)
Definition update_trade_partial (R : runtime) (trade_id : Z) (partial_qty exit_price : Q)
           (a : action_type) (w : world) : option world :=
  match trades w !! trade_id with
  | None => None
  | Some r =>
      let pnl := (pnl_per_unit (t_side r) (t_entry_price r) exit_price * partial_qty)%Q in
      let w1 := add_partial_exit
                  {| pe_trade_id := trade_id; pe_exit_price := exit_price;
                     pe_quantity_exited := partial_qty; pe_pnl := pnl;
                     pe_tp_level := if contains (u "1") (action_type_text R a) then 1 else 2;
                     pe_new_stop_loss := None;
                     pe_notes := NoteGauls a |} w in
      Some (set_trades
        (insert trade_id
           {| t_symbol := t_symbol r; t_side := t_side r;
              t_entry_price := t_entry_price r; t_entry_time := t_entry_time r;
              t_quantity := t_quantity r;
              t_original_quantity := t_original_quantity r;
              t_remaining_quantity := sql_add (t_remaining_quantity r) (- partial_qty);
              t_stop_loss := t_stop_loss r;
              t_take_profit_1 := t_take_profit_1 r;
              t_take_profit_2 := t_take_profit_2 r;
              t_leverage := t_leverage r;
              t_partial_exits_done := option_map (fun n => n + 1) (t_partial_exits_done r);
              t_partial_pnl := sql_add (t_partial_pnl r) pnl;
              t_status := t_status r;
              t_strategy := t_strategy r;
              t_exit_price := t_exit_price r;
              t_exit_time := t_exit_time r;
              t_pnl := t_pnl r;
              t_notes := sql_append (t_notes r) (NoteGauls a) |}) w1)
  end.

(** The breakeven price, fees included: entry plus (long) or minus
    (short) 0.1 %. *)
Definition breakeven (s : side) (entry_price : Q) : Q :=
  (entry_price * match s with Buy => 1001 # 1000 | Sell => 999 # 1000 end)%Q.

(** [move_stop_to_breakeven]. *)
Definition move_stop_to_breakeven (trade : trade_dict) (w : world) : world :=
  set_trades
    (fun ts =>
       match ts !! d_id trade with
       | None => ts
       | Some r =>
           <[ d_id trade :=
             {| t_symbol := t_symbol r; t_side := t_side r;
                t_entry_price := t_entry_price r; t_entry_time := t_entry_time r;
                t_quantity := t_quantity r;
                t_original_quantity := t_original_quantity r;
                t_remaining_quantity := t_remaining_quantity r;
                t_stop_loss := Some (breakeven (d_side trade) (d_entry_price trade));
                t_take_profit_1 := t_take_profit_1 r;
                t_take_profit_2 := t_take_profit_2 r;
                t_leverage := t_leverage r;
                t_partial_exits_done := t_partial_exits_done r;
                t_partial_pnl := t_partial_pnl r;
                t_status := t_status r;
                t_strategy := t_strategy r;
                t_exit_price := t_exit_price r;
                t_exit_time := t_exit_time r;
                t_pnl := t_pnl r;
                t_notes := sql_append (t_notes r) NoteSlMoved |} ]> ts
       end) w.

(** [close_trade]. *)
Definition close_trade (now : Z) (trade_id : Z) (exit_price : Q) (w : world) : world :=
  set_trades
    (fun ts =>
       match ts !! trade_id with
       | None => ts
       | Some r =>
           <[ trade_id :=
             {| t_symbol := t_symbol r; t_side := t_side r;
                t_entry_price := t_entry_price r; t_entry_time := t_entry_time r;
                t_quantity := t_quantity r;
                t_original_quantity := t_original_quantity r;
                t_remaining_quantity := t_remaining_quantity r;
                t_stop_loss := t_stop_loss r;
                t_take_profit_1 := t_take_profit_1 r;
                t_take_profit_2 := t_take_profit_2 r;
                t_leverage := t_leverage r;
                t_partial_exits_done := t_partial_exits_done r;
                t_partial_pnl := t_partial_pnl r;
                t_status := StClosed;
                t_strategy := t_strategy r;
                t_exit_price := Some exit_price;
                t_exit_time := Some now;
                t_pnl := t_pnl r;
                t_notes := sql_append (t_notes r) NoteClosedByUpdate |} ]> ts
       end) w.

(** [execute_action]: the new world and whether the action succeeded.  An
    exception is caught and gives [False]; what was done before it stays. *)
Definition execute_action (E : exchange) (R : runtime) (now : Z) (trade : trade_dict)
           (a : action) (w : world) : world * bool :=
  let symbol := d_symbol trade in
  let remaining_qty := d_remaining_quantity trade in
  let partial_percent := default 0 (a_partial_percent a) in
  let partial_qty := (remaining_qty * (inject_Z partial_percent / 100))%Q in
  let after_exit : world * bool :=
    if Qgtb partial_qty 0 then
      match last_price E symbol with
      | None => (w, false)
      | Some current_price =>
          if Z.ltb partial_percent 100 then
            match place E {| o_symbol := symbol; o_type := MarketOrder;
                             o_side := opposite (d_side trade); o_amount := partial_qty;
                             o_price := None; o_leverage := None |} w with
            | (_, Some _) => (w, false)
            | (w1, None) =>
                match update_trade_partial R (d_id trade) partial_qty current_price
                        (a_type a) w1 with
                | Some w2 => (w2, true)
                | None => (w1, false)
                end
            end
          else
            match place E {| o_symbol := symbol; o_type := MarketOrder;
                             o_side := opposite (d_side trade); o_amount := remaining_qty;
                             o_price := None; o_leverage := None |} w with
            | (_, Some _) => (w, false)
            | (w1, None) => (close_trade now (d_id trade) current_price w1, true)
            end
      end
    else (w, true) in
  match after_exit with
  | (w1, false) => (w1, false)
  | (w1, true) =>
      if a_move_sl_to_breakeven a then (move_stop_to_breakeven trade w1, true)
      else (w1, true)
  end.

(** [mark_as_processed]: the hash goes to the table as text
    ([INSERT OR IGNORE] on the UNIQUE column) and to the set as it is. *)
Definition mark_as_processed (now : Z) (message_hash : Z) (symbol : pystr)
           (a : action_type) (pw : processor * world) : processor * world :=
  let '(p, w) := pw in
  let text := str_of_int message_hash in
  let w' :=
    if existsb (fun m => PyStr.eqb (um_message_hash m) text) (processed_gauls_updates w)
    then w
    else add_update_marker {| um_message_hash := text; um_symbol := symbol;
                              um_action_taken := a; um_processed_at := now |} w in
  ({| processed_updates := py_add (PyInt message_hash) (processed_updates p);
      rt := rt p |}, w').

(** One turn of the loop over the matching trades: execute, and mark the
    message as processed on success. *)
Definition apply_to_trade (E : exchange) (now : Z) (message_hash : Z)
           (symbol_usdt : pystr) (a : action) (pw : processor * world)
           (trade : trade_dict) : processor * world :=
  let '(p, w) := pw in
  let '(w1, success) := execute_action E (rt p) now trade a w in
  if success then mark_as_processed now message_hash symbol_usdt (a_type a) (p, w1)
  else (p, w1).

(** The loop over the matching trades of one symbol. *)
Definition apply_to_trades (E : exchange) (now : Z) (message_hash : Z)
           (symbol_usdt : pystr) (a : action) (trade_list : list trade_dict)
           (pw : processor * world) : processor * world :=
  fold_left (apply_to_trade E now message_hash symbol_usdt a) trade_list pw.

(** The symbols a message addresses: its symbol lines, or else the first
    symbol the fall-back patterns find. *)
Definition symbols_of (message_text : pystr) : option (list (pystr * symbol_data)) :=
  match extract_symbol_updates message_text with
  | [] =>
      let bare := {| sd_r_value := None; sd_r_action := None; sd_content := None |} in
      match search IGNORECASE pat_dollar_symbol message_text with
      | Some m => Some [(group_str 1 m, bare)]
      | None =>
          match search IGNORECASE pat_bare_symbol message_text with
          | Some m => Some [(group_str 1 m, bare)]
          | None => None
          end
      end
  | updates => Some updates
  end.

(** One turn of the loop over the symbols of a message. *)
Definition apply_to_symbol (E : exchange) (now : Z) (message_text : pystr)
           (message_hash : Z) (generic : generic_instructions)
           (pw : processor * world) (entry : pystr * symbol_data) : processor * world :=
  let '(symbol, sd) := entry in
  let symbol_usdt := symbol ++ u "/USDT" in
  match get_matching_trades symbol_usdt (snd pw) with
  | [] => pw
  | trade_list =>
      match determine_action_enhanced message_text sd generic with
      | Some a => apply_to_trades E now message_hash symbol_usdt a trade_list pw
      | None => pw
      end
  end.

(** [process_update_message]. *)
Definition process_update_message (E : exchange) (now : Z) (message_text : pystr)
           (timestamp : Z) (message_hash : Z) (pw : processor * world)
  : processor * world :=
  match symbols_of message_text with
  | None => pw
  | Some symbol_updates =>
      let generic := extract_generic_instructions message_text in
      fold_left (apply_to_symbol E now message_text message_hash generic)
        symbol_updates pw
  end.

(** SQLite's [text LIKE '%needle%'], which ignores the case of ASCII
    letters. *)
Definition like_contains (needle text : pystr) : bool :=
  contains (upper needle) (upper text).

Definition six_hours : Z := 6 * 3600.

(** [ORDER BY timestamp DESC] *)
Definition newer_first (a b : pystr * Z) : Prop := (snd b <= snd a)%Z.

#[global] Instance newer_first_dec : RelDecision newer_first :=
  fun a b => Z_le_dec (snd b) (snd a).

(** The rows [scan_for_updates] selects, newest first. *)
Definition recent_update_messages (now : Z) (w : world) : list (pystr * Z) :=
  let wanted '(message_text, timestamp) :=
    Z.ltb (now - six_hours) timestamp
    && (like_contains (u "UPDATE") message_text
        || like_contains (u "R locked") message_text
        || like_contains (u "R done") message_text
        || like_contains (u "R reached") message_text) in
  merge_sort newer_first (List.filter wanted (all_gauls_messages w)).

(** [scan_for_updates]. *)
Definition scan_for_updates (E : exchange) (now : Z) (pw : processor * world)
  : processor * world :=
  fold_left
    (fun '(p, w) '(message_text, timestamp) =>
       let message_hash := py_hash (rt p) (message_text ++ u "_" ++ str_of_int timestamp) in
       if py_in (PyInt message_hash) (processed_updates p) then (p, w)
       else process_update_message E now message_text timestamp message_hash (p, w))
    (recent_update_messages now (snd pw)) pw.

End UpdateProcessor.

(** ** The copy trader ([GaulsCopyTrader]) *)

Module CopyTrader.
Import PyStr Truth Ledger Runtime.
Import SignalParser (signal_of, entry_type, Market, Limit).

Definition MAX_LOSS_PER_TRADE_EUR : Q := 25.
Definition GAULS_LEVERAGE : Q := 10.
Definition MARGIN_USAGE_PCT : Q := 9 # 10.

(** A parsed signal with the keys [scan_for_new_signals] adds.  The copy
    trader is modelled on signals whose numbers are finite; what it does
    with an infinite stop or a nan target is outside the model. *)
Record exec_signal := {
  parsed : signal_of Q;
  insight_id : option Z;
  timestamp : option pystr;
  take_profits : list Q
}.

(** The result of [generate_execution_plan] and the analysis it rests on. *)
Record execution_plan := {
  should_execute : bool;
  position_size_modifier : Q;
  signal_confidence : pystr;
  execution_recommendation : pystr
}.

(** The enrichment service. *)
Record llm_analyzer := {
  plan_for : exec_signal -> execution_plan;
  adjust_entry_price_with_llm : exec_signal -> Q -> option Q
}.

(** An entry of [self.positions]. *)
Record position := {
  p_entry_price : Q;
  p_quantity : Q;
  p_side : side;
  p_leverage : Q;
  p_entry_time : Z
}.

Record trader := {
  positions : gmap pystr position
}.

(** [_load_existing_positions], run when the trader starts: the open copy
    trades of the database, under the keys [f"{symbol}_{trade_id}"]. *)
Definition load_existing_positions (w : world) : trader :=
  {| positions :=
       list_to_map
         (map (fun '(trade_id, r) =>
                 (t_symbol r ++ u "_" ++ str_of_int trade_id,
                  {| p_entry_price := t_entry_price r;
                     p_quantity := t_quantity r;
                     p_side := t_side r;
                     p_leverage := q_or (t_leverage r) 10;
                     p_entry_time := t_entry_time r |}))
              (filter (fun '(_, r) =>
                         PyStr.eqb (t_strategy r) (u "gauls_copy")
                         && match t_status r with StOpen => true | _ => false end)
                      (map_to_list (trades w)))) |}.

Definition signal_hash (R : runtime) (s : exec_signal) : pystr :=
  md5_hexdigest R (SignalParser.raw_text (parsed s)).

(** [signal.get('timestamp', '')] *)
Definition timestamp_or_empty (s : exec_signal) : pystr := default [] (timestamp s).

(** [_is_signal_already_processed]:
    [WHERE signal_hash = ? OR (symbol = ? AND signal_timestamp = ?)].  On a
    table without the column [signal_timestamp], and without a table, the
    SELECT raises and the handler returns [False]. *)
Definition is_signal_already_processed (R : runtime) (s : exec_signal) (w : world) : bool :=
  match processed_gauls_signals w with
  | WithTraderColumns rows =>
      existsb
        (fun m =>
           PyStr.eqb (sm_signal_hash m) (signal_hash R s)
           || (PyStr.eqb (sm_symbol m) (SignalParser.symbol (parsed s))
               && PyStr.eqb (sm_signal_timestamp m) (timestamp_or_empty s)))
        rows
  | DeclaredTable _ | NoSignalsTable => false
  end.

Definition cooldown_seconds : Z := 5 * 60.

(** [_has_recent_trade(symbol, cooldown_minutes=5)]. *)
Definition has_recent_trade (now : Z) (symbol : pystr) (w : world) : bool :=
  existsb
    (fun '(_, r) =>
       PyStr.eqb (t_symbol r) symbol
       && PyStr.eqb (t_strategy r) (u "gauls_copy")
       && Z.ltb (now - cooldown_seconds) (t_entry_time r)
       && match t_status r with StOpen => true | _ => false end)
    (map_to_list (trades w)).

(** [_record_processed_signal]: [INSERT OR IGNORE], the hash being UNIQUE.
    On a table without the columns of the INSERT, and without a table, the
    statement raises; the handler logs the error and nothing is written. *)
Definition record_processed_signal (R : runtime) (s : exec_signal) (trade_id : option Z)
           (w : world) : world :=
  match processed_gauls_signals w with
  | WithTraderColumns rows =>
      if existsb (fun m => PyStr.eqb (sm_signal_hash m) (signal_hash R s)) rows
      then w
      else set_signals_table
             (WithTraderColumns
                (rows ++
                 [{| sm_signal_id := insight_id s;
                     sm_symbol := SignalParser.symbol (parsed s);
                     sm_signal_timestamp := timestamp_or_empty s;
                     sm_signal_hash := signal_hash R s;
                     sm_raw_text := SignalParser.raw_text (parsed s);
                     sm_trade_ids := match trade_id with
                                     | Some id => if Z.eqb id 0 then [] else str_of_int id
                                     | None => []
                                     end |}])) w
  | DeclaredTable _ | NoSignalsTable => w
  end.

(** The outcome of position sizing (lines 648-698). *)
Record sizing := {
  quantity : Q;
  actual_risk : Q;
  max_units : Q;
  position_value : Q;
  margin_required : Q;
  leverage : Q;
  scaled_down : bool           (* the "Insufficient margin! Scaling down" warning *)
}.

(** [a / b]; [None] for the [ZeroDivisionError]. *)
Definition py_div (a b : Q) : option Q :=
  if q_truthy b then Some (a / b)%Q else None.

(** Lines 648-698 of [execute_gauls_signal]: fixed-risk sizing.  [None]
    when the function returns (no stop, stop at the entry) or raises. *)
Definition position_sizing (stop_loss : option Q) (execution_price available : Q)
           (position_modifier : Q) : option sizing :=
  let MAX_LOSS_EUR := MAX_LOSS_PER_TRADE_EUR in
  if negb (opt_truthy stop_loss) then None
  else
    let sl := default 0%Q stop_loss in
    let risk_per_unit := Qabs (execution_price - sl) in
    if Qeq_bool risk_per_unit 0 then None
    else
      let max_units0 := (MAX_LOSS_EUR / risk_per_unit)%Q in
      let leverage := GAULS_LEVERAGE in
      let position_value0 := (max_units0 * execution_price)%Q in
      let margin_required := (position_value0 / leverage)%Q in
      '(position_value, max_units, actual_risk0, scaled) ←
        (if Qgtb margin_required available then
           let affordable_margin := (available * MARGIN_USAGE_PCT)%Q in
           let position_value := (affordable_margin * leverage)%Q in
           max_units ← py_div position_value execution_price;
           Some (position_value, max_units, (max_units * risk_per_unit)%Q, true)
         else Some (position_value0, max_units0, MAX_LOSS_EUR, false));
      let '(quantity, actual_risk) :=
        if negb (Qeq_bool position_modifier 1)
        then ((max_units * position_modifier)%Q, (actual_risk0 * position_modifier)%Q)
        else (max_units, actual_risk0) in
      Some {| quantity := quantity; actual_risk := actual_risk; max_units := max_units;
              position_value := position_value; margin_required := margin_required;
              leverage := leverage; scaled_down := scaled |}.

(** The next [id] of [trades] (AUTOINCREMENT; rows are never deleted). *)
Definition next_trade_id (w : world) : Z :=
  map_fold (fun k _ acc => Z.max k acc) 0 (trades w) + 1.

(** [_record_gauls_trade].  The columns the insert leaves out take the
    defaults of the schema: [original_quantity] NULL, [partial_exits_done]
    and [partial_pnl] 0. *)
Definition record_gauls_trade (R : runtime) (now : Z) (s : exec_signal) (amount : Q)
           (entry_price : Q) (plan : execution_plan) (st : status) (w : world) : world :=
  let stop_loss := SignalParser.stop_loss (parsed s) in
  let take_profit := SignalParser.take_profit (parsed s) in
  let '(tp1, tp2) :=
    match take_profits s with
    | [] => if opt_truthy take_profit then (default 0%Q take_profit, 0%Q) else (0%Q, 0%Q)
    | [a] => (a, 0%Q)
    | a :: b :: _ => (a, b)
    end in
  let trade_id := next_trade_id w in
  let sizing_note :=
    if negb (Qeq_bool (position_size_modifier plan) 1)
    then Some (position_size_modifier plan) else None in
  let w1 :=
    set_trades
      (insert trade_id
         {| t_symbol := SignalParser.symbol (parsed s);
            t_side := SignalParser.sig_side (parsed s);
            t_entry_price := entry_price;
            t_entry_time := now;
            t_quantity := amount;
            t_original_quantity := None;
            t_remaining_quantity := Some amount;
            t_stop_loss := Some (default 0%Q stop_loss);
            t_take_profit_1 := Some tp1;
            t_take_profit_2 := Some tp2;
            t_leverage := Some GAULS_LEVERAGE;
            t_partial_exits_done := Some 0;
            t_partial_pnl := Some 0%Q;
            t_status := st;
            t_strategy := u "gauls_copy";
            t_exit_price := None;
            t_exit_time := None;
            t_pnl := None;
            t_notes := Some [NoteCopyTrade (SignalParser.conviction (parsed s))
                               (signal_confidence plan) (execution_recommendation plan)
                               sizing_note] |}) w in
  record_processed_signal R s (Some trade_id) w1.

(** [f"{symbol}_{signal.get('insight_id', '')}"] *)
Definition signal_key (s : exec_signal) : pystr :=
  SignalParser.symbol (parsed s) ++ u "_"
  ++ match insight_id s with Some i => str_of_int i | None => [] end.

(** The plan of a market ("CMP") signal, which skips the analysis. *)
Definition default_plan : execution_plan :=
  {| should_execute := true; position_size_modifier := 1;
     signal_confidence := u "high"; execution_recommendation := u "proceed" |}.

(** [signal.get('entry_hint')] as a condition: set and not the empty text. *)
Definition hint_truthy (h : option (SignalParser.entry_hint_of Q)) : bool :=
  match h with
  | Some (SignalParser.HintText []) => false
  | Some _ => true
  | None => false
  end.

(** Lines 599-646: the order type and the execution price.  [None] for an
    exception (no usable entry price, division by a zero entry). *)
Definition entry_decision (L : llm_analyzer) (s : exec_signal) (current_price : Q)
  : option (order_type * Q) :=
  match SignalParser.sig_entry_type (parsed s) with
  | Market => Some (MarketOrder, current_price)
  | Limit =>
      target_entry ←
        (if hint_truthy (SignalParser.sig_entry_hint (parsed s))
         then adjust_entry_price_with_llm L s current_price
         else SignalParser.entry_price (parsed s));
      ratio ← py_div (Qabs (current_price - target_entry)) target_entry;
      let price_difference_pct := (ratio * 100)%Q in
      if Qgtb price_difference_pct 1 then
        match SignalParser.sig_side (parsed s) with
        | Buy => if Qgtb current_price target_entry
                 then Some (LimitOrder, target_entry)
                 else Some (MarketOrder, current_price)
        | Sell => if Qltb current_price target_entry
                  then Some (LimitOrder, target_entry)
                  else Some (MarketOrder, current_price)
        end
      else Some (MarketOrder, current_price)
  end.

(** [execute_gauls_signal]: the result ([None] for [return None] and for
    a caught exception) and the state left behind.  [Some o] stands for the
    dictionary the exchange answered to the order [o]; of that dictionary
    the code reads the amount, [filled_amount E o]. *)
Definition execute_gauls_signal (E : exchange) (L : llm_analyzer) (R : runtime) (now : Z)
           (s : exec_signal) (tw : trader * world) : option order * (trader * world) :=
  let '(t, w) := tw in
  let symbol := SignalParser.symbol (parsed s) in
  let side := SignalParser.sig_side (parsed s) in
  if is_signal_already_processed R s w then (None, (t, w))
  else if has_recent_trade now symbol w then (None, (t, w))
  else
    match positions t !! signal_key s with
    | Some _ => (None, (t, record_processed_signal R s None w))
    | None =>
        let plan :=
          match SignalParser.sig_entry_type (parsed s) with
          | Market => default_plan
          | Limit => plan_for L s
          end in
        if negb (should_execute plan) then (None, (t, w))
        else
          let prepared :=
            current_price ← last_price E symbol;
            '(order_type, execution_price) ← entry_decision L s current_price;
            sz ← position_sizing (SignalParser.stop_loss (parsed s)) execution_price
                   (free_usdt E) (position_size_modifier plan);
            Some (current_price, order_type, execution_price, sz) in
          match prepared with
          | None => (None, (t, w))
          | Some (current_price, order_type, execution_price, sz) =>
              let o := {| o_symbol := symbol; o_type := order_type; o_side := side;
                          o_amount := quantity sz; o_price := Some execution_price;
                          o_leverage := Some (leverage sz) |} in
              match place E o w with
              | (_, Some _) => (None, (t, w))
              | (w1, None) =>
                  let order_status :=
                    match order_type with LimitOrder => StPending | MarketOrder => StOpen end in
                  let w2 := record_gauls_trade R now s (filled_amount E o) execution_price
                              plan order_status w1 in
                  let t' := {| positions :=
                                 <[ signal_key s :=
                                   {| p_entry_price := current_price;
                                      p_quantity := quantity sz;
                                      p_side := side;
                                      p_leverage := leverage sz;
                                      p_entry_time := now |} ]> (positions t) |} in
                  (Some o, (t', w2))
              end
          end
    end.

End CopyTrader.

(** ** Notions used to state the properties *)

Module Notions.
Import PyStr Truth Ledger.
#[local] Open Scope Q_scope.

(** The two price-driven take-profit tiers of the exit monitor. *)
Inductive tier := Tier1 | Tier2.

(** The number of partial exits done when the tier is due: [OPEN_FULL] for
    the first, [OPEN_PARTIAL_1] for the second. *)
Definition tier_exits_done (t : tier) : Z :=
  match t with Tier1 => 0%Z | Tier2 => 1%Z end.

Definition tier_level (t : tier) : Z :=
  match t with Tier1 => 1%Z | Tier2 => 2%Z end.

Definition tier_target (t : tier) (r : trade) : option Q :=
  match t with Tier1 => t_take_profit_1 r | Tier2 => t_take_profit_2 r end.

Definition tier_percent (t : tier) : Q :=
  match t with
  | Tier1 => ExitMonitor.tp1_exit_percent
  | Tier2 => ExitMonitor.tp2_exit_percent
  end.

(** The stop the tier moves to: the entry, then the first target. *)
Definition tier_new_stop (t : tier) (r : trade) : option Q :=
  match t with Tier1 => Some (t_entry_price r) | Tier2 => t_take_profit_1 r end.

Definition tier_event (t : tier) (price : Q) : ExitMonitor.exit_event :=
  match t with Tier1 => ExitMonitor.TP1Hit price | Tier2 => ExitMonitor.TP2Hit price end.

(** The remaining quantity of a row as the monitor's
    [close_remaining_position] reads it. *)
Definition remaining_on_close (r : trade) : Q :=
  match t_remaining_quantity r with
  | Some q => q
  | None => t_quantity r
  end.

(** The original and remaining quantities as the partial exits read them. *)
Definition original_of (r : trade) : Q := q_or (t_original_quantity r) (t_quantity r).
Definition remaining_of (r : trade) : Q := q_or (t_remaining_quantity r) (t_quantity r).

(** The price has crossed the stop: at or below it for a long, at or above
    it for a short. *)
Definition stop_hit (s : side) (current_price stop : Q) : Prop :=
  match s with
  | Buy => current_price <= stop
  | Sell => stop <= current_price
  end.

(** The stop protects the entry: at or above it for a long, at or below it
    for a short. *)
Definition at_or_past_entry (s : side) (stop entry : Q) : Prop :=
  match s with
  | Buy => entry <= stop
  | Sell => stop <= entry
  end.

(** No stop is set, or the price has not crossed it. *)
Definition stop_not_hit (s : side) (current_price : Q) (stop : option Q) : Prop :=
  match stop with
  | Some sl => sl == 0 \/ ~ stop_hit s current_price sl
  | None => True
  end.

(** The market order that closes [amount] of a position. *)
Definition closing_order (r : trade) (amount : Q) : order :=
  {| o_symbol := t_symbol r; o_type := MarketOrder; o_side := opposite (t_side r);
     o_amount := amount; o_price := None; o_leverage := None |}.

(** The orders after one call to the exchange with [o]. *)
Definition orders_after (E : exchange) (o : order) (before : list order) : list order :=
  match rejects E o with
  | Some _ => before
  | None => before ++ [o]
  end.

(** A pristine open row, as the copy trader inserts it. *)
Definition open_trade (symbol : pystr) (s : side) (entry quantity stop tp1 tp2 : Q) : trade :=
  {| t_symbol := symbol; t_side := s; t_entry_price := entry; t_entry_time := 0%Z;
     t_quantity := quantity; t_original_quantity := None;
     t_remaining_quantity := Some quantity;
     t_stop_loss := Some stop; t_take_profit_1 := Some tp1; t_take_profit_2 := Some tp2;
     t_leverage := Some 10; t_partial_exits_done := Some 0%Z; t_partial_pnl := Some 0;
     t_status := StOpen; t_strategy := u "gauls_copy";
     t_exit_price := None; t_exit_time := None; t_pnl := None; t_notes := Some [] |}.

(** A ledger that holds only the given trades, its tables as the
    repository declares them. *)
Definition ledger_of (ts : list (Z * trade)) : world :=
  {| trades := list_to_map ts; partial_exits := []; orders := [];
     processed_gauls_signals := DeclaredTable []; processed_gauls_updates := [];
     all_gauls_messages := [] |}.

(** An exchange that quotes one price for every symbol and accepts and
    fills every order. *)
(** The open rows a message addresses: their symbol is one the message
    names, with "/USDT" appended, and they are open copy trades. *)
Definition addressed (symbols : list pystr) (r : trade) : Prop :=
  exists symbol, In symbol symbols
    /\ UpdateProcessor.is_matching (symbol ++ u "/USDT") r = true.

(** The action of the generic risk-free instruction. *)
Definition risk_free_generic : UpdateProcessor.action :=
  {| UpdateProcessor.a_type := RiskFreeGeneric; UpdateProcessor.a_partial_percent := None;
     UpdateProcessor.a_move_sl_to_breakeven := true; UpdateProcessor.a_r_value := None |}.

(** [r'] is [r] but for its notes and, possibly, its stop, which then is
    the breakeven of [r]. *)
Definition only_stop_moved (r r' : trade) : Prop :=
  t_symbol r' = t_symbol r /\ t_side r' = t_side r
  /\ t_entry_price r' = t_entry_price r
  /\ t_status r' = t_status r /\ t_strategy r' = t_strategy r
  /\ t_quantity r' = t_quantity r
  /\ t_original_quantity r' = t_original_quantity r
  /\ t_remaining_quantity r' = t_remaining_quantity r
  /\ t_partial_exits_done r' = t_partial_exits_done r
  /\ t_partial_pnl r' = t_partial_pnl r
  /\ t_pnl r' = t_pnl r
  /\ (t_stop_loss r' = t_stop_loss r
      \/ t_stop_loss r' = Some (UpdateProcessor.breakeven (t_side r) (t_entry_price r))).

(** From [w0] to [w] nothing was sold and no row changed but for stops
    moved to breakeven. *)
Definition stops_only (w0 w : world) : Prop :=
  partial_exits w = partial_exits w0
  /\ orders w = orders w0
  /\ forall id, option_Forall2 only_stop_moved (trades w0 !! id) (trades w !! id).

(** The stop of row [id] of [w] is the breakeven of its row in [w0]. *)
Definition moved_at (w0 w : world) (id : Z) : Prop :=
  exists r0 r, trades w0 !! id = Some r0 /\ trades w !! id = Some r
    /\ t_stop_loss r = Some (UpdateProcessor.breakeven (t_side r0) (t_entry_price r0)).

(** The dictionary [d] describes a row of [w0]. *)
Definition describes (w0 : world) (d : UpdateProcessor.trade_dict) : Prop :=
  exists r0, trades w0 !! UpdateProcessor.d_id d = Some r0
    /\ UpdateProcessor.d_side d = t_side r0
    /\ UpdateProcessor.d_entry_price d = t_entry_price r0.

Definition quoting (price : Q) : exchange :=
  {| last_price := fun _ => Some price; rejects := fun _ => None;
     filled_amount := o_amount; free_usdt := 5000 |}.

End Notions.

(** ** Concrete inputs used by the examples below *)

Module Scenarios.
Import PyStr Re Truth SignalParser Ledger Notions.
#[local] Open Scope Q_scope.

Definition newline : pystr := [10%N].

(** One open long: ten BTC/USDT bought at 100, stop 90, target 110. *)
Definition btc_long : world :=
  ledger_of [(1%Z, open_trade (u "BTC/USDT") Buy 100 10 90 110 0)].

(** The ledger with one message in [all_gauls_messages]. *)
Definition with_message (message_text : pystr) (timestamp : Z) (w : world) : world :=
  {| trades := trades w; partial_exits := partial_exits w; orders := orders w;
     processed_gauls_signals := processed_gauls_signals w;
     processed_gauls_updates := processed_gauls_updates w;
     all_gauls_messages := all_gauls_messages w ++ [(message_text, timestamp)] |}.

Definition closing_update : pystr := u "$BTC UPDATE: closing it here".
Definition r_locked_update : pystr := u "$BTC UPDATE: 1.2R locked".

(** Scenario D of the specification: two open longs on different symbols
    and an update with one line per symbol and the generic instruction. *)
Definition two_positions : world :=
  ledger_of [(1%Z, open_trade (u "SOL/USDT") Buy 200 5 190 220 0);
             (2%Z, open_trade (u "ETH/USDT") Buy 3000 1 2900 3300 0)].

Definition generic_update : pystr :=
  u "TRADE UPDATE:" ++ newline
  ++ [UpdateProcessor.HAND; UpdateProcessor.TONE] ++ u " $SOL "
  ++ [UpdateProcessor.EM_DASH] ++ u " 1.2R running" ++ newline
  ++ [UpdateProcessor.HAND; UpdateProcessor.TONE] ++ u " $ETH "
  ++ [UpdateProcessor.EM_DASH] ++ u " 0.8R running" ++ newline
  ++ u "Both trades risk-free, letting targets cook".

(** A runtime to run the examples on; the properties hold for every
    runtime. *)
Definition example_runtime : Runtime.runtime :=
  {| Runtime.py_hash := fun s => Z.of_nat (length s);
     Runtime.float_repr := fun _ => u "1.2";
     Runtime.md5_hexdigest := fun s => s |}.

(** Scenario A as the copy trader receives it: the parsed market signal
    with the message id and time stamp of its row. *)
Definition scenario_A_signal : CopyTrader.exec_signal :=
  {| CopyTrader.parsed :=
       {| symbol := u "BTC/USDT"; sig_side := Buy; entry_price := None;
          sig_entry_type := Market; sig_entry_hint := None;
          stop_loss := Some 111468; take_profit := Some 114786;
          risk_reward := None; conviction := u "high";
          raw_text := u "$BTC Buying Setup: Entry: CMP TP: 114786 SL: 111468";
          source := u "gauls_copy"; original_target := None |};
     CopyTrader.insight_id := Some 42%Z;
     CopyTrader.timestamp := Some (u "2025-01-01 10:00:00");
     CopyTrader.take_profits := [] |}.

(** An enrichment service that lets every signal through unchanged. *)
Definition permissive_llm : CopyTrader.llm_analyzer :=
  {| CopyTrader.plan_for := fun _ => CopyTrader.default_plan;
     CopyTrader.adjust_entry_price_with_llm := fun _ price => Some price |}.

Definition empty_ledger : world := ledger_of [].

Definition no_positions : CopyTrader.trader := {| CopyTrader.positions := ∅ |}.

(** The trader and the ledger after scenario A was executed at 112000. *)
Definition after_scenario_A : CopyTrader.trader * world :=
  snd (CopyTrader.execute_gauls_signal (quoting 112000) permissive_llm example_runtime 100
         scenario_A_signal (no_positions, empty_ledger)).

(** The message of scenario A as the scan returns it from the second
    message table: the same text and time stamp under another row id. *)
Definition scenario_A_again : CopyTrader.exec_signal :=
  {| CopyTrader.parsed := CopyTrader.parsed scenario_A_signal;
     CopyTrader.insight_id := Some 57%Z;
     CopyTrader.timestamp := CopyTrader.timestamp scenario_A_signal;
     CopyTrader.take_profits := [] |}.

(** A restart of the trader on the same databases. *)
Definition restarted (tw : CopyTrader.trader * world) : CopyTrader.trader * world :=
  (CopyTrader.load_existing_positions (snd tw), snd tw).

(** An empty ledger whose table of processed signals has the columns the
    copy trader names. *)
Definition ledger_with_trader_columns : world :=
  set_signals_table (WithTraderColumns []) empty_ledger.

(** The bare sentence of scenario D. *)
Definition bare_generic_update : pystr :=
  u "both trades risk-free, letting targets cook".

(** The text of scenario B and its "down to" variant. *)
Definition scenario_B : pystr :=
  u "$SEI Spot/Swing Buying Setup: Entry: CMP till 2780 TP: 0.43 SL: 0.26".
Definition scenario_B_down_to : pystr :=
  u "$SEI Spot/Swing Buying Setup: Entry: CMP down to 2780 TP: 0.43 SL: 0.26".

(** Two texts with a multiplier target, the market sentinel as entry, no
    entry range and a non-zero stop-loss. *)
Definition multiplier_with_rr : pystr :=
  u "$BTC Buying Setup: Entry: CMP TP: 2x SL: 100 RR: 3".
Definition multiplier_zero : pystr :=
  u "$BTC Buying Setup: Entry: CMP TP: 0x SL: 100".

(** A setup whose entry price has 309 digits, beyond the range of a float,
    with a multiplier target of 0. *)
Definition overflowing_entry : pystr :=
  u "$BTC Buying Setup: Entry: " ++ List.repeat 57%N 309 ++ u " TP: 0x SL: 100".

(** Scenario C of the specification: entry 100, stop 90, first target 110
    (40 %), ten units; polled at 111 and then at 89. *)
Definition scenario_C : world :=
  ledger_of [(1%Z, open_trade (u "BTC/USDT") Buy 100 10 90 110 0)].

(** A long position that already gave up 80 % of its ten units in one
    partial exit booked by an update ("book 80%"), its stop at breakeven. *)
Definition after_booking_80 : trade :=
  {| t_symbol := u "BTC/USDT"; t_side := Buy; t_entry_price := 100; t_entry_time := 0%Z;
     t_quantity := 10; t_original_quantity := None; t_remaining_quantity := Some 2;
     t_stop_loss := Some (1001 # 10); t_take_profit_1 := Some 110;
     t_take_profit_2 := Some 120;
     t_leverage := Some 10; t_partial_exits_done := Some 1%Z; t_partial_pnl := Some 40;
     t_status := StOpen; t_strategy := u "gauls_copy";
     t_exit_price := None; t_exit_time := None; t_pnl := None;
     t_notes := Some [NoteGauls BookPartial] |}.

(** A long position whose stop (105) lies above its first target (104). *)
Definition stop_above_target : world :=
  ledger_of [(1%Z, open_trade (u "BTC/USDT") Buy 100 10 105 104 0)].

End Scenarios.

(** ** The portfolio heat of the exit monitor *)

Module PortfolioHeat.
Import PyStr Truth Ledger.
#[local] Open Scope Q_scope.

Definition account_balance : Q := 5000.

(** The running figures of [calculate_portfolio_heat]. *)
Record heat_acc := {
  acc_total_risk : Q;
  acc_free_trades : list pystr;
  acc_risky_trades : list pystr
}.

(** The risk of one open row and the list it is filed under:
    [Some true] free, [Some false] risky, [None] not filed. *)
Definition risk_of_row (r : trade) : Q * option bool :=
  let entry := t_entry_price r in
  let leverage := q_or (t_leverage r) 1 in
  let qty := q_or (t_remaining_quantity r) 0 in
  if (opt_truthy (t_stop_loss r) && Qgtb (default 0 (t_stop_loss r)) 0 && q_truthy qty)%bool
  then
    if Qgeb (default 0 (t_stop_loss r)) entry then (0, Some true)
    else (Qabs (entry - default 0 (t_stop_loss r)) * qty * leverage, Some false)
  else if q_truthy qty then (entry * qty * leverage * (3 # 100), Some false)
  else (0, None).

Definition heat_step (acc : heat_acc) (r : trade) : heat_acc :=
  let '(risk, filed) := risk_of_row r in
  {| acc_total_risk := acc_total_risk acc + risk;
     acc_free_trades :=
       match filed with
       | Some true => acc_free_trades acc ++ [t_symbol r]
       | _ => acc_free_trades acc
       end;
     acc_risky_trades :=
       match filed with
       | Some false => acc_risky_trades acc ++ [t_symbol r]
       | _ => acc_risky_trades acc
       end |}.

Definition heat_of_rows (rows : list trade) : heat_acc :=
  fold_left heat_step rows
    {| acc_total_risk := 0; acc_free_trades := []; acc_risky_trades := [] |}.

(** The dictionary [calculate_portfolio_heat] returns. *)
Record heat := {
  total_risk : Q;
  heat_percent : Q;
  free_trades_count : nat;
  risky_trades_count : nat;
  free_trades : list pystr;
  can_open_more : bool
}.

(** The order of a scan of the table: by [id]. *)
Definition by_id (a b : Z * trade) : Prop := (fst a <= fst b)%Z.

#[global] Instance by_id_dec : RelDecision by_id :=
  fun a b => Z_le_dec (fst a) (fst b).

(** The rows [WHERE status = 'open'], in the order of their ids (the
    SELECT has no ORDER BY; only [free_trades], the first five symbols,
    depends on the order). *)
Definition open_rows (w : world) : list trade :=
  List.map snd
    (List.filter (fun '(_, r) => match t_status r with StOpen => true | _ => false end)
       (merge_sort by_id (map_to_list (trades w)))).

Definition heat_of (rows : list trade) : heat :=
  let acc := heat_of_rows rows in
  let heat_percent := acc_total_risk acc / account_balance * 100 in
  {| total_risk := acc_total_risk acc;
     heat_percent := heat_percent;
     free_trades_count := length (acc_free_trades acc);
     risky_trades_count := length (acc_risky_trades acc);
     free_trades := take 5 (acc_free_trades acc);
     can_open_more := Qltb heat_percent 2 |}.

(** [calculate_portfolio_heat]. *)
Definition calculate_portfolio_heat (w : world) : heat := heat_of (open_rows w).

End PortfolioHeat.

(** ** The exchange wrapper ([UnifiedExchange], production mode) *)

Module UnifiedExchange.
Import PyStr Truth Ledger.
#[local] Open Scope Q_scope.

(** What the ccxt client answers: an order book as its bids and asks, each
    a list of (price, amount), and the order it created; [inr] carries the
    text of the exception it raised.  The client is a function: it answers
    the same order book for a symbol throughout one call of the trading
    code. *)
Record real_order := {
  ro_id : option pystr;
  ro_price : option (option Q);       (* absent, or present and possibly None *)
  ro_timestamp : option Z
}.

Record real_exchange := {
  fetch_order_book : pystr -> (list (Q * Q) * list (Q * Q)) + pystr;
  create_real_order : pystr -> order_type -> side -> Q -> option Q -> real_order + pystr
}.

(** [_convert_to_perp_symbol]: "BTC/USDT" becomes "BTC/USDT:USDT". *)
Definition convert_to_perp_symbol (symbol : pystr) : pystr :=
  if (contains (u "/") symbol && negb (contains (u ":") symbol))%bool
  then symbol ++ u ":USDT"
  else symbol.

Record ticker := {
  tk_symbol : pystr;
  tk_last : Q;
  tk_bid : Q;
  tk_ask : Q;
  tk_high : Q;
  tk_low : Q;
  tk_volume : Q
}.

Definition best (side_of_book : list (Q * Q)) : Q :=
  match side_of_book with
  | (price, _) :: _ => price
  | [] => 0
  end.

(** [fetch_ticker]: the mid price of the order book; [inr] when it raises. *)
Definition fetch_ticker (X : real_exchange) (symbol : pystr) : ticker + pystr :=
  match fetch_order_book X (convert_to_perp_symbol symbol) with
  | inr e => inr (u "WooX ticker fetch failed for " ++ symbol ++ u ": " ++ e)
  | inl (bids, asks) =>
      let mid_price :=
        match bids, asks with
        | _ :: _, _ :: _ => (best bids + best asks) / 2
        | _, _ => 0
        end in
      inl {| tk_symbol := symbol; tk_last := mid_price;
             tk_bid := best bids; tk_ask := best asks;
             tk_high := mid_price * (105 # 100); tk_low := mid_price * (95 # 100);
             tk_volume := 0 |}
  end.

Inductive order_status := Filled | Failed.   (* 'closed' and 'failed' *)

(** The dictionary [create_order] returns. *)
Record order_dict := {
  od_id : option pystr;
  od_symbol : pystr;
  od_type : order_type;
  od_side : side;
  od_amount : Q;
  od_price : option Q;
  od_filled : Q;
  od_remaining : Q;
  od_status : order_status;
  od_timestamp : option Z;
  od_error : option pystr
}.

Definition safety_limit : Q := 1000.

Definition failed_order (symbol : pystr) (ot : order_type) (s : side) (amount : Q)
           (e : pystr) : order_dict :=
  {| od_id := None; od_symbol := symbol; od_type := ot; od_side := s;
     od_amount := amount; od_price := Some 0; od_filled := 0; od_remaining := amount;
     od_status := Failed; od_timestamp := None; od_error := Some e |}.

(** [create_order]: every exception is caught and answered with a 'failed'
    dictionary.  MAX_POSITION_SIZE is read but not used.  Setting the
    leverage on the account has no part in the answer: when it fails, that is
    only logged. *)
Definition create_order (X : real_exchange) (symbol : pystr) (ot : order_type)
           (s : side) (amount : Q) (price : option Q) (leverage : option Q)
  : order_dict :=
  match fetch_ticker X symbol with
  | inr e => failed_order symbol ot s amount e
  | inl tk =>
      let position_value := amount * tk_last tk in
      let amount := if Qgtb position_value safety_limit
                    then safety_limit / tk_last tk else amount in
      let perp_symbol := convert_to_perp_symbol symbol in
      match create_real_order X perp_symbol ot s amount
              match ot with MarketOrder => None | LimitOrder => price end with
      | inr e => failed_order symbol ot s amount e
      | inl order =>
          {| od_id := ro_id order; od_symbol := symbol; od_type := ot;
             od_side := s; od_amount := amount;
             od_price := default (Some (tk_last tk)) (ro_price order);
             od_filled := amount; od_remaining := 0; od_status := Filled;
             od_timestamp := ro_timestamp order; od_error := None |}
      end
  end.

(** [create_market_order], the wrapper the exit monitor calls. *)
Definition create_market_order (X : real_exchange) (symbol : pystr) (s : side)
           (amount : Q) : order_dict :=
  create_order X symbol MarketOrder s amount None None.

(** The wrapper as the trading code sees it: the ticker may raise, an order
    call never does, and the amount of its answer is what gets recorded. *)
Definition as_exchange (X : real_exchange) (free : Q) : exchange :=
  {| last_price := fun symbol =>
       match fetch_ticker X symbol with
       | inl tk => Some (tk_last tk)
       | inr _ => None
       end;
     rejects := fun _ => None;
     filled_amount := fun o =>
       od_amount (create_order X (o_symbol o) (o_type o) (o_side o) (o_amount o)
                    (o_price o) (o_leverage o));
     free_usdt := free |}.

End UnifiedExchange.

(** ** Further notions for the properties *)

Module Bookkeeping.
Import PyStr Truth Ledger.
#[local] Open Scope Q_scope.

(** The P&L booked for a trade in [partial_exits]: the sum over its rows. *)
Fixpoint booked_pnl (rows : list partial_exit) (id : Z) : Q :=
  match rows with
  | [] => 0
  | pe :: rows' =>
      (if Z.eqb (pe_trade_id pe) id then pe_pnl pe else 0) + booked_pnl rows' id
  end.

(** The quantity sold for a trade according to [partial_exits]. *)
Fixpoint booked_quantity (rows : list partial_exit) (id : Z) : Q :=
  match rows with
  | [] => 0
  | pe :: rows' =>
      (if Z.eqb (pe_trade_id pe) id then pe_quantity_exited pe else 0)
      + booked_quantity rows' id
  end.

(** The price has reached a take-profit target: at or above it for a
    long, at or below it for a short. *)
Definition target_reached (s : side) (current_price target : Q) : Prop :=
  match s with
  | Buy => target <= current_price
  | Sell => current_price <= target
  end.

(** The code's test for a free trade: a positive stop at or above the
    entry, whatever the side. *)
Definition stop_at_or_above_entry (r : trade) : Prop :=
  exists sl, t_stop_loss r = Some sl /\ 0 < sl /\ t_entry_price r <= sl.

(** A ledger with one open short whose protective stop (110) lies above
    its entry (100). *)
Definition short_with_stop_above : world :=
  {| trades := {[ 1%Z :=
       {| t_symbol := u "BTC/USDT"; t_side := Sell; t_entry_price := 100;
          t_entry_time := 0%Z; t_quantity := 10; t_original_quantity := None;
          t_remaining_quantity := Some 10; t_stop_loss := Some 110;
          t_take_profit_1 := Some 90; t_take_profit_2 := Some 0;
          t_leverage := Some 10; t_partial_exits_done := Some 0%Z;
          t_partial_pnl := Some 0; t_status := StOpen; t_strategy := u "gauls_copy";
          t_exit_price := None; t_exit_time := None; t_pnl := None;
          t_notes := Some [] |} ]};
     partial_exits := []; orders := [];
     processed_gauls_signals := DeclaredTable []; processed_gauls_updates := [];
     all_gauls_messages := [] |}.

(** What an action of [determine_action] looks like, by its type. *)
Definition action_shape (a : UpdateProcessor.action) : Prop :=
  let percent := UpdateProcessor.a_partial_percent a in
  let to_breakeven := UpdateProcessor.a_move_sl_to_breakeven a in
  match UpdateProcessor.a_type a with
  | RPartial r =>
      UpdateProcessor.a_r_value a = Some r
      /\ ((1 <= r /\ r < 2 /\ percent = Some 40%Z /\ to_breakeven = true)
          \/ (2 <= r /\ percent = Some 30%Z /\ to_breakeven = false))
  | BookPartial => (exists p, percent = Some p /\ (0 < p)%Z) /\ to_breakeven = false
  | MakeRiskFree => (percent = None \/ percent = Some 0%Z) /\ to_breakeven = true
  | FullExit => percent = Some 100%Z /\ to_breakeven = false
  | RiskFreeGeneric => False
  end.

(** Another signal for the symbol of scenario A, with a text and a time
    stamp of its own. *)
Definition second_btc_signal : CopyTrader.exec_signal :=
  {| CopyTrader.parsed :=
       {| SignalParser.symbol := u "BTC/USDT"; SignalParser.sig_side := Buy;
          SignalParser.entry_price := None;
          SignalParser.sig_entry_type := SignalParser.Market;
          SignalParser.sig_entry_hint := None;
          SignalParser.stop_loss := Some 110000;
          SignalParser.take_profit := Some 118000;
          SignalParser.risk_reward := None; SignalParser.conviction := u "high";
          SignalParser.raw_text := u "$BTC Buying Setup: Entry: CMP TP: 118000 SL: 110000";
          SignalParser.source := u "gauls_copy"; SignalParser.original_target := None |};
     CopyTrader.insight_id := Some 43%Z;
     CopyTrader.timestamp := Some (u "2025-01-01 10:02:00");
     CopyTrader.take_profits := [] |}.

(** The ledger of [btc_long] with one update message received at time 1000. *)
Definition btc_long_with_update : world :=
  Scenarios.with_message Scenarios.r_locked_update 1000 Scenarios.btc_long.

(** An exchange without prices: [fetch_ticker] raises. *)
Definition silent : exchange :=
  {| last_price := fun _ => None; rejects := fun _ => None;
     filled_amount := o_amount; free_usdt := 5000 |}.

(** A ccxt client with one order book for every symbol that accepts every
    order. *)
Definition book_of (bid ask : Q) : UnifiedExchange.real_exchange :=
  {| UnifiedExchange.fetch_order_book := fun _ => inl ([(bid, 1)], [(ask, 1)]);
     UnifiedExchange.create_real_order := fun _ _ _ _ _ =>
       inl {| UnifiedExchange.ro_id := Some (u "1"); UnifiedExchange.ro_price := None;
              UnifiedExchange.ro_timestamp := None |} |}.

(** A client whose order book has no asks. *)
Definition book_without_asks (bid : Q) : UnifiedExchange.real_exchange :=
  {| UnifiedExchange.fetch_order_book := fun _ => inl ([(bid, 1)], []);
     UnifiedExchange.create_real_order := fun _ _ _ _ _ =>
       inl {| UnifiedExchange.ro_id := Some (u "1"); UnifiedExchange.ro_price := None;
              UnifiedExchange.ro_timestamp := None |} |}.

(** A client with the order book of [book_of] whose exchange refuses every
    order. *)
Definition failing_book_of (bid ask : Q) : UnifiedExchange.real_exchange :=
  {| UnifiedExchange.fetch_order_book := fun _ => inl ([(bid, 1)], [(ask, 1)]);
     UnifiedExchange.create_real_order := fun _ _ _ _ _ => inr (u "insufficient margin") |}.

(** A client whose order book cannot be fetched. *)
Definition book_unavailable : UnifiedExchange.real_exchange :=
  {| UnifiedExchange.fetch_order_book := fun _ => inr (u "timeout");
     UnifiedExchange.create_real_order := fun _ _ _ _ _ =>
       inl {| UnifiedExchange.ro_id := Some (u "1"); UnifiedExchange.ro_price := None;
              UnifiedExchange.ro_timestamp := None |} |}.

(** A long with one partial exit done whose first target is NULL: entry
    100, stop 90, second target 120, all ten units remaining. *)
Definition second_tier_without_first_target : trade :=
  {| t_symbol := u "BTC/USDT"; t_side := Buy; t_entry_price := 100; t_entry_time := 0%Z;
     t_quantity := 10; t_original_quantity := None; t_remaining_quantity := Some 10;
     t_stop_loss := Some 90; t_take_profit_1 := None; t_take_profit_2 := Some 120;
     t_leverage := Some 10; t_partial_exits_done := Some 1%Z; t_partial_pnl := Some 0;
     t_status := StOpen; t_strategy := u "gauls_copy";
     t_exit_price := None; t_exit_time := None; t_pnl := None; t_notes := Some [] |}.

End Bookkeeping.

(* ===================================================================== *)
(** * Part II: properties *)
(* ===================================================================== *)

(** ** Truthiness and comparisons *)

Module TruthFacts.
Import Truth.
#[local] Open Scope Q_scope.

Lemma q_truthy_false (q : Q) : q == 0 -> q_truthy q = false.
Proof.
  unfold q_truthy, Qeq. simpl. intros H.
  replace (Qnum q) with 0%Z by lia. reflexivity.
Qed.

Lemma q_truthy_true (q : Q) : ~ q == 0 -> q_truthy q = true.
Proof.
  unfold q_truthy, Qeq. simpl. intros H.
  destruct (Z.eqb_spec (Qnum q) 0) as [E | E]; [| reflexivity].
  exfalso. apply H. lia.
Qed.

Lemma q_truthy_spec (q : Q) : q_truthy q = true <-> ~ q == 0.
Proof.
  split; [| apply q_truthy_true].
  intros T E. rewrite (q_truthy_false q E) in T. discriminate.
Qed.

Lemma Qleb_le (a b : Q) : Qleb a b = true <-> a <= b.
Proof. apply Qle_bool_iff. Qed.

Lemma Qgeb_ge (a b : Q) : Qgeb a b = true <-> b <= a.
Proof. apply Qle_bool_iff. Qed.

Lemma Qltb_lt (a b : Q) : Qltb a b = true <-> a < b.
Proof.
  unfold Qltb. rewrite negb_true_iff.
  split; intros H.
  - apply Qnot_le_lt. intros L. apply Qle_bool_iff in L. congruence.
  - destruct (Qle_bool b a) eqn:E; [| reflexivity].
    apply Qle_bool_iff in E. exfalso. exact (Qlt_not_le _ _ H E).
Qed.

Lemma Qgtb_gt (a b : Q) : Qgtb a b = true <-> b < a.
Proof. apply (Qltb_lt b a). Qed.

Lemma Qleb_false (a b : Q) : Qleb a b = false <-> b < a.
Proof.
  rewrite <- (Qltb_lt b a). unfold Qltb, Qleb.
  destruct (Qle_bool a b); simpl; split; congruence.
Qed.

Lemma Qgtb_false (a b : Q) : Qgtb a b = false <-> a <= b.
Proof.
  rewrite <- Qleb_le. unfold Qgtb, Qleb.
  destruct (Qle_bool a b); simpl; split; congruence.
Qed.

End TruthFacts.

(** ** The signal parser *)

Module SignalParserSpec.
Import PyStr Re Truth TruthFacts PyFloat SignalParser Scenarios.
#[local] Open Scope Q_scope.
#[local] Arguments Some {A} & a.

Lemma float_truthy_nonzero (a : pyfloat) : nonzero a -> float_truthy a = true.
Proof. destruct a as [q | | |]; simpl; [apply q_truthy_true | reflexivity ..]. Qed.

Lemma symbol_never_empty (sym : pystr) :
  negb (PyStr.eqb (sym ++ u "/USDT") []) = true.
Proof. destruct sym; reflexivity. Qed.

(** Scenario A of the specification. *)
Example scenario_A_parses :
  exists sg, parse_signal (u "$BTC Buying Setup: Entry: CMP TP: 114786 SL: 111468") = Some sg
    /\ symbol sg = u "BTC/USDT" /\ sig_side sg = Buy /\ sig_entry_type sg = Market
    /\ take_profit sg = Some (inject_Z 114786) /\ stop_loss sg = Some (inject_Z 111468).
Proof. eexists. split; [vm_compute; reflexivity |]. repeat split. Qed.

(** C8, as stated, fails: the text "... Entry: CMP till 2780 ..." does not
    give a limit entry at 2780 x 1.0063. *)
Lemma C8_till_is_not_a_limit_entry :
  ~ (exists sg (p : Q), parse_signal scenario_B = Some sg
       /\ sig_entry_type sg = Limit
       /\ entry_price sg = Some p /\ p == 2780 * (10063 # 10000)).
Proof.
  intros (sg & p & Hparse & Htype & _).
  vm_compute in Hparse. injection Hparse as <-. discriminate Htype.
Qed.

(** C8 (amended): the text of scenario B parses to a signal for SEI/USDT
    with take-profit 0.43 and stop-loss 0.26 and an immediate market
    entry without entry price, "till 2780" being ignored; the buffered
    limit entry 2780 x 1.0063 is what the same text with "down to 2780"
    gives. *)
Theorem C8_scenario_B_is_a_market_entry :
  (exists sg (tp sl : Q), parse_signal scenario_B = Some sg
     /\ symbol sg = u "SEI/USDT"
     /\ take_profit sg = Some tp /\ tp == 43 # 100
     /\ stop_loss sg = Some sl /\ sl == 26 # 100
     /\ sig_entry_type sg = Market
     /\ entry_price sg = None /\ original_target sg = None)
  /\
  (exists sg (tp sl p : Q), parse_signal scenario_B_down_to = Some sg
     /\ symbol sg = u "SEI/USDT"
     /\ take_profit sg = Some tp /\ tp == 43 # 100
     /\ stop_loss sg = Some sl /\ sl == 26 # 100
     /\ sig_entry_type sg = Limit
     /\ entry_price sg = Some p /\ p == 2780 * (10063 # 10000)
     /\ original_target sg = Some (inject_Z 2780)).
Proof.
  split.
  - do 3 eexists. split; [vm_compute; reflexivity |]. simpl.
    repeat split; reflexivity.
  - do 4 eexists. split; [vm_compute; reflexivity |]. simpl.
    repeat split; reflexivity.
Qed.


(** C10, as stated, fails twice: an "RR:" label replaces the multiplier as
    risk/reward, and a multiplier of 0 is rejected although the stop-loss is
    not zero. *)
Lemma C10_rr_label_and_zero_multiplier :
  (exists sg, parse_signal multiplier_with_rr = Some sg
     /\ take_profit sg = Some (inject_Z 2)
     /\ stop_loss sg = Some (inject_Z 100)
     /\ risk_reward sg = Some (inject_Z 3)
     /\ ~ inject_Z 3 == inject_Z 2)
  /\ parse_stop_loss multiplier_zero = Some (Some (inject_Z 100))
  /\ parse_signal multiplier_zero = None.
Proof.
  split; [| split; vm_compute; reflexivity].
  eexists. split; [vm_compute; reflexivity |]. simpl.
  repeat split. discriminate.
Qed.

(** C10 (amended): with an 'x' suffix on the take-profit token, no usable
    entry price (the market sentinel) and no "Entry: low-high" range, the
    bare multiplier is stored as take-profit; the risk/reward is the
    multiplier unless an "RR:" label replaces it; and the signal is accepted
    when the stop-loss and the multiplier are both non-zero (an infinity,
    for a literal beyond the range of a float, included). *)
Theorem C10_bare_multiplier_is_the_take_profit
        (text : pystr) (symbol_match tp_match : rematch)
        (hint : option entry_hint) (target : option pyfloat) (value sl : pyfloat)
        (rr : option pyfloat) :
  matches IGNORECASE pat_buying_setup text = true ->
  search IGNORECASE pat_symbol text = Some symbol_match ->
  parse_entry text = Some (None, Market, hint, target) ->
  search IGNORECASE pat_take_profit text = Some tp_match ->
  float_of (group_str 1 tp_match) = Some value ->
  group_str 2 tp_match = u "x" ->
  search NOFLAGS pat_entry_range text = None ->
  parse_risk_reward text (Some value) = Some rr ->
  parse_stop_loss text = Some (Some sl) ->
  nonzero sl ->
  nonzero value ->
  exists sg, parse_signal text = Some sg
    /\ take_profit sg = Some value
    /\ stop_loss sg = Some sl
    /\ entry_price sg = None
    /\ sig_entry_type sg = Market
    /\ risk_reward sg = rr
    /\ (search IGNORECASE pat_risk_reward text = None -> risk_reward sg = Some value).
Proof.
  intros Hsetup Hsym Hentry Htp Hval Hx Hrange Hrr Hsl Hsl0 Hv0.
  unfold parse_signal. rewrite Hsetup, Hsym. simpl.
  rewrite Hentry. simpl. rewrite Hsl. simpl.
  unfold parse_take_profit. rewrite Htp, Hval. simpl. rewrite Hx. simpl.
  unfold multiplier_without_entry. rewrite Hrange. simpl.
  rewrite Hrr. simpl.
  rewrite symbol_never_empty, (float_truthy_nonzero sl Hsl0),
    (float_truthy_nonzero value Hv0). simpl.
  eexists. split; [reflexivity |]. simpl. repeat split.
  intros Hno. unfold parse_risk_reward in Hrr. rewrite Hno in Hrr. congruence.
Qed.

Lemma C10_witness :
  exists sg, parse_signal (u "$BTC Buying Setup: Entry: CMP TP: 2x SL: 100") = Some sg
    /\ take_profit sg = Some (inject_Z 2)
    /\ stop_loss sg = Some (inject_Z 100)
    /\ entry_price sg = None
    /\ sig_entry_type sg = Market
    /\ risk_reward sg = Some (inject_Z 2)
    /\ (search IGNORECASE pat_risk_reward
          (u "$BTC Buying Setup: Entry: CMP TP: 2x SL: 100") = None ->
        risk_reward sg = Some (inject_Z 2)).
Proof.
  pose (text := u "$BTC Buying Setup: Entry: CMP TP: 2x SL: 100").
  destruct (search IGNORECASE pat_symbol text) as [sm |] eqn:Hsm;
    [| vm_compute in Hsm; discriminate].
  destruct (search IGNORECASE pat_take_profit text) as [tm |] eqn:Htm;
    [| vm_compute in Htm; discriminate].
  apply (C10_bare_multiplier_is_the_take_profit text sm tm None None
           (inject_Z 2) (inject_Z 100) (Some (inject_Z 2))).
  - vm_compute; reflexivity.
  - exact Hsm.
  - vm_compute; reflexivity.
  - exact Htm.
  - vm_compute in Htm. injection Htm as <-. vm_compute; reflexivity.
  - vm_compute in Htm. injection Htm as <-. vm_compute; reflexivity.
  - vm_compute; reflexivity.
  - vm_compute; reflexivity.
  - vm_compute; reflexivity.
  - discriminate.
  - discriminate.
Defined.

End SignalParserSpec.

(** ** The exit monitor *)

Module ExitMonitorSpec.
Import PyStr Truth TruthFacts Ledger ExitMonitor Notions Scenarios.
#[local] Open Scope Q_scope.

Lemma and_then_true (x : option Q) (test : Q -> bool) (q : Q) :
  x = Some q -> ~ q == 0 -> test q = true -> and_then x test = true.
Proof.
  intros -> Hq Ht. unfold and_then. rewrite (q_truthy_true q Hq), Ht. reflexivity.
Qed.

Lemma and_then_false (x : option Q) (test : Q -> bool) :
  match x with Some q => q == 0 \/ test q = false | None => True end ->
  and_then x test = false.
Proof.
  destruct x as [q |]; [| reflexivity]. unfold and_then.
  intros [Hq | Ht].
  - rewrite (q_truthy_false q Hq). reflexivity.
  - rewrite Ht. apply andb_false_r.
Qed.

(** What [close_remaining_position] leaves behind. *)
Lemma close_remaining_position_closes (E : exchange) (now id : Z) (price : Q)
      (reason : close_reason) (w : world) (r : trade) :
  trades w !! id = Some r ->
  exists r',
    trades (close_remaining_position E now id price reason w) = <[id := r']> (trades w)
    /\ t_status r' = StClosed
    /\ t_remaining_quantity r' = Some 0
    /\ t_exit_price r' = Some price
    /\ t_pnl r' = Some (q_or (t_partial_pnl r) 0
                        + pnl_per_unit (t_side r) (t_entry_price r) price
                          * remaining_on_close r)
    /\ t_notes r' = Some [NoteClose reason
                            (option_map (prefix 100)
                               (rejects E (closing_order r (remaining_on_close r))))]
    /\ t_partial_exits_done r' = t_partial_exits_done r
    /\ t_stop_loss r' = t_stop_loss r
    /\ partial_exits (close_remaining_position E now id price reason w) = partial_exits w
    /\ orders (close_remaining_position E now id price reason w)
       = orders_after E (closing_order r (remaining_on_close r)) (orders w).
Proof.
  intros Hr. unfold close_remaining_position. rewrite Hr.
  unfold place, orders_after, closing_order, remaining_on_close.
  destruct (rejects E _) as [err |]; simpl;
    eexists; repeat split; reflexivity.
Qed.

(** The stop-loss branch of [check_exit_conditions], on either side. *)
Lemma stop_branch (E : exchange) (now id : Z) (w : world) (r : trade) (price sl : Q) :
  t_stop_loss r = Some sl ->
  ~ sl == 0 ->
  stop_hit (t_side r) price sl ->
  check_exit_conditions E now (dict_of_row id r) price w
  = if match t_side r with
       | Buy => Qgeb sl (t_entry_price r)
       | Sell => Qleb sl (t_entry_price r)
       end
    then (Some (FreeTradeClosed price),
          close_remaining_position E now id price BreakevenStop w)
    else (Some (StopLoss price),
          close_remaining_position E now id price StopLossHit w).
Proof.
  intros Hsl Hnz Hhit. unfold check_exit_conditions. simpl.
  rewrite Hsl. unfold and_then. rewrite (q_truthy_true sl Hnz). simpl.
  destruct (t_side r); simpl in Hhit.
  - apply Qleb_le in Hhit. rewrite Hhit. reflexivity.
  - apply Qgeb_ge in Hhit. rewrite Hhit. reflexivity.
Qed.

(** C2: on a poll of an open position whose stop is set and crossed by the
    price, the position is closed in full at that price, whatever the
    take-profit levels are: the reason is the breakeven stop exactly when the
    stop is at or past the entry, the stop loss otherwise; the order is for
    the whole remaining quantity, the realised P&L is the partial P&L plus
    that of the remaining slice, and no partial exit is recorded. *)
Theorem C2_stop_loss_is_checked_before_take_profit
        (E : exchange) (now id : Z) (w : world) (r : trade) (price sl : Q) :
  trades w !! id = Some r ->
  t_status r = StOpen ->
  last_price E (t_symbol r) = Some price ->
  t_stop_loss r = Some sl ->
  ~ sl == 0 ->
  stop_hit (t_side r) price sl ->
  exists (reason : close_reason) (w' : world) (r' : trade),
    poll_trade E now id w
    = (Some match reason with
            | BreakevenStop => FreeTradeClosed price
            | StopLossHit => StopLoss price
            end, w')
    /\ (reason = BreakevenStop <-> at_or_past_entry (t_side r) sl (t_entry_price r))
    /\ (reason = StopLossHit <-> ~ at_or_past_entry (t_side r) sl (t_entry_price r))
    /\ trades w' = <[id := r']> (trades w)
    /\ t_status r' = StClosed
    /\ t_remaining_quantity r' = Some 0
    /\ t_exit_price r' = Some price
    /\ t_pnl r' = Some (q_or (t_partial_pnl r) 0
                        + pnl_per_unit (t_side r) (t_entry_price r) price
                          * remaining_on_close r)
    /\ t_notes r' = Some [NoteClose reason
                            (option_map (prefix 100)
                               (rejects E (closing_order r (remaining_on_close r))))]
    /\ t_partial_exits_done r' = t_partial_exits_done r
    /\ partial_exits w' = partial_exits w
    /\ orders w' = orders_after E (closing_order r (remaining_on_close r)) (orders w).
Proof.
  intros Hr Hopen Hprice Hsl Hnz Hhit.
  unfold poll_trade. rewrite Hr, Hopen, Hprice.
  rewrite (stop_branch E now id w r price sl Hsl Hnz Hhit).
  set (free := match t_side r with
               | Buy => Qgeb sl (t_entry_price r)
               | Sell => Qleb sl (t_entry_price r)
               end).
  assert (Hfree : free = true <-> at_or_past_entry (t_side r) sl (t_entry_price r)).
  { unfold free, at_or_past_entry. destruct (t_side r).
    - apply Qgeb_ge.
    - apply Qleb_le. }
  destruct free.
  - destruct (close_remaining_position_closes E now id price BreakevenStop w r Hr)
      as (r' & Ht & Hrest).
    exists BreakevenStop, (close_remaining_position E now id price BreakevenStop w), r'.
    split; [reflexivity |].
    split; [split; [intros _; apply Hfree; reflexivity | reflexivity] |].
    split; [split; [discriminate | intros Hn; exfalso; apply Hn, Hfree; reflexivity] |].
    destruct Hrest as (? & ? & ? & ? & ? & ? & ? & ? & ?).
    repeat split; assumption.
  - destruct (close_remaining_position_closes E now id price StopLossHit w r Hr)
      as (r' & Ht & Hrest).
    exists StopLossHit, (close_remaining_position E now id price StopLossHit w), r'.
    split; [reflexivity |].
    split; [split; [discriminate | intros Hn; apply Hfree in Hn; discriminate] |].
    split; [split; [intros _ Hn; apply Hfree in Hn; discriminate | reflexivity] |].
    destruct Hrest as (? & ? & ? & ? & ? & ? & ? & ? & ?).
    repeat split; assumption.
Qed.

Lemma C2_witness :
  (stop_hit Buy (209 # 2) 105 /\ 104 <= 209 # 2)
  /\ exists w' r',
      poll_trade (quoting (209 # 2)) 0 1 stop_above_target
      = (Some (FreeTradeClosed (209 # 2)), w')
      /\ trades w' !! 1%Z = Some r'
      /\ t_status r' = StClosed
      /\ t_remaining_quantity r' = Some 0
      /\ partial_exits w' = [].
Proof.
  assert (Hhit : stop_hit Buy (209 # 2) 105) by (simpl; lra).
  split; [split; [exact Hhit | lra] |].
  destruct (C2_stop_loss_is_checked_before_take_profit
              (quoting (209 # 2)) 0%Z 1%Z stop_above_target
              (open_trade (u "BTC/USDT") Buy 100 10 105 104 0) (209 # 2) 105)
    as (reason & w' & r' & Hpoll & Hbe & _ & Ht & Hst & Hrem & _ & _ & _ & _ & Hpe & _).
  - vm_compute; reflexivity.
  - reflexivity.
  - reflexivity.
  - reflexivity.
  - intros H; vm_compute in H; discriminate.
  - exact Hhit.
  - assert (Hreason : reason = BreakevenStop) by (apply Hbe; simpl; lra).
    rewrite Hreason in Hpoll.
    exists w', r'. split; [exact Hpoll |].
    split; [rewrite Ht; apply lookup_insert_eq |].
    split; [exact Hst |]. split; [exact Hrem |].
    rewrite Hpe. reflexivity.
Defined.

(** What a partial exit that leaves more than the negligible remainder
    does. *)
Lemma execute_partial_exit_partial (E : exchange) (now id : Z) (w : world) (r : trade)
      (price pct : Q) (level n : Z) (nsl : Q) :
  trades w !! id = Some r ->
  t_partial_exits_done r = Some n ->
  epsilon < remaining_of r - py_min (original_of r * pct) (remaining_of r) ->
  let exit_quantity := py_min (original_of r * pct) (remaining_of r) in
  let pnl := pnl_per_unit (t_side r) (t_entry_price r) price * exit_quantity in
  let w' := execute_partial_exit E now id price pct level (Some nsl) w in
  exists r',
    trades w' = <[id := r']> (trades w)
    /\ t_stop_loss r' = Some nsl
    /\ t_remaining_quantity r' = Some (remaining_of r - exit_quantity)
    /\ t_partial_exits_done r' = Some (n + 1)%Z
    /\ t_partial_pnl r' = sql_add (t_partial_pnl r) pnl
    /\ t_status r' = t_status r
    /\ partial_exits w'
       = partial_exits w
         ++ [{| pe_trade_id := id; pe_exit_price := price;
                pe_quantity_exited := exit_quantity; pe_pnl := pnl;
                pe_tp_level := level; pe_new_stop_loss := Some nsl;
                pe_notes := NotePartialExit level pct
                              (option_map (prefix 50)
                                 (rejects E (closing_order r exit_quantity))) |}]
    /\ orders w' = orders_after E (closing_order r exit_quantity) (orders w).
Proof.
  intros Hr Hn Hrem. unfold execute_partial_exit. rewrite Hr.
  fold (original_of r). fold (remaining_of r).
  unfold place, orders_after, closing_order. rewrite Hn.
  apply Qleb_false in Hrem. rewrite Hrem.
  destruct (rejects E _) as [err |]; simpl;
    eexists; repeat split; reflexivity.
Qed.

(** What a partial exit that exhausts the position does. *)
Lemma execute_partial_exit_final (E : exchange) (now id : Z) (w : world) (r : trade)
      (price pct : Q) (level n : Z) (nsl : option Q) :
  trades w !! id = Some r ->
  t_partial_exits_done r = Some n ->
  remaining_of r - py_min (original_of r * pct) (remaining_of r) <= epsilon ->
  let exit_quantity := py_min (original_of r * pct) (remaining_of r) in
  let pnl := pnl_per_unit (t_side r) (t_entry_price r) price * exit_quantity in
  let w' := execute_partial_exit E now id price pct level nsl w in
  exists r',
    trades w' = <[id := r']> (trades w)
    /\ t_status r' = StClosed
    /\ t_remaining_quantity r' = Some 0
    /\ t_exit_price r' = Some price
    /\ t_pnl r' = sql_add (t_partial_pnl r) pnl
    /\ t_stop_loss r' = t_stop_loss r
    /\ t_partial_exits_done r' = Some (n + 1)%Z
    /\ t_notes r' = Some [NoteClosedViaPartials]
    /\ partial_exits w'
       = partial_exits w
         ++ [{| pe_trade_id := id; pe_exit_price := price;
                pe_quantity_exited := exit_quantity; pe_pnl := pnl;
                pe_tp_level := level; pe_new_stop_loss := nsl;
                pe_notes := NotePartialExit level pct
                              (option_map (prefix 50)
                                 (rejects E (closing_order r exit_quantity))) |}]
    /\ orders w' = orders_after E (closing_order r exit_quantity) (orders w).
Proof.
  intros Hr Hn Hrem. unfold execute_partial_exit. rewrite Hr.
  fold (original_of r). fold (remaining_of r).
  unfold place, orders_after, closing_order. rewrite Hn.
  apply Qleb_le in Hrem. rewrite Hrem.
  destruct (rejects E _) as [err |]; simpl;
    eexists; repeat split; reflexivity.
Qed.

(** The take-profit branches of [check_exit_conditions] for a long whose
    stop is not crossed. *)
Lemma take_profit_branch (E : exchange) (now id : Z) (w : world) (r : trade)
      (t : tier) (price target : Q) :
  t_side r = Buy ->
  stop_not_hit Buy price (t_stop_loss r) ->
  t_partial_exits_done r = Some (tier_exits_done t) ->
  tier_target t r = Some target ->
  ~ target == 0 ->
  target <= price ->
  check_exit_conditions E now (dict_of_row id r) price w
  = (Some (tier_event t price),
     execute_partial_exit E now id price (tier_percent t) (tier_level t)
       (tier_new_stop t r) w).
Proof.
  intros Hside Hstop Hn Htarget Hnz Hcross.
  unfold check_exit_conditions. simpl. rewrite Hside, Hn.
  rewrite (and_then_false (t_stop_loss r) (fun sl => Qleb price sl)).
  2:{ unfold stop_not_hit in Hstop. destruct (t_stop_loss r) as [sl |]; [| exact I].
      destruct Hstop as [Hz | Hnot]; [left; exact Hz | right].
      simpl in Hnot. apply Qleb_false. apply Qnot_le_lt. exact Hnot. }
  apply Qgeb_ge in Hcross.
  assert (Htp : and_then (tier_target t r) (fun tp => Qgeb price tp) = true)
    by (apply (and_then_true _ _ target); assumption).
  destruct t; simpl in *; rewrite Htp; reflexivity.
Qed.

Lemma py_min_left (a b : Q) : a <= b -> py_min a b = a.
Proof.
  intros H. unfold py_min.
  destruct (Qltb b a) eqn:E; [| reflexivity].
  apply Qltb_lt in E. exfalso. exact (Qlt_not_le _ _ E H).
Qed.

(** C1, as stated, fails in two ways.  A position with one partial exit done
    and a second target set, polled above that target, need not exit 30 % of
    the original quantity nor get its stop moved to the first target: with
    only 2 of 10 units left the monitor sells the 2 units and closes the
    position, the stop staying where it was.  And a position without partial
    exits whose stop is crossed on the same poll is closed in full, no
    partial exit taking place. *)
Lemma C1_partial_exit_is_capped_and_stop_comes_first :
  (t_partial_exits_done after_booking_80 = Some 1%Z
   /\ t_take_profit_2 after_booking_80 = Some 120 /\ 120 <= 121
   /\ exists w' pe r',
        poll_trade (quoting 121) 0 1 (ledger_of [(1%Z, after_booking_80)])
        = (Some (TP2Hit 121), w')
        /\ partial_exits w' = [pe]
        /\ pe_quantity_exited pe == 2
        /\ ~ pe_quantity_exited pe == tp2_exit_percent * original_of after_booking_80
        /\ trades w' !! 1%Z = Some r'
        /\ t_status r' = StClosed
        /\ t_stop_loss r' = Some (1001 # 10)
        /\ t_stop_loss r' <> t_take_profit_1 after_booking_80)
  /\
  (exists r, trades stop_above_target !! 1%Z = Some r
     /\ t_partial_exits_done r = Some 0%Z
     /\ t_take_profit_1 r = Some 104 /\ 104 <= 209 # 2
     /\ exists w' r',
          poll_trade (quoting (209 # 2)) 0 1 stop_above_target
          = (Some (FreeTradeClosed (209 # 2)), w')
          /\ partial_exits w' = []
          /\ trades w' !! 1%Z = Some r'
          /\ t_status r' = StClosed
          /\ t_stop_loss r' = Some 105
          /\ t_stop_loss r' <> Some (t_entry_price r)).
Proof.
  split.
  - split; [reflexivity |]. split; [reflexivity |]. split; [lra |].
    do 3 eexists. split; [vm_compute; reflexivity |]. simpl.
    split; [reflexivity |]. split; [reflexivity |].
    split; [intros H; vm_compute in H; discriminate |].
    split; [vm_compute; reflexivity |]. simpl.
    split; [reflexivity |]. split; [reflexivity | discriminate].
  - eexists. split; [vm_compute; reflexivity |]. simpl.
    split; [reflexivity |]. split; [reflexivity |]. split; [lra |].
    do 2 eexists. split; [vm_compute; reflexivity |]. simpl.
    split; [reflexivity |].
    split; [vm_compute; reflexivity |]. simpl.
    split; [reflexivity |]. split; [reflexivity | discriminate].
Qed.

(** C1 (amended): for an open long position whose count of partial exits
    is 0 (first tier) or 1 (second tier) and whose target of that tier is
    set and not 0, a poll at or above the target that does not cross the
    stop sends a market order for the smaller of the tier's percentage
    (40 %, then 30 %) of the original quantity and the remaining quantity,
    which is the percentage of the original whenever that much remains.  If
    no more than the negligible 0.0001 remains afterwards, the partial exit
    is recorded and the position is closed, its stop staying where it was.
    If more remains and the new stop of the tier is set (the entry price
    for the first tier, the first target for the second), the partial exit
    is recorded, the stop moves there and the position stays open with one
    more partial exit counted. *)
Theorem C1_take_profit_tiers
        (E : exchange) (now id : Z) (w : world) (r : trade) (t : tier)
        (price target : Q) :
  trades w !! id = Some r ->
  t_status r = StOpen ->
  t_side r = Buy ->
  last_price E (t_symbol r) = Some price ->
  t_partial_exits_done r = Some (tier_exits_done t) ->
  tier_target t r = Some target ->
  ~ target == 0 ->
  target <= price ->
  stop_not_hit Buy price (t_stop_loss r) ->
  let exit_quantity := py_min (original_of r * tier_percent t) (remaining_of r) in
  let pnl := (price - t_entry_price r) * exit_quantity in
  exists w',
    poll_trade E now id w = (Some (tier_event t price), w')
    /\ orders w' = orders_after E (closing_order r exit_quantity) (orders w)
    /\ (original_of r * tier_percent t <= remaining_of r ->
        exit_quantity = original_of r * tier_percent t)
    /\ (epsilon < remaining_of r - exit_quantity ->
        forall nsl, tier_new_stop t r = Some nsl ->
        exists r',
          trades w' = <[id := r']> (trades w)
          /\ t_stop_loss r' = Some nsl
          /\ t_remaining_quantity r' = Some (remaining_of r - exit_quantity)
          /\ t_partial_exits_done r' = Some (tier_exits_done t + 1)%Z
          /\ t_status r' = StOpen
          /\ partial_exits w'
             = partial_exits w
               ++ [{| pe_trade_id := id; pe_exit_price := price;
                      pe_quantity_exited := exit_quantity; pe_pnl := pnl;
                      pe_tp_level := tier_level t; pe_new_stop_loss := Some nsl;
                      pe_notes := NotePartialExit (tier_level t) (tier_percent t)
                                    (option_map (prefix 50)
                                       (rejects E (closing_order r exit_quantity))) |}])
    /\ (remaining_of r - exit_quantity <= epsilon ->
        exists r',
          trades w' = <[id := r']> (trades w)
          /\ t_status r' = StClosed
          /\ t_remaining_quantity r' = Some 0
          /\ t_stop_loss r' = t_stop_loss r
          /\ partial_exits w'
             = partial_exits w
               ++ [{| pe_trade_id := id; pe_exit_price := price;
                      pe_quantity_exited := exit_quantity; pe_pnl := pnl;
                      pe_tp_level := tier_level t;
                      pe_new_stop_loss := tier_new_stop t r;
                      pe_notes := NotePartialExit (tier_level t) (tier_percent t)
                                    (option_map (prefix 50)
                                       (rejects E (closing_order r exit_quantity))) |}]).
Proof.
  intros Hr Hopen Hside Hprice Hn Htarget Hnz Hcross Hstop exit_quantity pnl.
  unfold poll_trade. rewrite Hr, Hopen, Hprice.
  rewrite (take_profit_branch E now id w r t price target
             Hside Hstop Hn Htarget Hnz Hcross).
  eexists. split; [reflexivity |].
  assert (Hpnl : pnl_per_unit (t_side r) (t_entry_price r) price = price - t_entry_price r)
    by (rewrite Hside; reflexivity).
  split; [| split; [| split]].
  - unfold execute_partial_exit. rewrite Hr.
    fold (original_of r). fold (remaining_of r). fold exit_quantity.
    unfold place, orders_after, closing_order. rewrite Hn.
    destruct (rejects E _) as [err |]; simpl;
      destruct (Qleb _ epsilon); simpl;
      try destruct (tier_new_stop t r); reflexivity.
  - apply py_min_left.
  - intros Hrem nsl Hnsl. rewrite Hnsl.
    destruct (execute_partial_exit_partial E now id w r price (tier_percent t)
                (tier_level t) (tier_exits_done t) nsl Hr Hn Hrem)
      as (r' & Ht & Hs & Hq & Hd & _ & Hst & Hpe & _).
    exists r'. rewrite Hpnl in Hpe.
    repeat split; try assumption. rewrite Hst. exact Hopen.
  - intros Hrem.
    destruct (execute_partial_exit_final E now id w r price (tier_percent t)
                (tier_level t) (tier_exits_done t) (tier_new_stop t r) Hr Hn Hrem)
      as (r' & Ht & Hst & Hq & _ & _ & Hs & _ & _ & Hpe & _).
    exists r'. rewrite Hpnl in Hpe.
    repeat split; assumption.
Qed.

Lemma C1_witness :
  exists w' r',
    poll_trade (quoting 111) 0 1 scenario_C = (Some (TP1Hit 111), w')
    /\ trades w' !! 1%Z = Some r'
    /\ t_stop_loss r' = Some 100
    /\ t_remaining_quantity r' = Some (10 - py_min (10 * (4 # 10)) 10)
    /\ py_min (10 * (4 # 10)) 10 = 10 * (4 # 10)
    /\ t_partial_exits_done r' = Some 1%Z
    /\ t_status r' = StOpen.
Proof.
  destruct (C1_take_profit_tiers (quoting 111) 0%Z 1%Z scenario_C
              (open_trade (u "BTC/USDT") Buy 100 10 90 110 0) Tier1 111 110)
    as (w' & Hpoll & _ & Hq & Hpartial & _).
  - vm_compute; reflexivity.
  - reflexivity.
  - reflexivity.
  - reflexivity.
  - reflexivity.
  - reflexivity.
  - intros H; vm_compute in H; discriminate.
  - lra.
  - simpl. right. lra.
  - destruct (Hpartial ltac:(vm_compute; reflexivity) 100 eq_refl)
      as (r' & Ht & Hs & Hrem & Hd & Hst & _).
    exists w', r'. split; [exact Hpoll |].
    split; [rewrite Ht; apply lookup_insert_eq |].
    split; [exact Hs |]. split; [exact Hrem |].
    split; [apply Hq; vm_compute; discriminate |].
    split; [exact Hd | exact Hst].
Defined.

(** Scenario C of the specification, polled at 111 and then at 89: one
    partial exit of 4 units with the stop moved to 100, then a full close
    tagged as the breakeven stop, the P&L being 11 x 4 on the first slice
    plus (89 - 100) x 6 on the rest. *)
Example scenario_C_runs :
  exists w1 w2 r1 r2 pe,
    poll_trade (quoting 111) 0 1 scenario_C = (Some (TP1Hit 111), w1)
    /\ trades w1 !! 1%Z = Some r1
    /\ t_stop_loss r1 = Some 100
    /\ partial_exits w1 = [pe] /\ pe_quantity_exited pe == 4 /\ pe_pnl pe == 44
    /\ poll_trade (quoting 89) 0 1 w1 = (Some (FreeTradeClosed 89), w2)
    /\ trades w2 !! 1%Z = Some r2
    /\ t_status r2 = StClosed
    /\ t_remaining_quantity r2 = Some 0
    /\ t_notes r2 = Some [NoteClose BreakevenStop None]
    /\ (exists pnl, t_pnl r2 = Some pnl /\ pnl == 44 + (89 - 100) * 6)
    /\ partial_exits w2 = [pe].
Proof.
  do 5 eexists.
  split; [vm_compute; reflexivity |].
  split; [vm_compute; reflexivity |]. simpl.
  split; [reflexivity |]. split; [reflexivity |].
  split; [reflexivity |]. split; [reflexivity |].
  split; [vm_compute; reflexivity |].
  split; [vm_compute; reflexivity |]. simpl.
  split; [reflexivity |]. split; [reflexivity |]. split; [reflexivity |].
  split; [eexists; split; [reflexivity | reflexivity] | reflexivity].
Qed.

End ExitMonitorSpec.

(** ** The update processor *)

Module UpdateProcessorSpec.
Import PyStr Re Truth TruthFacts Ledger Runtime UpdateProcessor Notions Scenarios.
#[local] Open Scope Q_scope.

(** A row after [move_stop_to_breakeven] of the dictionary [d]. *)
Lemma move_stop_lookup (d : trade_dict) (w : world) (r : trade) :
  trades w !! d_id d = Some r ->
  exists r',
    trades (move_stop_to_breakeven d w) = <[d_id d := r']> (trades w)
    /\ t_stop_loss r' = Some (breakeven (d_side d) (d_entry_price d))
    /\ t_symbol r' = t_symbol r /\ t_side r' = t_side r
    /\ t_entry_price r' = t_entry_price r
    /\ t_status r' = t_status r /\ t_strategy r' = t_strategy r
    /\ t_quantity r' = t_quantity r
    /\ t_original_quantity r' = t_original_quantity r
    /\ t_remaining_quantity r' = t_remaining_quantity r
    /\ t_partial_exits_done r' = t_partial_exits_done r
    /\ t_partial_pnl r' = t_partial_pnl r
    /\ t_pnl r' = t_pnl r.
Proof.
  intros Hr. unfold move_stop_to_breakeven, set_trades. simpl. rewrite Hr.
  eexists. repeat split; reflexivity.
Qed.

Lemma move_stop_rest (d : trade_dict) (w : world) :
  partial_exits (move_stop_to_breakeven d w) = partial_exits w
  /\ orders (move_stop_to_breakeven d w) = orders w
  /\ processed_gauls_updates (move_stop_to_breakeven d w) = processed_gauls_updates w.
Proof. repeat split. Qed.

Lemma mark_as_processed_rest (now h : Z) (symbol : pystr) (a : action_type)
      (p : processor) (w : world) :
  trades (snd (mark_as_processed now h symbol a (p, w))) = trades w
  /\ partial_exits (snd (mark_as_processed now h symbol a (p, w))) = partial_exits w
  /\ orders (snd (mark_as_processed now h symbol a (p, w))) = orders w.
Proof.
  unfold mark_as_processed.
  destruct (existsb _ (processed_gauls_updates w)); repeat split.
Qed.

Lemma determine_action_enhanced_generic (text : pystr) (sd : symbol_data)
      (g : generic_instructions) :
  all_risk_free g = true ->
  determine_action_enhanced text sd g = Some risk_free_generic.
Proof. intros H. unfold determine_action_enhanced. rewrite H. reflexivity. Qed.

(** The generic action sells nothing: it only moves the stop. *)
Lemma execute_action_generic (E : exchange) (R : runtime) (now : Z) (d : trade_dict)
      (w : world) :
  execute_action E R now d risk_free_generic w = (move_stop_to_breakeven d w, true).
Proof.
  unfold execute_action. simpl.
  assert (H : Qgtb (d_remaining_quantity d * (inject_Z 0 / 100)) 0 = false).
  { apply Qgtb_false.
    assert (Hz : inject_Z 0 / 100 == 0) by reflexivity.
    rewrite Hz. lra. }
  rewrite H. reflexivity.
Qed.

Lemma only_stop_moved_refl (r : trade) : only_stop_moved r r.
Proof. unfold only_stop_moved. repeat split. left. reflexivity. Qed.

Lemma stops_only_refl (w : world) : stops_only w w.
Proof.
  split; [reflexivity |]. split; [reflexivity |].
  intros id. destruct (trades w !! id); constructor. apply only_stop_moved_refl.
Qed.

(** One turn of the loop over the trades, for the generic action. *)
Lemma generic_step (E : exchange) (now h : Z) (symbol : pystr) (w0 : world)
      (p : processor) (w : world) (d : trade_dict) :
  stops_only w0 w ->
  describes w0 d ->
  let pw' := apply_to_trade E now h symbol risk_free_generic (p, w) d in
  stops_only w0 (snd pw')
  /\ moved_at w0 (snd pw') (d_id d)
  /\ (forall id, moved_at w0 w id -> moved_at w0 (snd pw') id).
Proof.
  intros (Hpe & Ho & Hrows) (r0 & Hr0 & Hside & Hentry). cbv zeta.
  unfold apply_to_trade.
  rewrite execute_action_generic. cbv beta iota.
  destruct (mark_as_processed_rest now h symbol (a_type risk_free_generic) p
              (move_stop_to_breakeven d w)) as (Ht & Hpe' & Ho').
  pose proof (Hrows (d_id d)) as Hd. rewrite Hr0 in Hd.
  inversion Hd as [r0' r Hrel Heq0 Heq |]; subst r0'. symmetry in Heq.
  destruct (move_stop_lookup d w r Heq)
    as (r' & Hmove & Hstop & Hsym & Hsd & Hen & Hst & Hstr & Hq & Hoq & Hrq & Hn & Hpp & Hpnl).
  destruct Hrel as (Rsym & Rsd & Ren & Rst & Rstr & Rq & Roq & Rrq & Rn & Rpp & Rpnl & _).
  rewrite Hside, Hentry in Hstop.
  split; [| split].
  - split; [rewrite Hpe'; exact Hpe |]. split; [rewrite Ho'; exact Ho |].
    intros id. rewrite Ht, Hmove.
    destruct (decide (id = d_id d)) as [-> | Hne].
    + rewrite lookup_insert_eq, Hr0. constructor.
      unfold only_stop_moved. repeat split; try congruence. right. exact Hstop.
    + rewrite lookup_insert_ne by congruence. apply Hrows.
  - exists r0, r'. split; [exact Hr0 |].
    split; [rewrite Ht, Hmove; apply lookup_insert_eq | exact Hstop].
  - intros id (q0 & q & Hq0 & Hqw & Hqs). unfold moved_at. rewrite Ht, Hmove.
    destruct (decide (id = d_id d)) as [-> | Hne].
    + exists r0, r'. split; [exact Hr0 |].
      split; [apply lookup_insert_eq | exact Hstop].
    + exists q0, q. split; [exact Hq0 |].
      split; [rewrite lookup_insert_ne by congruence; exact Hqw | exact Hqs].
Qed.

(** The loop over the trades of one symbol, for the generic action. *)
Lemma generic_loop (E : exchange) (now h : Z) (symbol : pystr) (w0 : world)
      (trade_list : list trade_dict) :
  forall (pw : processor * world),
    stops_only w0 (snd pw) ->
    Forall (describes w0) trade_list ->
    let pw' := apply_to_trades E now h symbol risk_free_generic trade_list pw in
    stops_only w0 (snd pw')
    /\ (forall d, In d trade_list -> moved_at w0 (snd pw') (d_id d))
    /\ (forall id, moved_at w0 (snd pw) id -> moved_at w0 (snd pw') id).
Proof.
  unfold apply_to_trades.
  induction trade_list as [| d tl IH]; intros [p w] Hinv Hall; cbv zeta.
  - simpl. split; [exact Hinv |]. split; [intros d [] | auto].
  - apply Forall_cons in Hall. destruct Hall as [Hd Hall].
    destruct (generic_step E now h symbol w0 p w d Hinv Hd) as (Hinv1 & Hmoved1 & Hkeep1).
    simpl fold_left.
    destruct (IH (apply_to_trade E now h symbol risk_free_generic (p, w) d) Hinv1 Hall)
      as (Hinv2 & Hmoved2 & Hkeep2).
    split; [exact Hinv2 |]. split.
    + intros d' [<- | Hin]; [apply Hkeep2, Hmoved1 | apply Hmoved2, Hin].
    + intros id Hid. apply Hkeep2, Hkeep1, Hid.
Qed.

Lemma matching_trades_in (symbol : pystr) (w : world) (d : trade_dict) :
  In d (get_matching_trades symbol w) <->
  exists id r, trades w !! id = Some r /\ is_matching symbol r = true
               /\ d = dict_of_row id r.
Proof.
  unfold get_matching_trades. rewrite List.in_map_iff. split.
  - intros ([id r] & Hd & Hin). apply List.filter_In in Hin. destruct Hin as [Hin Hm].
    apply list_elem_of_In, elem_of_map_to_list in Hin.
    exists id, r. auto.
  - intros (id & r & Hr & Hm & ->). exists (id, r). split; [reflexivity |].
    apply List.filter_In. split; [| exact Hm].
    apply list_elem_of_In, elem_of_map_to_list, Hr.
Qed.

Lemma is_matching_stable (symbol : pystr) (r r' : trade) :
  only_stop_moved r r' -> is_matching symbol r' = is_matching symbol r.
Proof.
  intros (Hsym & _ & _ & Hst & Hstr & _). unfold is_matching.
  rewrite Hsym, Hst, Hstr. reflexivity.
Qed.

Lemma matching_described (symbol : pystr) (w0 w : world) :
  stops_only w0 w -> Forall (describes w0) (get_matching_trades symbol w).
Proof.
  intros (_ & _ & Hrows). apply List.Forall_forall. intros d Hd.
  apply matching_trades_in in Hd. destruct Hd as (id & r & Hr & _ & ->).
  pose proof (Hrows id) as Hid. rewrite Hr in Hid.
  inversion Hid as [r0 r1 Hrel Heq0 Heq |]; subst r1.
  destruct Hrel as (_ & Hsd & Hen & _).
  exists r0. simpl. split; [congruence |]. split; assumption.
Qed.

(** One turn of the loop over the symbols, under the generic instruction. *)
Lemma generic_symbol_step (E : exchange) (now h : Z) (text : pystr)
      (g : generic_instructions) (w0 : world) (pw : processor * world)
      (symbol : pystr) (sd : symbol_data) :
  all_risk_free g = true ->
  stops_only w0 (snd pw) ->
  let pw' := apply_to_symbol E now text h g pw (symbol, sd) in
  stops_only w0 (snd pw')
  /\ (forall id r0, trades w0 !! id = Some r0 ->
        is_matching (symbol ++ u "/USDT") r0 = true -> moved_at w0 (snd pw') id)
  /\ (forall id, moved_at w0 (snd pw) id -> moved_at w0 (snd pw') id).
Proof.
  intros Hg Hinv. cbv zeta. unfold apply_to_symbol.
  rewrite (determine_action_enhanced_generic text sd g Hg).
  pose proof (matching_described (symbol ++ u "/USDT") w0 (snd pw) Hinv) as Hdesc.
  assert (Hfound : forall id r0, trades w0 !! id = Some r0 ->
            is_matching (symbol ++ u "/USDT") r0 = true ->
            exists d, In d (get_matching_trades (symbol ++ u "/USDT") (snd pw))
                      /\ d_id d = id).
  { intros id r0 Hr0 Hm. destruct Hinv as (_ & _ & Hrows).
    pose proof (Hrows id) as Hid. rewrite Hr0 in Hid.
    inversion Hid as [r0' r Hrel Heq0 Heq |]; subst r0'. symmetry in Heq.
    exists (dict_of_row id r). split; [| reflexivity].
    apply matching_trades_in. exists id, r. split; [exact Heq |].
    split; [| reflexivity]. rewrite (is_matching_stable _ r0 r Hrel). exact Hm. }
  destruct (get_matching_trades (symbol ++ u "/USDT") (snd pw)) as [| d tl] eqn:Etl.
  - split; [exact Hinv |]. split; [| auto].
    intros id r0 Hr0 Hm. destruct (Hfound id r0 Hr0 Hm) as (d & [] & _).
  - destruct (generic_loop E now h (symbol ++ u "/USDT") w0 (d :: tl) pw Hinv Hdesc)
      as (Hinv' & Hmoved & Hkeep).
    split; [exact Hinv' |]. split; [| exact Hkeep].
    intros id r0 Hr0 Hm. destruct (Hfound id r0 Hr0 Hm) as (d' & Hin & <-).
    apply Hmoved, Hin.
Qed.

(** The loop over the symbols, under the generic instruction. *)
Lemma generic_symbol_loop (E : exchange) (now h : Z) (text : pystr)
      (g : generic_instructions) (w0 : world) (updates : list (pystr * symbol_data)) :
  all_risk_free g = true ->
  forall pw : processor * world,
    stops_only w0 (snd pw) ->
    let pw' := fold_left (apply_to_symbol E now text h g) updates pw in
    stops_only w0 (snd pw')
    /\ (forall id r0, trades w0 !! id = Some r0 ->
          addressed (List.map fst updates) r0 -> moved_at w0 (snd pw') id)
    /\ (forall id, moved_at w0 (snd pw) id -> moved_at w0 (snd pw') id).
Proof.
  intros Hg. induction updates as [| [symbol sd] rest IH]; intros pw Hinv; cbv zeta.
  - simpl. split; [exact Hinv |]. split; [| auto].
    intros id r0 _ (symbol & [] & _).
  - simpl fold_left.
    destruct (generic_symbol_step E now h text g w0 pw symbol sd Hg Hinv)
      as (Hinv1 & Hmoved1 & Hkeep1).
    destruct (IH (apply_to_symbol E now text h g pw (symbol, sd)) Hinv1)
      as (Hinv2 & Hmoved2 & Hkeep2).
    split; [exact Hinv2 |]. split.
    + intros id r0 Hr0 (symbol' & [<- | Hin] & Hm).
      * apply Hkeep2, (Hmoved1 id r0 Hr0 Hm).
      * apply (Hmoved2 id r0 Hr0). exists symbol'. split; assumption.
    + intros id Hid. apply Hkeep2, Hkeep1, Hid.
Qed.

(** The generic action leaves the rows of other positions alone. *)
Lemma generic_step_other (E : exchange) (now h : Z) (symbol : pystr)
      (p : processor) (w : world) (d : trade_dict) (id : Z) :
  id <> d_id d ->
  trades (snd (apply_to_trade E now h symbol risk_free_generic (p, w) d)) !! id
  = trades w !! id.
Proof.
  intros Hne. unfold apply_to_trade. rewrite execute_action_generic. cbv beta iota.
  destruct (mark_as_processed_rest now h symbol (a_type risk_free_generic) p
              (move_stop_to_breakeven d w)) as (Ht & _).
  rewrite Ht. unfold move_stop_to_breakeven, set_trades. cbn [trades].
  destruct (trades w !! d_id d); [| reflexivity].
  apply lookup_insert_ne. congruence.
Qed.

Lemma generic_loop_other (E : exchange) (now h : Z) (symbol : pystr) (id : Z)
      (trade_list : list trade_dict) :
  forall pw : processor * world,
    (forall d, In d trade_list -> id <> d_id d) ->
    trades (snd (apply_to_trades E now h symbol risk_free_generic trade_list pw)) !! id
    = trades (snd pw) !! id.
Proof.
  unfold apply_to_trades.
  induction trade_list as [| d tl IH]; intros [p w] Hother; simpl fold_left;
    [reflexivity |].
  rewrite IH by (intros d' Hd'; apply Hother; right; exact Hd').
  apply generic_step_other. apply Hother. left. reflexivity.
Qed.

Lemma generic_symbol_step_other (E : exchange) (now h : Z) (text : pystr)
      (g : generic_instructions) (pw : processor * world)
      (symbol : pystr) (sd : symbol_data) (id : Z) (r : trade) :
  all_risk_free g = true ->
  trades (snd pw) !! id = Some r ->
  is_matching (symbol ++ u "/USDT") r = false ->
  trades (snd (apply_to_symbol E now text h g pw (symbol, sd))) !! id = Some r.
Proof.
  intros Hg Hr Hm. unfold apply_to_symbol.
  rewrite (determine_action_enhanced_generic text sd g Hg).
  destruct (get_matching_trades (symbol ++ u "/USDT") (snd pw)) as [| d tl] eqn:Etl;
    [exact Hr |].
  rewrite generic_loop_other; [exact Hr |].
  intros d' Hd' ->. rewrite <- Etl in Hd'. apply matching_trades_in in Hd'.
  destruct Hd' as (id' & r' & Hr' & Hm' & ->). cbn [d_id dict_of_row] in Hr.
  rewrite Hr in Hr'. injection Hr' as <-. congruence.
Qed.

Lemma generic_symbol_loop_other (E : exchange) (now h : Z) (text : pystr)
      (g : generic_instructions) (updates : list (pystr * symbol_data))
      (id : Z) (r : trade) :
  all_risk_free g = true ->
  (forall symbol, In symbol (List.map fst updates) ->
     is_matching (symbol ++ u "/USDT") r = false) ->
  forall pw : processor * world,
    trades (snd pw) !! id = Some r ->
    trades (snd (fold_left (apply_to_symbol E now text h g) updates pw)) !! id = Some r.
Proof.
  intros Hg. induction updates as [| [symbol sd] rest IH]; intros Hother pw Hr;
    simpl fold_left; [exact Hr |].
  apply IH; [intros symbol' Hin; apply Hother; right; exact Hin |].
  apply generic_symbol_step_other; [exact Hg | exact Hr |].
  apply Hother. left. reflexivity.
Qed.

(** C5, as stated, fails on its own example.  The sentence "both trades
    risk-free, letting targets cook" carries the generic instruction and no
    R action or booking, and two copy trades on different symbols are open;
    but the message names no symbol, the fall-back pattern takes its first
    word, "both", for one, no position matches "both/USDT", and both
    positions keep the stops they had, below their entries. *)
Lemma C5_bare_sentence_moves_no_stop :
  all_risk_free (extract_generic_instructions bare_generic_update) = true
  /\ search IGNORECASE pat_r_action bare_generic_update = None
  /\ search IGNORECASE pat_book_partial bare_generic_update = None
  /\ option_map (List.map fst) (symbols_of bare_generic_update) = Some [u "both"]
  /\ snd (process_update_message (quoting 230) 0 bare_generic_update 0 7
            (new_processor example_runtime two_positions, two_positions))
     = two_positions
  /\ exists r1 r2,
       trades two_positions !! 1%Z = Some r1 /\ trades two_positions !! 2%Z = Some r2
       /\ t_status r1 = StOpen /\ t_status r2 = StOpen
       /\ t_strategy r1 = u "gauls_copy" /\ t_strategy r2 = u "gauls_copy"
       /\ t_stop_loss r1 = Some 190 /\ t_entry_price r1 = 200
       /\ t_stop_loss r2 = Some 2900 /\ t_entry_price r2 = 3000.
Proof.
  split; [vm_compute; reflexivity |].
  split; [vm_compute; reflexivity |].
  split; [vm_compute; reflexivity |].
  split; [vm_compute; reflexivity |].
  split; [vm_compute; reflexivity |].
  eexists. eexists.
  split; [vm_compute; reflexivity |]. split; [vm_compute; reflexivity |].
  repeat split.
Qed.

(** C5 (amended): for a message that carries the generic "both/all ...
    risk-free" instruction, whatever else it says, processing it sells
    nothing (no partial exit is recorded, no order is sent, no quantity, no
    count of partial exits and no status changes), and every open copy
    trade whose symbol the message names (in its symbol lines or, without
    any, as the first symbol the fall-back patterns find) has its stop set
    to the breakeven price: its entry price times 1.001 for a long, times
    0.999 for a short.  The rows of all other positions stay as they
    are. *)
Theorem C5_generic_risk_free_only_moves_stops
        (E : exchange) (now timestamp message_hash : Z) (text : pystr)
        (updates : list (pystr * symbol_data)) (p : processor) (w : world) :
  all_risk_free (extract_generic_instructions text) = true ->
  symbols_of text = Some updates ->
  let w' := snd (process_update_message E now text timestamp message_hash (p, w)) in
  partial_exits w' = partial_exits w
  /\ orders w' = orders w
  /\ (forall id r, trades w !! id = Some r ->
        exists r', trades w' !! id = Some r'
          /\ t_remaining_quantity r' = t_remaining_quantity r
          /\ t_partial_exits_done r' = t_partial_exits_done r
          /\ t_status r' = t_status r)
  /\ (forall id r, trades w !! id = Some r ->
        addressed (List.map fst updates) r ->
        exists r', trades w' !! id = Some r'
          /\ t_stop_loss r'
             = Some (t_entry_price r
                     * match t_side r with
                       | Buy => 1001 # 1000
                       | Sell => 999 # 1000
                       end))
  /\ (forall id r, trades w !! id = Some r ->
        ~ addressed (List.map fst updates) r ->
        trades w' !! id = Some r).
Proof.
  intros Hg Hsym. cbv zeta. unfold process_update_message. rewrite Hsym.
  destruct (generic_symbol_loop E now message_hash text
              (extract_generic_instructions text) w updates Hg (p, w) (stops_only_refl w))
    as ((Hpe & Ho & Hrows) & Hmoved & _).
  split; [exact Hpe |]. split; [exact Ho |]. split; [| split].
  - intros id r Hr. pose proof (Hrows id) as Hid. rewrite Hr in Hid.
    inversion Hid as [r0 r' Hrel Heq0 Heq |]; subst r0.
    destruct Hrel as (_ & _ & _ & Hst & _ & _ & _ & Hrq & Hn & _).
    exists r'. split; [reflexivity |]. split; [exact Hrq |]. split; assumption.
  - intros id r Hr Haddr.
    destruct (Hmoved id r Hr Haddr) as (r0 & r' & Hr0 & Hr' & Hstop).
    rewrite Hr in Hr0. injection Hr0 as <-.
    exists r'. split; assumption.
  - intros id r Hr Hnot.
    apply generic_symbol_loop_other; [exact Hg | | exact Hr].
    intros symbol Hin.
    destruct (is_matching (symbol ++ u "/USDT") r) eqn:Hm; [| reflexivity].
    exfalso. apply Hnot. exists symbol. split; assumption.
Qed.

Lemma C5_witness :
  let w' := snd (process_update_message (quoting 230) 0 generic_update 0 7
                   (new_processor example_runtime two_positions, two_positions)) in
  partial_exits w' = [] /\ orders w' = []
  /\ (exists r1, trades w' !! 1%Z = Some r1
        /\ t_stop_loss r1 = Some (200 * (1001 # 1000))
        /\ t_remaining_quantity r1 = Some 5)
  /\ (exists r2, trades w' !! 2%Z = Some r2
        /\ t_stop_loss r2 = Some (3000 * (1001 # 1000))
        /\ t_remaining_quantity r2 = Some 1).
Proof.
  cbv zeta.
  destruct (symbols_of generic_update) as [updates |] eqn:Hsym;
    [| vm_compute in Hsym; discriminate].
  destruct (C5_generic_risk_free_only_moves_stops (quoting 230) 0%Z 0%Z 7%Z
              generic_update updates (new_processor example_runtime two_positions)
              two_positions)
    as (Hpe & Ho & Hkept & Hmoved & _).
  - vm_compute; reflexivity.
  - exact Hsym.
  - vm_compute in Hsym. injection Hsym as <-.
    cbv zeta in Hpe, Ho, Hkept, Hmoved.
    split; [exact Hpe |]. split; [exact Ho |]. split.
    + destruct (Hmoved 1%Z (open_trade (u "SOL/USDT") Buy 200 5 190 220 0))
        as (r' & Hr' & Hstop).
      * vm_compute; reflexivity.
      * exists (u "SOL"). split; [left; reflexivity | vm_compute; reflexivity].
      * destruct (Hkept 1%Z (open_trade (u "SOL/USDT") Buy 200 5 190 220 0))
          as (r'' & Hr'' & Hrq & _); [vm_compute; reflexivity |].
        rewrite Hr' in Hr''. injection Hr'' as <-.
        exists r'. split; [exact Hr' |]. split; [exact Hstop | exact Hrq].
    + destruct (Hmoved 2%Z (open_trade (u "ETH/USDT") Buy 3000 1 2900 3300 0))
        as (r' & Hr' & Hstop).
      * vm_compute; reflexivity.
      * exists (u "ETH"). split; [right; left; reflexivity | vm_compute; reflexivity].
      * destruct (Hkept 2%Z (open_trade (u "ETH/USDT") Buy 3000 1 2900 3300 0))
          as (r'' & Hr'' & Hrq & _); [vm_compute; reflexivity |].
        rewrite Hr' in Hr''. injection Hr'' as <-.
        exists r'. split; [exact Hr' |]. split; [exact Hstop | exact Hrq].
Defined.

(** What [close_trade] of the update processor writes: the status, the
    exit price and time and a note; the remaining quantity and the realised
    P&L stay as they were. *)
Lemma close_trade_writes (now id : Z) (price : Q) (w : world) (r : trade) :
  trades w !! id = Some r ->
  exists r',
    trades (close_trade now id price w) = <[id := r']> (trades w)
    /\ t_status r' = StClosed
    /\ t_exit_price r' = Some price
    /\ t_remaining_quantity r' = t_remaining_quantity r
    /\ t_pnl r' = t_pnl r
    /\ t_partial_pnl r' = t_partial_pnl r.
Proof.
  intros Hr. unfold close_trade, set_trades. simpl. rewrite Hr.
  eexists. repeat split; reflexivity.
Qed.

(** C6 fails on the full-close instruction of an update message.  The
    message "$BTC UPDATE: closing it here" on an open long of ten units
    bought at 100, the price being 110: the whole position is sold and the
    row is closed at 110, but its remaining quantity stays 10 and no realised
    P&L is written.  The monitor's [close_remaining_position] on the same
    row pins the quantity to 0 and records the P&L of 100. *)
Theorem C6_full_close_by_update_keeps_quantity_and_writes_no_pnl
        (R : runtime) (now timestamp message_hash : Z) :
  let w' := snd (process_update_message (quoting 110) now closing_update timestamp
                   message_hash (new_processor R btc_long, btc_long)) in
  let v := ExitMonitor.close_remaining_position (quoting 110) now 1 110 StopLossHit
             btc_long in
  (exists r', trades w' !! 1%Z = Some r'
     /\ t_status r' = StClosed
     /\ t_exit_price r' = Some 110
     /\ t_remaining_quantity r' = Some 10
     /\ t_pnl r' = None
     /\ orders w' = [{| o_symbol := u "BTC/USDT"; o_type := MarketOrder; o_side := Sell;
                         o_amount := 10; o_price := None; o_leverage := None |}])
  /\ (exists r' pnl, trades v !! 1%Z = Some r'
        /\ t_status r' = StClosed
        /\ t_remaining_quantity r' = Some 0
        /\ t_pnl r' = Some pnl /\ pnl == 100).
Proof.
  cbv zeta. split.
  - eexists. split; [vm_compute; reflexivity |]. simpl.
    split; [reflexivity |]. split; [reflexivity |]. split; [reflexivity |].
    split; [reflexivity |]. vm_compute. reflexivity.
  - do 2 eexists. split; [vm_compute; reflexivity |]. simpl.
    split; [reflexivity |]. split; [reflexivity |]. split; reflexivity.
Qed.

(** A fresh process never finds a hash in the set it loaded: the table
    gives the hashes back as text, the look-up is for an integer. *)
Lemma fresh_process_knows_no_hash (R : runtime) (w : world) (message_hash : Z) :
  py_in (PyInt message_hash) (processed_updates (new_processor R w)) = false.
Proof.
  unfold new_processor, load_processed_updates. simpl.
  induction (processed_gauls_updates w) as [| m ms IH]; [reflexivity |].
  simpl. exact IH.
Qed.

(** Within one process a hash that was added is found again. *)
Lemma py_in_add (x : Z) (s : list pyval) : py_in (PyInt x) (py_add (PyInt x) s) = true.
Proof.
  unfold py_add. destruct (py_in (PyInt x) s) eqn:E; [exact E |].
  unfold py_in. rewrite existsb_app. simpl. rewrite Z.eqb_refl.
  rewrite orb_true_r. reflexivity.
Qed.

(** C4 fails across a restart.  The update "$BTC UPDATE: 1.2R locked" is
    delivered to a first process, which takes the 40 % partial exit, moves the
    stop to breakeven and persists the marker.  A second, fresh process that
    reloads the markers and meets the same stored message takes a second
    partial exit and writes the stop a second time, whatever the [hash] of
    the two processes is, even the same one. *)
Theorem C4_second_delivery_after_restart_is_processed_again (R1 R2 : runtime) :
  let w0 := with_message r_locked_update 1000 btc_long in
  let first := scan_for_updates (quoting 112) 2000 (new_processor R1 w0, w0) in
  let second := scan_for_updates (quoting 112) 2000
                  (new_processor R2 (snd first), snd first) in
  (length (partial_exits (snd first)) = 1%nat
   /\ length (processed_gauls_updates (snd first)) = 1%nat
   /\ exists r1, trades (snd first) !! 1%Z = Some r1
        /\ t_remaining_quantity r1 = Some (10 + - (10 * (inject_Z 40 / 100)))
        /\ t_notes r1 = Some [NoteGauls (RPartial 1.2); NoteSlMoved])
  /\ (length (partial_exits (snd second)) = 2%nat
      /\ exists r2 rem, trades (snd second) !! 1%Z = Some r2
           /\ t_remaining_quantity r2 = Some rem /\ rem == 36 # 10
           /\ t_partial_exits_done r2 = Some 2%Z
           /\ t_notes r2 = Some [NoteGauls (RPartial 1.2); NoteSlMoved;
                                  NoteGauls (RPartial 1.2); NoteSlMoved]).
Proof.
  cbv zeta. split.
  - split; [vm_compute; reflexivity |]. split; [vm_compute; reflexivity |].
    eexists. split; [vm_compute; reflexivity |]. split; reflexivity.
  - split.
    + vm_compute.
      repeat match goal with |- context [if ?c then _ else _] => destruct c end;
        reflexivity.
    + do 2 eexists. split.
      * vm_compute.
        repeat match goal with |- context [if ?c then _ else _] => destruct c end.
        all: reflexivity.
      * simpl. repeat split; reflexivity.
Qed.

(** Within the process that handled it, the same stored message is skipped:
    a second scan changes nothing. *)
Example same_process_skips_a_processed_update (R : runtime) :
  let w0 := with_message r_locked_update 1000 btc_long in
  let first := scan_for_updates (quoting 112) 2000 (new_processor R w0, w0) in
  scan_for_updates (quoting 112) 2000 first = first.
Proof.
  cbv zeta.
  set (first := scan_for_updates _ _ (new_processor R _, _)).
  assert (Hmsg : recent_update_messages 2000 (snd first) = [(r_locked_update, 1000%Z)])
    by (vm_compute; reflexivity).
  assert (Hrt : rt (fst first) = R) by (vm_compute; reflexivity).
  assert (Hset : processed_updates (fst first)
                 = py_add (PyInt (py_hash R (r_locked_update ++ u "_" ++ str_of_int 1000)))
                     [])
    by (vm_compute; reflexivity).
  unfold scan_for_updates. rewrite Hmsg. destruct first as [p1 w1]. simpl in *.
  rewrite Hrt, Hset, py_in_add. reflexivity.
Qed.

End UpdateProcessorSpec.

(** ** The copy trader *)

Module CopyTraderSpec.
Import PyStr Truth TruthFacts Ledger Runtime CopyTrader Notions Scenarios.
#[local] Open Scope Q_scope.

Lemma pystr_eqb_refl (a : pystr) : PyStr.eqb a a = true.
Proof. induction a as [| c a IH]; simpl; [reflexivity |]. rewrite N.eqb_refl. exact IH. Qed.

Lemma pystr_eqb_eq (a b : pystr) : PyStr.eqb a b = true <-> a = b.
Proof.
  split; [| intros ->; apply pystr_eqb_refl].
  revert b. induction a as [| c a IH]; intros [| d b]; simpl; try discriminate;
    [reflexivity |].
  intros H. apply andb_true_iff in H. destruct H as [Hc Hab].
  apply N.eqb_eq in Hc. rewrite Hc, (IH b Hab). reflexivity.
Qed.

(** On a table with the columns the copy trader names, the check answers
    whether a marker of the signal is on record: by its fingerprint, or by
    its symbol and time stamp.  On any other table it answers no. *)
Lemma is_signal_already_processed_spec (R : runtime) (s : exec_signal) (w : world) :
  is_signal_already_processed R s w = true <->
  exists rows m, processed_gauls_signals w = WithTraderColumns rows
    /\ In m rows
    /\ (sm_signal_hash m = signal_hash R s
        \/ (sm_symbol m = SignalParser.symbol (parsed s)
            /\ sm_signal_timestamp m = timestamp_or_empty s)).
Proof.
  unfold is_signal_already_processed.
  destruct (processed_gauls_signals w) as [| declared | rows].
  - split; [discriminate | intros (? & ? & [=] & _)].
  - split; [discriminate | intros (? & ? & [=] & _)].
  - rewrite List.existsb_exists. split.
    + intros (m & Hin & H). exists rows, m. split; [reflexivity |].
      split; [exact Hin |].
      apply orb_true_iff in H. destruct H as [H | H].
      * left. apply pystr_eqb_eq, H.
      * right. apply andb_true_iff in H. destruct H as [H1 H2].
        split; apply pystr_eqb_eq; assumption.
    + intros (rows' & m & [= <-] & Hin & H). exists m. split; [exact Hin |].
      apply orb_true_iff. destruct H as [H | [H1 H2]].
      * left. apply pystr_eqb_eq, H.
      * right. apply andb_true_iff. split; apply pystr_eqb_eq; assumption.
Qed.

(** The gate at the head of [execute_gauls_signal]. *)
Lemma processed_signal_returns_none
      (E : exchange) (L : llm_analyzer) (R : runtime) (now : Z)
      (s : exec_signal) (t : trader) (w : world) :
  is_signal_already_processed R s w = true ->
  execute_gauls_signal E L R now s (t, w) = (None, (t, w)).
Proof. intros H. unfold execute_gauls_signal. rewrite H. reflexivity. Qed.

(** On the table the repository declares, and without a table, no signal
    counts as processed and recording a signal writes nothing. *)
Lemma declared_table_records_nothing (R : runtime) (s : exec_signal)
      (trade_id : option Z) (w : world) :
  (forall rows, processed_gauls_signals w <> WithTraderColumns rows) ->
  is_signal_already_processed R s w = false
  /\ record_processed_signal R s trade_id w = w.
Proof.
  intros H. unfold is_signal_already_processed, record_processed_signal.
  destruct (processed_gauls_signals w) as [| declared | rows];
    [split; reflexivity | split; reflexivity |].
  exfalso. exact (H rows eq_refl).
Qed.

(** C3 (code bug): on the table of processed signals that the repository
    declares, the raw text of an executed signal is executed again.  The
    message of scenario A is executed at time 100 with the market at 112000:
    an order is placed and trade 1 is opened, but no marker is written.  Six
    minutes later the signal itself is turned away, its position being
    tracked under its row id, and nothing is recorded; but the same text,
    delivered by the second message table under another row id, is executed
    again, and so is the very same signal after a restart of the trader.
    Each time a second order is placed and a second trade row is inserted,
    and both positions are open. *)
Theorem C3_same_raw_text_opens_a_second_position (R : runtime) :
  let first := execute_gauls_signal (quoting 112000) permissive_llm R 100
                 scenario_A_signal (no_positions, empty_ledger) in
  SignalParser.raw_text (parsed scenario_A_again)
  = SignalParser.raw_text (parsed scenario_A_signal)
  /\ exists o1 r1,
       fst first = Some o1
       /\ orders (snd (snd first)) = [o1]
       /\ trades (snd (snd first)) = {[ 1%Z := r1 ]}
       /\ t_status r1 = StOpen
       /\ processed_gauls_signals (snd (snd first)) = DeclaredTable []
       /\ execute_gauls_signal (quoting 112000) permissive_llm R 460
            scenario_A_signal (snd first) = (None, snd first)
       /\ List.Forall
            (fun second =>
               exists o2 r2,
                 fst second = Some o2
                 /\ orders (snd (snd second)) = [o1; o2]
                 /\ trades (snd (snd second)) = <[ 2%Z := r2 ]> {[ 1%Z := r1 ]}
                 /\ t_symbol r2 = t_symbol r1
                 /\ t_status r2 = StOpen)
            [execute_gauls_signal (quoting 112000) permissive_llm R 460
               scenario_A_again (snd first);
             execute_gauls_signal (quoting 112000) permissive_llm R 460
               scenario_A_signal (restarted (snd first))].
Proof.
  cbv zeta. split; [reflexivity |].
  eexists. eexists.
  split; [vm_compute; reflexivity |].
  split; [vm_compute; reflexivity |].
  split; [vm_compute; reflexivity |].
  split; [reflexivity |].
  split; [vm_compute; reflexivity |].
  split; [vm_compute; reflexivity |].
  repeat apply List.Forall_cons; [| | apply List.Forall_nil];
    eexists; eexists;
    (split; [vm_compute; reflexivity |]);
    (split; [vm_compute; reflexivity |]);
    (split; [vm_compute; reflexivity |]);
    split; reflexivity.
Qed.

(** Recording a signal on a table with the trader's columns puts its
    fingerprint on record. *)
Lemma record_processed_signal_records (R : runtime) (s : exec_signal)
      (trade_id : option Z) (w : world) (rows : list signal_marker) :
  processed_gauls_signals w = WithTraderColumns rows ->
  exists rows' m,
    processed_gauls_signals (record_processed_signal R s trade_id w)
    = WithTraderColumns rows'
    /\ In m rows'
    /\ sm_signal_hash m = signal_hash R s.
Proof.
  intros Htable. unfold record_processed_signal. rewrite Htable.
  destruct (existsb _ rows) eqn:E.
  - apply List.existsb_exists in E. destruct E as (m & Hin & Hm).
    exists rows, m. split; [exact Htable |].
    split; [exact Hin | apply pystr_eqb_eq, Hm].
  - eexists. eexists. split; [reflexivity |].
    split; [apply List.in_or_app; right; left; reflexivity | reflexivity].
Qed.

(** On a table with the trader's columns, an execution that returns an
    order has recorded the fingerprint of the signal's raw text. *)
Lemma executed_signal_is_recorded
      (E : exchange) (L : llm_analyzer) (R : runtime) (now : Z)
      (s : exec_signal) (tw tw' : trader * world) (o : order)
      (rows : list signal_marker) :
  processed_gauls_signals (snd tw) = WithTraderColumns rows ->
  execute_gauls_signal E L R now s tw = (Some o, tw') ->
  exists rows' m,
    processed_gauls_signals (snd tw') = WithTraderColumns rows'
    /\ In m rows'
    /\ sm_signal_hash m = md5_hexdigest R (SignalParser.raw_text (parsed s)).
Proof.
  destruct tw as [t w]. simpl. intros Htable. unfold execute_gauls_signal.
  destruct (is_signal_already_processed R s w); [discriminate |].
  destruct (has_recent_trade now _ w); [discriminate |].
  destruct (positions t !! signal_key s); [discriminate |].
  destruct (negb _); [discriminate |].
  match goal with |- context [match ?x with Some _ => _ | None => _ end] =>
    destruct x as [[[[current_price order_type] execution_price] sz] |] end;
    [| discriminate].
  unfold place. destruct (rejects E _); [discriminate |].
  intros [= _ <-]. simpl.
  unfold record_gauls_trade.
  destruct (take_profits s) as [| a [| b l]];
    try destruct (opt_truthy _);
    apply (record_processed_signal_records R s _ _ rows); exact Htable.
Qed.

(** C7, as stated, fails between 90 % and 100 % of the free margin.  Entry
    100, stop 99, free margin 260: the required margin is 250, above 90 % of
    260 (234) but not above 260, and the position is not scaled down: the
    quantity is 25 and the risk the full 25, not strictly below it. *)
Lemma C7_no_scale_down_between_90_and_100_percent :
  exists sz, position_sizing (Some 99) 100 260 1 = Some sz
    /\ margin_required sz == 250
    /\ 260 * MARGIN_USAGE_PCT < margin_required sz
    /\ scaled_down sz = false
    /\ quantity sz == 25
    /\ actual_risk sz == MAX_LOSS_PER_TRADE_EUR
    /\ ~ quantity sz * Qabs (100 - 99) < MAX_LOSS_PER_TRADE_EUR.
Proof.
  eexists. split; [vm_compute; reflexivity |]. simpl.
  split; [reflexivity |]. split; [reflexivity |]. split; [reflexivity |].
  split; [reflexivity |]. split; [reflexivity |].
  intros H. vm_compute in H. discriminate.
Qed.

Lemma Qabs_zero_iff (x : Q) : Qabs x == 0 <-> x == 0.
Proof.
  split; intros H.
  - revert H. apply (Qabs_case x (fun a => a == 0 -> x == 0)); intros Hx H; lra.
  - rewrite H. reflexivity.
Qed.

(** C7 (amended): with a stop-loss that is set and differs from the entry
    price, the sizer compares the required margin (notional / leverage, the
    notional being max_loss / |entry - stop| units at the entry price) with
    the whole free margin, not with 90 % of it.  Above it, the position is
    scaled down from affordable_margin = available x 0.9: notional =
    affordable_margin x leverage, units = notional / entry, the scale-down is
    reported, and the risk of these units (units x |entry - stop|) is
    strictly below the maximum loss.  Otherwise the units are max_loss /
    |entry - stop|, so that units x |entry - stop| equals the maximum loss.
    The quantity and the reported risk are the units and their risk times
    the position-size modifier (1 for a market entry). *)
Theorem C7_margin_scale_down_and_fixed_risk
        (stop_loss execution_price available modifier : Q) :
  0 < execution_price ->
  ~ stop_loss == 0 ->
  ~ execution_price == stop_loss ->
  let risk_per_unit := Qabs (execution_price - stop_loss) in
  exists sz,
    position_sizing (Some stop_loss) execution_price available modifier = Some sz
    /\ margin_required sz
       == MAX_LOSS_PER_TRADE_EUR / risk_per_unit * execution_price / GAULS_LEVERAGE
    /\ quantity sz == max_units sz * modifier
    /\ (available < margin_required sz ->
        scaled_down sz = true
        /\ position_value sz == available * MARGIN_USAGE_PCT * GAULS_LEVERAGE
        /\ max_units sz == position_value sz / execution_price
        /\ actual_risk sz == max_units sz * risk_per_unit * modifier
        /\ max_units sz * risk_per_unit < MAX_LOSS_PER_TRADE_EUR)
    /\ (margin_required sz <= available ->
        scaled_down sz = false
        /\ max_units sz == MAX_LOSS_PER_TRADE_EUR / risk_per_unit
        /\ max_units sz * risk_per_unit == MAX_LOSS_PER_TRADE_EUR
        /\ actual_risk sz == MAX_LOSS_PER_TRADE_EUR * modifier).
Proof.
  intros Hprice Hstop Hdiff risk_per_unit.
  assert (Hrpu : ~ risk_per_unit == 0).
  { unfold risk_per_unit. rewrite Qabs_zero_iff. lra. }
  assert (Hpos : 0 < risk_per_unit).
  { pose proof (Qabs_nonneg (execution_price - stop_loss)). fold risk_per_unit in H.
    apply Qle_lteq in H. destruct H as [H | H]; [exact H |]. exfalso. apply Hrpu.
    symmetry. exact H. }
  unfold position_sizing. cbv zeta. unfold opt_truthy.
  rewrite (q_truthy_true stop_loss Hstop).
  change (default 0 (Some stop_loss)) with stop_loss.
  change (negb true) with false. cbv iota. fold risk_per_unit.
  clearbody risk_per_unit.
  destruct (Qeq_bool risk_per_unit 0) eqn:Ez.
  { apply Qeq_bool_iff in Ez. contradiction. }
  assert (Hmod : forall a : Q,
            (if Qeq_bool modifier 1 then a else a * modifier) == a * modifier).
  { intros a. destruct (Qeq_bool modifier 1) eqn:Em; [| reflexivity].
    apply Qeq_bool_iff in Em. rewrite Em. ring. }
  destruct (Qgtb (MAX_LOSS_PER_TRADE_EUR / risk_per_unit * execution_price / GAULS_LEVERAGE)
              available) eqn:Egt.
  - (* the margin does not suffice: scale down *)
    unfold py_div. rewrite (q_truthy_true execution_price) by lra.
    apply Qgtb_gt in Egt.
    assert (Hrisk : available * MARGIN_USAGE_PCT * GAULS_LEVERAGE / execution_price
                    * risk_per_unit < MAX_LOSS_PER_TRADE_EUR).
    { unfold MAX_LOSS_PER_TRADE_EUR, GAULS_LEVERAGE, MARGIN_USAGE_PCT in *.
      assert (H1 : 10 * (available * risk_per_unit) < 25 * execution_price).
      { apply (Qmult_lt_r _ _ (10 * risk_per_unit)) in Egt; [| lra].
        assert (Heq : 25 / risk_per_unit * execution_price / 10 * (10 * risk_per_unit)
                      == 25 * execution_price) by (field; exact Hrpu).
        rewrite Heq in Egt. lra. }
      apply (Qmult_lt_r _ _ execution_price); [exact Hprice |].
      assert (Heq2 : available * (9 # 10) * 10 / execution_price * risk_per_unit
                     * execution_price == 9 * (available * risk_per_unit))
        by (field; lra).
      rewrite Heq2.
      destruct (Qlt_le_dec (available * risk_per_unit) 0); lra. }
    destruct (Qeq_bool modifier 1) eqn:Em;
      (eexists; split; [reflexivity |];
       cbn [margin_required quantity max_units actual_risk position_value scaled_down];
       split; [reflexivity |]; split; [apply Hmod |]; split;
       [ intros _; split; [reflexivity |]; split; [reflexivity |]; split; [reflexivity |];
         split; [apply Hmod | exact Hrisk]
       | intros Hle; exfalso; exact (Qlt_not_le _ _ Egt Hle) ]).
  - (* the margin suffices *)
    apply Qgtb_false in Egt.
    destruct (Qeq_bool modifier 1) eqn:Em;
      (eexists; split; [reflexivity |];
       cbn [margin_required quantity max_units actual_risk position_value scaled_down];
       split; [reflexivity |]; split; [apply Hmod |]; split;
       [ intros Hlt; exfalso; exact (Qlt_not_le _ _ Hlt Egt)
       | intros _; split; [reflexivity |]; split; [reflexivity |];
         split; [field; exact Hrpu | apply Hmod] ]).
Qed.

Lemma C7_witness :
  exists sz, position_sizing (Some 99) 100 200 1 = Some sz
    /\ scaled_down sz = true
    /\ quantity sz == 18
    /\ max_units sz * Qabs (100 - 99) < MAX_LOSS_PER_TRADE_EUR.
Proof.
  destruct (C7_margin_scale_down_and_fixed_risk 99 100 200 1)
    as (sz & Hsz & Hmargin & Hq & Hscaled & _).
  - reflexivity.
  - discriminate.
  - discriminate.
  - assert (Hlt : 200 < margin_required sz) by (rewrite Hmargin; reflexivity).
    destruct (Hscaled Hlt) as (Hs & Hpv & Hu & _ & Hrisk).
    exists sz. split; [exact Hsz |]. split; [exact Hs |].
    split; [rewrite Hq, Hu, Hpv; reflexivity | exact Hrisk].
Defined.

End CopyTraderSpec.

(** ** Further properties of the signal parser *)

Module SignalParserFacts.
Import PyStr Re Truth TruthFacts PyFloat SignalParser Scenarios.
#[local] Open Scope Q_scope.
#[local] Arguments Some {A} & a.

Lemma take_digits_all_digits (s : pystr) : forallb is_ascii_digit (take_digits s) = true.
Proof.
  induction s as [| c s IH]; simpl; [reflexivity |].
  destruct (is_ascii_digit c) eqn:E; simpl; [rewrite E; exact IH | reflexivity].
Qed.

Lemma int_of_digits_nonneg (s : pystr) :
  forallb is_ascii_digit s = true -> (0 <= int_of s)%Z.
Proof.
  unfold int_of.
  assert (H : forall acc : Z, (0 <= acc)%Z -> forallb is_ascii_digit s = true ->
                (0 <= fold_left (fun a c => a * 10 + digit_val c) s acc)%Z).
  { induction s as [| c s IH]; intros acc Hacc Hall; simpl; [exact Hacc |].
    simpl in Hall. apply andb_true_iff in Hall. destruct Hall as [Hc Hs].
    apply IH; [| exact Hs].
    unfold is_ascii_digit in Hc. apply andb_true_iff in Hc. destruct Hc as [Hlo _].
    apply N.leb_le in Hlo. unfold digit_val. lia. }
  apply H. lia.
Qed.

(** The number of a captured literal is never negative. *)
Lemma decimal_of_nonneg (s : pystr) (q : Q) : decimal_of s = Some q -> 0 <= q.
Proof.
  unfold decimal_of.
  pose proof (int_of_digits_nonneg (take_digits s) (take_digits_all_digits s)) as Hip.
  destruct (take_digits s) as [| c ip] eqn:E; [discriminate |].
  rewrite <- E in *. clear E.
  assert (Hint : 0 <= inject_Z (int_of (take_digits s))).
  { change 0 with (inject_Z 0). rewrite <- Zle_Qle. exact Hip. }
  destruct (drop (length (take_digits s)) s) as [| d fp].
  - intros [= <-]. exact Hint.
  - destruct d as [| d]; [discriminate |].
    destruct (Pos.eq_dec d 46%positive) as [-> | Hd].
    + destruct (forallb is_ascii_digit fp) eqn:Hfp; [| discriminate].
      intros [= <-].
      pose proof (int_of_digits_nonneg fp Hfp) as Hf.
      assert (Hpow : 0 < inject_Z (10 ^ Z.of_nat (length fp))).
      { change 0 with (inject_Z 0). rewrite <- Zlt_Qlt. apply Z.pow_pos_nonneg; lia. }
      assert (Hfrac : 0 <= inject_Z (int_of fp) / inject_Z (10 ^ Z.of_nat (length fp))).
      { apply Qle_shift_div_l; [exact Hpow |]. rewrite Qmult_0_l.
        change 0 with (inject_Z 0). rewrite <- Zle_Qle. exact Hf. }
      lra.
    + intros H. exfalso.
      repeat (destruct d as [d | d |]; simpl in H;
              try discriminate H; try (apply Hd; reflexivity)).
Qed.

(** A float that is a number not below 0, or plus infinity. *)
Definition nonneg (a : pyfloat) : Prop := fle (Finite 0) a.

Lemma round_half_even_nonneg (q : Q) : 0 <= q -> (0 <= round_half_even q)%Z.
Proof.
  intros Hq. unfold round_half_even.
  assert (Hn : (0 <= Qnum q)%Z).
  { unfold Qle in Hq. simpl in Hq. lia. }
  assert (Hf : (0 <= Qnum q / Z.pos (Qden q))%Z) by (apply Z.div_pos; lia).
  destruct (2 * (Qnum q mod Z.pos (Qden q)) ?= Z.pos (Qden q))%Z;
    [destruct (Z.even _) | |]; lia.
Qed.

Lemma to_grid_nonneg (q : Q) : 0 <= q -> 0 <= to_grid q.
Proof.
  intros Hq. unfold to_grid.
  assert (H : 0 <= q * inject_Z (Z.pos grid_steps)).
  { apply Qmult_le_0_compat; [exact Hq |]. unfold Qle. simpl. lia. }
  apply round_half_even_nonneg in H. unfold Qle. simpl. lia.
Qed.

Lemma to_float_nonneg (q : Q) : 0 <= q -> nonneg (to_float q).
Proof.
  intros Hq. unfold to_float, nonneg.
  destruct (Qeq_bool q 0); [exact Hq |].
  destruct (Qle_bool overflow_bound (Qabs q)).
  - apply Qle_bool_iff in Hq. rewrite Hq. exact I.
  - destruct (Qltb (Qabs q) min_normal); [apply to_grid_nonneg |]; exact Hq.
Qed.

(** [float()] of a captured literal is a number not below 0 or plus
    infinity. *)
Lemma float_of_nonneg (s : pystr) (a : pyfloat) : float_of s = Some a -> nonneg a.
Proof.
  unfold float_of. destruct (decimal_of s) as [q |] eqn:E; [| discriminate].
  intros [= <-]. apply to_float_nonneg. exact (decimal_of_nonneg s q E).
Qed.

Lemma fadd_nonneg (a b : pyfloat) : nonneg a -> nonneg b -> nonneg (fadd a b).
Proof.
  unfold nonneg. destruct a as [x | | |], b as [y | | |]; simpl; try tauto.
  intros Hx Hy. apply to_float_nonneg. lra.
Qed.

Lemma fhalf_nonneg (a : pyfloat) : nonneg a -> nonneg (fhalf a).
Proof.
  unfold nonneg. destruct a as [x | | |]; simpl; try tauto.
  intros Hx. apply to_float_nonneg. apply Qle_shift_div_l; lra.
Qed.

(** A product of two such floats is one of them again, or nan. *)
Lemma fmul_nonneg (a b : pyfloat) :
  nonneg a -> nonneg b -> nonneg (fmul a b) \/ fmul a b = NaN.
Proof.
  unfold nonneg. destruct a as [x | | |], b as [y | | |]; simpl; try tauto.
  - intros Hx Hy. left. apply to_float_nonneg. nra.
  - intros Hx _. destruct (Qeq_bool x 0); [right; reflexivity | left].
    apply Qle_bool_iff in Hx. rewrite Hx. exact I.
  - intros _ Hy. destruct (Qeq_bool y 0); [right; reflexivity | left].
    apply Qle_bool_iff in Hy. rewrite Hy. exact I.
Qed.

Lemma truthy_nonneg_positive (a : pyfloat) :
  float_truthy a = true -> nonneg a -> flt (Finite 0) a.
Proof.
  unfold nonneg. destruct a as [q | | |]; simpl; try tauto.
  intros Ht Hq. apply q_truthy_spec in Ht.
  apply Qle_lteq in Hq. destruct Hq as [Hq | Hq]; [exact Hq |].
  exfalso. apply Ht. symmetry. exact Hq.
Qed.

Lemma parse_entry_nonneg (text : pystr) (p : pyfloat) (ty : entry_type)
      (h : option entry_hint) (tg : option pyfloat) :
  parse_entry text = Some (Some p, ty, h, tg) -> nonneg p.
Proof.
  unfold parse_entry.
  destruct (search IGNORECASE pat_entry_price text) as [m |]; [| discriminate].
  destruct (PyStr.eqb _ _).
  - destruct (group 2 m) as [[| c sp] |]; try discriminate.
    destruct (float_of (c :: sp)) as [t |] eqn:Ef; [| discriminate].
    cbv beta iota zeta delta [mbind option_bind].
    intros [= <- _ _ _]. apply float_of_nonneg in Ef.
    destruct t as [x | | |]; simpl in *; try tauto.
    apply to_float_nonneg. unfold nonneg in Ef. simpl in Ef.
    unfold conservative_buffer. nra.
  - destruct (float_of (group_str 1 m)) as [t |] eqn:Ef; [| discriminate].
    cbv beta iota zeta delta [mbind option_bind].
    intros [= <- _ _ _]. exact (float_of_nonneg _ _ Ef).
Qed.

(** The target and the entry after the take-profit step: the target is a
    number not below 0, plus infinity or nan; the entry is the one before
    the step or the middle of an entry range. *)
Lemma parse_take_profit_cases (text : pystr) (entry0 : option pyfloat)
      (tp entry rr : option pyfloat) :
  (forall e, entry0 = Some e -> nonneg e) ->
  parse_take_profit text entry0 = Some (tp, entry, rr) ->
  (forall a, tp = Some a -> nonneg a \/ a = NaN)
  /\ (forall e, entry = Some e -> nonneg e)
  /\ (entry = entry0 \/ opt_float_truthy entry0 = false).
Proof.
  intros Hentry. unfold parse_take_profit.
  destruct (search IGNORECASE pat_take_profit text) as [m |].
  2:{ intros [= <- <- _]. repeat split; [discriminate | exact Hentry | left; reflexivity]. }
  destruct (float_of (group_str 1 m)) as [value |] eqn:Ev; [| discriminate].
  cbv beta iota zeta delta [mbind option_bind].
  apply float_of_nonneg in Ev.
  destruct (PyStr.eqb _ _).
  - destruct (opt_float_truthy entry0) eqn:Et.
    + destruct entry0 as [e |]; [| discriminate].
      intros [= <- <- _]. split; [| split; [exact Hentry | left; reflexivity]].
      intros a [= <-]. apply fmul_nonneg; [exact (Hentry e eq_refl) | exact Ev].
    + unfold multiplier_without_entry.
      destruct (search NOFLAGS pat_entry_range text) as [rm |].
      * destruct (float_of (group_str 1 rm)) as [lo |] eqn:El; [| discriminate].
        destruct (float_of (group_str 2 rm)) as [hi |] eqn:Eh; [| discriminate].
        cbv beta iota zeta delta [mbind option_bind].
        apply float_of_nonneg in El, Eh.
        assert (Hmid : nonneg (fhalf (fadd lo hi)))
          by (apply fhalf_nonneg, fadd_nonneg; assumption).
        intros [= <- <- _]. split; [| split; [| right; reflexivity]].
        -- intros a [= <-]. apply fmul_nonneg; assumption.
        -- intros e [= <-]. exact Hmid.
      * intros [= <- <- _]. split; [| split; [exact Hentry | left; reflexivity]].
        intros a [= <-]. left. exact Ev.
  - intros [= <- <- _]. split; [| split; [exact Hentry | left; reflexivity]].
    intros a [= <-]. left. exact Ev.
Qed.

Lemma parse_stop_loss_nonneg (text : pystr) (sl : pyfloat) :
  parse_stop_loss text = Some (Some sl) -> nonneg sl.
Proof.
  unfold parse_stop_loss.
  destruct (search IGNORECASE pat_stop_loss text) as [m |]; [| discriminate].
  destruct (float_of (group_str 1 m)) as [v |] eqn:Ev; [| discriminate].
  cbv beta iota zeta delta [mbind option_bind].
  intros [= <-]. exact (float_of_nonneg _ _ Ev).
Qed.

(** The steps of [parse_signal] behind an accepted signal. *)
Lemma parse_signal_steps (text : pystr) (sg : signal) :
  parse_signal text = Some sg ->
  exists symbol_match entry0 etype hint0 target sl tp entry rr0 rr,
    search IGNORECASE pat_symbol text = Some symbol_match
    /\ parse_entry text = Some (entry0, etype, hint0, target)
    /\ parse_stop_loss text = Some sl
    /\ parse_take_profit text entry0 = Some (tp, entry, rr0)
    /\ parse_risk_reward text rr0 = Some rr
    /\ opt_float_truthy sl = true /\ opt_float_truthy tp = true
    /\ sg = {| symbol := group_str 1 symbol_match ++ u "/USDT";
               sig_side := Buy; entry_price := entry; sig_entry_type := etype;
               sig_entry_hint := parse_hint text hint0;
               stop_loss := sl; take_profit := tp; risk_reward := rr;
               conviction := u "high"; raw_text := text; source := u "gauls_copy";
               original_target := target |}.
Proof.
  unfold parse_signal.
  destruct (matches IGNORECASE pat_buying_setup text); [simpl | discriminate].
  destruct (search IGNORECASE pat_symbol text) as [symbol_match |] eqn:E1;
    [simpl | discriminate].
  destruct (parse_entry text) as [[[[entry0 etype] hint0] target] |] eqn:E2;
    [simpl | discriminate].
  destruct (parse_stop_loss text) as [sl |] eqn:E3; [simpl | discriminate].
  destruct (parse_take_profit text entry0) as [[[tp entry] rr0] |] eqn:E4;
    [simpl | discriminate].
  destruct (parse_risk_reward text rr0) as [rr |] eqn:E5; [simpl | discriminate].
  destruct (negb _); [simpl | discriminate].
  destruct (opt_float_truthy sl) eqn:Hsl; [simpl | discriminate].
  destruct (opt_float_truthy tp) eqn:Htp; [| discriminate].
  intros [= <-].
  exists symbol_match, entry0, etype, hint0, target, sl, tp, entry, rr0, rr.
  repeat split; assumption.
Qed.

(** X1: every accepted signal is a long on a "/USDT" symbol that carries the
    message text unchanged and has a stop-loss and a take-profit.  The
    stop-loss is strictly positive (plus infinity for a literal beyond the
    range of a float); the take-profit is strictly positive, or nan. *)
Theorem accepted_signal_is_well_formed (text : pystr) (sg : signal) :
  parse_signal text = Some sg ->
  sig_side sg = Buy
  /\ raw_text sg = text
  /\ source sg = u "gauls_copy"
  /\ (exists sym, symbol sg = sym ++ u "/USDT")
  /\ (exists sl, stop_loss sg = Some sl /\ flt (Finite 0) sl)
  /\ (exists tp, take_profit sg = Some tp /\ (flt (Finite 0) tp \/ tp = NaN)).
Proof.
  intros H. apply parse_signal_steps in H.
  destruct H as (sm & entry0 & etype & hint0 & target & sl & tp & entry & rr0 & rr
                 & _ & Hentry & Hsl & Htp & _ & Tsl & Ttp & ->).
  simpl. split; [reflexivity |]. split; [reflexivity |]. split; [reflexivity |].
  split; [eexists; reflexivity |].
  destruct sl as [sl |]; [| discriminate]. destruct tp as [tp |]; [| discriminate].
  simpl in Tsl, Ttp. split.
  - exists sl. split; [reflexivity |].
    apply truthy_nonneg_positive; [exact Tsl |]. exact (parse_stop_loss_nonneg _ _ Hsl).
  - exists tp. split; [reflexivity |].
    assert (Hnn : forall e, entry0 = Some e -> nonneg e).
    { intros e ->. exact (parse_entry_nonneg _ _ _ _ _ Hentry). }
    destruct (parse_take_profit_cases _ _ _ _ _ Hnn Htp) as (Hcase & _).
    destruct (Hcase tp eq_refl) as [Hn | Hn]; [left | right; exact Hn].
    apply truthy_nonneg_positive; assumption.
Qed.

Lemma accepted_signal_witness :
  exists sg, parse_signal (u "$BTC Buying Setup: Entry: CMP TP: 114786 SL: 111468") = Some sg
    /\ sig_side sg = Buy
    /\ (exists sl, stop_loss sg = Some sl /\ flt (Finite 0) sl)
    /\ (exists tp, take_profit sg = Some tp /\ (flt (Finite 0) tp \/ tp = NaN)).
Proof.
  destruct (parse_signal (u "$BTC Buying Setup: Entry: CMP TP: 114786 SL: 111468"))
    as [sg |] eqn:E; [| vm_compute in E; discriminate].
  destruct (accepted_signal_is_well_formed _ sg E) as (Hside & _ & _ & _ & Hsl & Htp).
  exists sg. repeat split; assumption.
Defined.

Lemma parse_entry_limit (text : pystr) (entry0 : option pyfloat)
      (h : option entry_hint) (tg : option pyfloat) :
  parse_entry text = Some (entry0, Limit, h, tg) -> exists p, entry0 = Some p.
Proof.
  unfold parse_entry.
  destruct (search IGNORECASE pat_entry_price text) as [m |]; [| discriminate].
  destruct (PyStr.eqb _ _).
  - destruct (group 2 m) as [[| c sp] |]; try discriminate.
    destruct (float_of (c :: sp)) as [t |]; [| discriminate].
    cbv beta iota zeta delta [mbind option_bind].
    intros [= <- _ _]. eexists. reflexivity.
  - destruct (float_of (group_str 1 m)) as [t |]; [| discriminate].
    cbv beta iota zeta delta [mbind option_bind].
    intros [= <- _ _]. eexists. reflexivity.
Qed.

(** X2: an accepted signal of entry type limit always carries an entry
    price, and that price is not negative. *)
Theorem limit_signal_has_an_entry_price (text : pystr) (sg : signal) :
  parse_signal text = Some sg ->
  sig_entry_type sg = Limit ->
  exists p, entry_price sg = Some p /\ fle (Finite 0) p.
Proof.
  intros H. apply parse_signal_steps in H.
  destruct H as (sm & entry0 & etype & hint0 & target & sl & tp & entry & rr0 & rr
                 & _ & Hentry & _ & Htp & _ & _ & _ & ->).
  simpl. intros ->.
  destruct (parse_entry_limit _ _ _ _ Hentry) as (p & ->).
  assert (Hnn : forall e, Some p = Some e -> nonneg e).
  { intros e [= <-]. exact (parse_entry_nonneg _ _ _ _ _ Hentry). }
  destruct (parse_take_profit_cases _ _ _ _ _ Hnn Htp) as (_ & Hnonneg & Hsame).
  destruct entry as [e |].
  - exists e. split; [reflexivity |]. exact (Hnonneg e eq_refl).
  - exfalso. destruct Hsame as [Hsame | Hfalsy]; [discriminate |].
    unfold parse_take_profit in Htp.
    destruct (search IGNORECASE pat_take_profit text) as [m |]; [| discriminate].
    destruct (float_of (group_str 1 m)) as [value |]; [| discriminate].
    cbv beta iota zeta delta [mbind option_bind] in Htp. rewrite Hfalsy in Htp.
    destruct (PyStr.eqb _ _); [| discriminate].
    unfold multiplier_without_entry in Htp.
    destruct (search NOFLAGS pat_entry_range text) as [rm |]; [| discriminate].
    destruct (float_of (group_str 1 rm)); [| discriminate].
    destruct (float_of (group_str 2 rm)); discriminate.
Qed.

Lemma limit_signal_witness :
  exists sg p,
    parse_signal (u "$ETH Buying Setup: Entry: 3200 Target: 3500 SL: 3000") = Some sg
    /\ sig_entry_type sg = Limit
    /\ entry_price sg = Some p /\ fle (Finite 0) p.
Proof.
  destruct (parse_signal (u "$ETH Buying Setup: Entry: 3200 Target: 3500 SL: 3000"))
    as [sg |] eqn:E; [| vm_compute in E; discriminate].
  assert (Hty : sig_entry_type sg = Limit)
    by (vm_compute in E; injection E as <-; reflexivity).
  destruct (limit_signal_has_an_entry_price _ sg E Hty) as (p & Hp & Hpos).
  exists sg, p. repeat split; assumption.
Defined.

Lemma parse_entry_target (text : pystr) (entry0 : option pyfloat) (ty : entry_type)
      (h : option entry_hint) (t : pyfloat) :
  parse_entry text = Some (entry0, ty, h, Some t) ->
  ty = Limit /\ entry0 = Some (fmul t (Finite (1 + conservative_buffer))).
Proof.
  unfold parse_entry.
  destruct (search IGNORECASE pat_entry_price text) as [m |]; [| discriminate].
  destruct (PyStr.eqb _ _).
  - destruct (group 2 m) as [[| c sp] |]; try discriminate.
    destruct (float_of (c :: sp)) as [t' |] eqn:Ef; [| discriminate].
    cbv beta iota zeta delta [mbind option_bind].
    intros [= <- <- _ <-]. split; reflexivity.
  - destruct (float_of (group_str 1 m)) as [t' |]; [| discriminate].
    cbv beta iota zeta delta [mbind option_bind]. discriminate.
Qed.

(** A result in the normal range is itself, or plus infinity. *)
Lemma to_float_normal (q : Q) :
  min_normal <= q -> to_float q = Finite q \/ to_float q = PosInf.
Proof.
  intros Hq.
  assert (Hpos : 0 < q).
  { apply Qlt_le_trans with min_normal; [reflexivity | exact Hq]. }
  unfold to_float.
  destruct (Qeq_bool q 0); [left; reflexivity |].
  destruct (Qle_bool overflow_bound (Qabs q)).
  - right. assert (H : Qle_bool 0 q = true) by (apply Qle_bool_iff; lra).
    rewrite H. reflexivity.
  - left. assert (H : Qltb (Qabs q) min_normal = false).
    { apply Bool.not_true_iff_false. intros H. apply Qltb_lt in H.
      rewrite Qabs_pos in H by lra. lra. }
    rewrite H. reflexivity.
Qed.

(** X3: a signal that records an original target ("CMP down to <price>") in
    the normal range of the floats is a limit entry at the target times
    1.0063, which is strictly above the target the message stated (plus
    infinity when the product leaves the range). *)
Theorem conservative_limit_is_above_the_stated_target (text : pystr) (sg : signal) (t : Q) :
  parse_signal text = Some sg ->
  original_target sg = Some (Finite t) ->
  min_normal <= t ->
  sig_entry_type sg = Limit
  /\ entry_price sg = Some (fmul (Finite t) (Finite (1 + conservative_buffer)))
  /\ flt (Finite t) (fmul (Finite t) (Finite (1 + conservative_buffer))).
Proof.
  intros H. apply parse_signal_steps in H.
  destruct H as (sm & entry0 & etype & hint0 & target & sl & tp & entry & rr0 & rr
                 & _ & Hentry & _ & Htp & _ & _ & _ & ->).
  simpl. intros -> Hnormal.
  destruct (parse_entry_target _ _ _ _ _ Hentry) as (-> & ->).
  assert (Hpos : 0 < t).
  { apply Qlt_le_trans with min_normal; [reflexivity | exact Hnormal]. }
  assert (Habove : t < t * (1 + conservative_buffer))
    by (unfold conservative_buffer; nra).
  assert (Hproduct : fmul (Finite t) (Finite (1 + conservative_buffer))
                     = Finite (t * (1 + conservative_buffer))
                     \/ fmul (Finite t) (Finite (1 + conservative_buffer)) = PosInf).
  { apply to_float_normal. lra. }
  assert (Hflt : flt (Finite t) (fmul (Finite t) (Finite (1 + conservative_buffer)))).
  { destruct Hproduct as [-> | ->]; [exact Habove | exact I]. }
  split; [reflexivity |]. split; [| exact Hflt].
  assert (Hnn : forall e, Some (fmul (Finite t) (Finite (1 + conservative_buffer))) = Some e
                          -> nonneg e).
  { intros e [= <-]. apply to_float_nonneg. lra. }
  destruct (parse_take_profit_cases _ _ _ _ _ Hnn Htp) as (_ & _ & Hsame).
  destruct Hsame as [-> | Hfalsy]; [reflexivity |].
  exfalso. unfold opt_float_truthy in Hfalsy.
  destruct Hproduct as [Hp | Hp]; rewrite Hp in Hfalsy; simpl in Hfalsy;
    [| discriminate].
  rewrite q_truthy_true in Hfalsy; [discriminate |]. intros Hz. rewrite Hz in Habove. lra.
Qed.

Lemma conservative_limit_witness :
  exists sg, parse_signal scenario_B_down_to = Some sg
    /\ original_target sg = Some (Finite (inject_Z 2780))
    /\ sig_entry_type sg = Limit
    /\ entry_price sg
       = Some (fmul (Finite (inject_Z 2780)) (Finite (1 + conservative_buffer)))
    /\ flt (Finite (inject_Z 2780))
           (fmul (Finite (inject_Z 2780)) (Finite (1 + conservative_buffer))).
Proof.
  destruct (parse_signal scenario_B_down_to) as [sg |] eqn:E;
    [| vm_compute in E; discriminate].
  assert (Ht : original_target sg = Some (Finite (inject_Z 2780)))
    by (vm_compute in E; injection E as <-; reflexivity).
  destruct (conservative_limit_is_above_the_stated_target _ sg (inject_Z 2780) E Ht)
    as (Hty & Hp & Hlt); [vm_compute; discriminate |].
  exists sg. repeat split; assumption.
Defined.

(** X27: the claim that a zero stop-loss or take-profit value gives no
    signal holds but for one case.  A text whose stop-loss value is 0 is
    never accepted; a text whose take-profit value is 0 is accepted only
    when the value is a multiplier of an infinite entry price, the
    take-profit stored being nan. *)
Theorem zero_value_is_accepted_only_as_nan (text : pystr) (sg : signal) (q : Q) :
  q == 0 ->
  parse_signal text = Some sg ->
  parse_stop_loss text <> Some (Some (Finite q))
  /\ forall tp_match,
       search IGNORECASE pat_take_profit text = Some tp_match ->
       float_of (group_str 1 tp_match) = Some (Finite q) ->
       group_str 2 tp_match = u "x"
       /\ entry_price sg = Some PosInf
       /\ take_profit sg = Some NaN.
Proof.
  intros Hq H. apply parse_signal_steps in H.
  destruct H as (sm & entry0 & etype & hint0 & target & sl & tp & entry & rr0 & rr
                 & _ & Hentry & Hsl & Htp & _ & Tsl & Ttp & ->).
  simpl. split.
  - intros Hzero. rewrite Hzero in Hsl. injection Hsl as <-.
    simpl in Tsl. rewrite (q_truthy_false q Hq) in Tsl. discriminate.
  - intros tp_match Hmatch Hvalue.
    assert (Hzero : forall e : pyfloat, nonneg e ->
              float_truthy (fmul e (Finite q)) = true ->
              e = PosInf /\ fmul e (Finite q) = NaN).
    { intros e He Ht. unfold nonneg in He.
      destruct e as [x | | |]; simpl in *; try tauto.
      - exfalso. unfold to_float in Ht.
        assert (Hx : x * q == 0) by (rewrite Hq; ring).
        apply Qeq_bool_iff in Hx. rewrite Hx in Ht. simpl in Ht.
        rewrite q_truthy_false in Ht; [discriminate |]. rewrite Hq. ring.
      - apply Qeq_bool_iff in Hq. rewrite Hq. split; reflexivity. }
    unfold parse_take_profit in Htp. rewrite Hmatch, Hvalue in Htp.
    cbv beta iota zeta delta [mbind option_bind] in Htp.
    destruct (PyStr.eqb (group_str 2 tp_match) (u "x")) eqn:Hx.
    2:{ exfalso. injection Htp as <- _ _. simpl in Ttp.
        rewrite (q_truthy_false q Hq) in Ttp. discriminate. }
    split; [apply CopyTraderSpec.pystr_eqb_eq; exact Hx |].
    destruct (opt_float_truthy entry0) eqn:Et.
    + destruct entry0 as [e |]; [| discriminate].
      injection Htp as <- <- _. simpl in Ttp.
      destruct (Hzero e (parse_entry_nonneg _ _ _ _ _ Hentry) Ttp) as [-> ->].
      split; reflexivity.
    + unfold multiplier_without_entry in Htp.
      destruct (search NOFLAGS pat_entry_range text) as [rm |].
      * destruct (float_of (group_str 1 rm)) as [lo |] eqn:El; [| discriminate].
        destruct (float_of (group_str 2 rm)) as [hi |] eqn:Eh; [| discriminate].
        cbv beta iota zeta delta [mbind option_bind] in Htp.
        apply float_of_nonneg in El, Eh.
        injection Htp as <- <- _. simpl in Ttp.
        destruct (Hzero (fhalf (fadd lo hi))) as [Hmid Hnan];
          [apply fhalf_nonneg, fadd_nonneg; assumption | exact Ttp |].
        rewrite Hnan, Hmid. split; reflexivity.
      * exfalso. injection Htp as <- _ _. simpl in Ttp.
        rewrite (q_truthy_false q Hq) in Ttp. discriminate.
Qed.

Lemma zero_value_witness :
  parse_stop_loss overflowing_entry <> Some (Some (Finite 0))
  /\ forall tp_match,
       search IGNORECASE pat_take_profit overflowing_entry = Some tp_match ->
       float_of (group_str 1 tp_match) = Some (Finite 0) ->
       group_str 2 tp_match = u "x"
       /\ entry_price {| symbol := u "BTC/USDT"; sig_side := Buy;
                         entry_price := Some PosInf; sig_entry_type := Limit;
                         sig_entry_hint := None; stop_loss := Some (Finite 100);
                         take_profit := Some NaN; risk_reward := None;
                         conviction := u "high"; raw_text := overflowing_entry;
                         source := u "gauls_copy"; original_target := None |}
          = Some PosInf
       /\ take_profit {| symbol := u "BTC/USDT"; sig_side := Buy;
                         entry_price := Some PosInf; sig_entry_type := Limit;
                         sig_entry_hint := None; stop_loss := Some (Finite 100);
                         take_profit := Some NaN; risk_reward := None;
                         conviction := u "high"; raw_text := overflowing_entry;
                         source := u "gauls_copy"; original_target := None |}
          = Some NaN.
Proof.
  apply (zero_value_is_accepted_only_as_nan overflowing_entry _ 0).
  - reflexivity.
  - vm_compute. reflexivity.
Defined.

End SignalParserFacts.

(** ** Further properties of the exit monitor *)

Module ExitMonitorFacts.
Import PyStr Truth TruthFacts Ledger ExitMonitor Notions Scenarios Bookkeeping.
#[local] Open Scope Q_scope.

Lemma place_keeps_ledger (E : exchange) (o : order) (w : world) :
  trades (fst (place E o w)) = trades w
  /\ partial_exits (fst (place E o w)) = partial_exits w
  /\ processed_gauls_updates (fst (place E o w)) = processed_gauls_updates w
  /\ processed_gauls_signals (fst (place E o w)) = processed_gauls_signals w
  /\ all_gauls_messages (fst (place E o w)) = all_gauls_messages w.
Proof. unfold place. destruct (rejects E o); repeat split. Qed.

Lemma remaining_of_truthy (r : trade) (q : Q) :
  t_remaining_quantity r = Some q -> 0 < q -> remaining_of r = q.
Proof.
  intros Hr Hq. unfold remaining_of, q_or. rewrite Hr.
  rewrite q_truthy_true; [reflexivity |]. intros Hz. rewrite Hz in Hq. lra.
Qed.

Lemma py_min_bounds (a b : Q) : 0 <= a -> 0 <= b -> 0 <= py_min a b /\ py_min a b <= b.
Proof.
  intros Ha Hb. unfold py_min. destruct (Qltb b a) eqn:E.
  - split; [exact Hb | apply Qle_refl].
  - split; [exact Ha |]. unfold Qltb in E. apply negb_false_iff in E.
    apply Qle_bool_iff in E. exact E.
Qed.

(** What a row can be after [execute_partial_exit]: the row as it was (the
    call rolled back or found nothing), or the remaining quantity reduced by
    the exit, or 0. *)
Lemma execute_partial_exit_row (E : exchange) (now id : Z) (w : world) (r : trade)
      (price pct : Q) (level : Z) (nsl : option Q) :
  trades w !! id = Some r ->
  let w' := execute_partial_exit E now id price pct level nsl w in
  let exit_quantity := py_min (original_of r * pct) (remaining_of r) in
  let pnl := pnl_per_unit (t_side r) (t_entry_price r) price * exit_quantity in
  (trades w' = trades w /\ partial_exits w' = partial_exits w)
  \/ (exists r' n,
        trades w' = <[id := r']> (trades w)
        /\ t_partial_exits_done r = Some n
        /\ t_partial_exits_done r' = Some (n + 1)%Z
        /\ t_partial_pnl r' = sql_add (t_partial_pnl r) pnl
        /\ t_side r' = t_side r /\ t_entry_price r' = t_entry_price r
        /\ t_symbol r' = t_symbol r
        /\ (exists pe, partial_exits w' = partial_exits w ++ [pe]
              /\ pe_trade_id pe = id /\ pe_pnl pe = pnl
              /\ pe_quantity_exited pe = exit_quantity)
        /\ ((t_status r' = StClosed /\ t_remaining_quantity r' = Some 0
             /\ t_pnl r' = sql_add (t_partial_pnl r) pnl
             /\ t_stop_loss r' = t_stop_loss r
             /\ remaining_of r - exit_quantity <= epsilon)
            \/ (t_status r' = t_status r
                /\ t_remaining_quantity r' = Some (remaining_of r - exit_quantity)
                /\ t_stop_loss r' = nsl /\ t_pnl r' = t_pnl r
                /\ epsilon < remaining_of r - exit_quantity))).
Proof.
  intros Hr. cbv zeta. unfold execute_partial_exit. rewrite Hr.
  fold (original_of r). fold (remaining_of r).
  destruct (place_keeps_ledger E
              {| o_symbol := t_symbol r; o_type := MarketOrder;
                 o_side := opposite (t_side r);
                 o_amount := py_min (original_of r * pct) (remaining_of r);
                 o_price := None; o_leverage := None |} w) as (Ht & Hp & _).
  destruct (place E _ w) as [w1 err]. simpl in Ht, Hp.
  destruct (t_partial_exits_done r) as [n |] eqn:Hn; [| left; split; assumption].
  destruct (Qleb _ epsilon) eqn:Heps.
  - right. apply Qleb_le in Heps. eexists. exists n. simpl. rewrite Ht, Hp.
    split; [reflexivity |]. repeat split; try reflexivity.
    + eexists. repeat split; reflexivity.
    + left. repeat split; try reflexivity. exact Heps.
  - destruct nsl as [nsl |]; [| left; split; assumption].
    right. apply Qleb_false in Heps. eexists. exists n. simpl. rewrite Ht, Hp.
    split; [reflexivity |]. repeat split; try reflexivity.
    + eexists. repeat split; reflexivity.
    + right. repeat split; try reflexivity. exact Heps.
Qed.

(** What a poll does to the ledger, case by case: nothing, a full close by
    the stop, or one of the two partial exits. *)
(** The row a partial exit leaves open, field by field. *)
Lemma execute_partial_exit_open_row (E : exchange) (now id : Z) (w : world) (r : trade)
      (price pct : Q) (level n : Z) (nsl : Q) :
  trades w !! id = Some r ->
  t_partial_exits_done r = Some n ->
  epsilon < remaining_of r - py_min (original_of r * pct) (remaining_of r) ->
  exists r',
    trades (execute_partial_exit E now id price pct level (Some nsl) w)
    = <[id := r']> (trades w)
    /\ t_stop_loss r' = Some nsl
    /\ t_remaining_quantity r'
       = Some (remaining_of r - py_min (original_of r * pct) (remaining_of r))
    /\ t_side r' = t_side r /\ t_entry_price r' = t_entry_price r
    /\ t_symbol r' = t_symbol r /\ t_status r' = t_status r
    /\ t_leverage r' = t_leverage r /\ t_strategy r' = t_strategy r.
Proof.
  intros Hr Hn Hrem. unfold execute_partial_exit. rewrite Hr.
  fold (original_of r). fold (remaining_of r).
  unfold place. rewrite Hn.
  apply Qleb_false in Hrem. rewrite Hrem.
  destruct (rejects E _) as [err |]; simpl;
    eexists; repeat split; reflexivity.
Qed.

Lemma poll_trade_cases (E : exchange) (now id : Z) (w : world) (r : trade) :
  trades w !! id = Some r ->
  snd (poll_trade E now id w) = w
  \/ (exists price reason,
        t_status r = StOpen
        /\ snd (poll_trade E now id w) = close_remaining_position E now id price reason w)
  \/ (exists price pct level nsl,
        t_status r = StOpen /\ 0 <= pct
        /\ snd (poll_trade E now id w)
           = execute_partial_exit E now id price pct level nsl w).
Proof.
  intros Hr. unfold poll_trade. rewrite Hr.
  destruct (t_status r) eqn:Hst; try (left; reflexivity).
  destruct (last_price E (t_symbol r)) as [price |]; [| left; reflexivity].
  unfold check_exit_conditions. simpl.
  destruct (t_side r);
    repeat match goal with
           | |- context [if ?c then _ else _] => destruct c
           end; simpl;
    try (left; reflexivity);
    try (right; left; do 2 eexists; split; [reflexivity | reflexivity]);
    right; right; do 4 eexists; (split; [reflexivity |]); (split; [| reflexivity]);
    unfold tp1_exit_percent, tp2_exit_percent; lra.
Qed.

(** X4: a poll never raises the remaining quantity of the position and
    never makes it negative: with a positive remaining quantity and a
    non-negative original quantity before, the quantity afterwards lies
    between 0 and the one before. *)
Theorem poll_never_raises_the_remaining_quantity
        (E : exchange) (now id : Z) (w : world) (r : trade) (q : Q) :
  trades w !! id = Some r ->
  t_remaining_quantity r = Some q ->
  0 < q ->
  0 <= original_of r ->
  exists r' q',
    trades (snd (poll_trade E now id w)) !! id = Some r'
    /\ t_remaining_quantity r' = Some q'
    /\ 0 <= q' /\ q' <= q.
Proof.
  intros Hr Hq Hpos Horig.
  destruct (poll_trade_cases E now id w r Hr)
    as [-> | [(price & reason & _ & ->) | (price & pct & level & nsl & _ & Hpct & ->)]].
  - exists r, q. split; [exact Hr |]. split; [exact Hq |]. lra.
  - destruct (ExitMonitorSpec.close_remaining_position_closes E now id price reason w r Hr)
      as (r' & Ht & _ & Hrem & _).
    exists r', 0. rewrite Ht, lookup_insert_eq.
    split; [reflexivity |]. split; [exact Hrem |]. lra.
  - destruct (execute_partial_exit_row E now id w r price pct level nsl Hr)
      as [(Ht & _) | (r' & n & Ht & _ & _ & _ & _ & _ & _ & _ & Hcase)].
    + exists r, q. rewrite Ht. split; [exact Hr |]. split; [exact Hq |]. lra.
    + exists r'. rewrite Ht, lookup_insert_eq.
      destruct Hcase as [(_ & Hrem & _) | (_ & Hrem & _)].
      * exists 0. split; [reflexivity |]. split; [exact Hrem |]. lra.
      * eexists. split; [reflexivity |]. split; [exact Hrem |].
        rewrite (remaining_of_truthy r q Hq Hpos).
        assert (0 <= original_of r * pct) by nra.
        destruct (py_min_bounds (original_of r * pct) q) as [H1 H2]; lra.
Qed.

Lemma poll_quantity_witness :
  exists r' q',
    trades (snd (poll_trade (quoting 111) 0 1 scenario_C)) !! 1%Z = Some r'
    /\ t_remaining_quantity r' = Some q'
    /\ 0 <= q' /\ q' <= 10.
Proof.
  apply (poll_never_raises_the_remaining_quantity (quoting 111) 0%Z 1%Z scenario_C
           (open_trade (u "BTC/USDT") Buy 100 10 90 110 0) 10).
  - vm_compute; reflexivity.
  - reflexivity.
  - reflexivity.
  - vm_compute; discriminate.
Defined.

(** X5: a poll of one position leaves every other row of the ledger as it
    was, and adds at most one partial exit, which belongs to the polled
    position. *)
Theorem poll_touches_only_its_own_row (E : exchange) (now id : Z) (w : world) :
  let w' := snd (poll_trade E now id w) in
  (forall other, other <> id -> trades w' !! other = trades w !! other)
  /\ (partial_exits w' = partial_exits w
      \/ exists pe, partial_exits w' = partial_exits w ++ [pe] /\ pe_trade_id pe = id)
  /\ processed_gauls_signals w' = processed_gauls_signals w
  /\ processed_gauls_updates w' = processed_gauls_updates w.
Proof.
  cbv zeta.
  destruct (trades w !! id) as [r |] eqn:Hr.
  2:{ unfold poll_trade. rewrite Hr. simpl. repeat split; auto. }
  destruct (poll_trade_cases E now id w r Hr)
    as [-> | [(price & reason & _ & ->) | (price & pct & level & nsl & _ & _ & ->)]].
  - repeat split; auto.
  - destruct (ExitMonitorSpec.close_remaining_position_closes E now id price reason w r Hr)
      as (r' & Ht & _ & _ & _ & _ & _ & _ & _ & Hpe & _).
    split; [intros other Hne; rewrite Ht; apply lookup_insert_ne; congruence |].
    split; [left; exact Hpe |].
    unfold close_remaining_position. rewrite Hr.
    destruct (place_keeps_ledger E
                {| o_symbol := t_symbol r; o_type := MarketOrder;
                   o_side := opposite (t_side r);
                   o_amount := match t_remaining_quantity r with
                               | Some q => q | None => t_quantity r end;
                   o_price := None; o_leverage := None |} w) as (_ & _ & Hu & Hs & _).
    destruct (place E _ w) as [w1 err]. simpl in *. split; assumption.
  - assert (Hmarkers :
      processed_gauls_signals (execute_partial_exit E now id price pct level nsl w)
      = processed_gauls_signals w
      /\ processed_gauls_updates (execute_partial_exit E now id price pct level nsl w)
         = processed_gauls_updates w).
    { unfold execute_partial_exit. rewrite Hr.
      destruct (place_keeps_ledger E
                  {| o_symbol := t_symbol r; o_type := MarketOrder;
                     o_side := opposite (t_side r);
                     o_amount := py_min (q_or (t_original_quantity r) (t_quantity r) * pct)
                                   (q_or (t_remaining_quantity r) (t_quantity r));
                     o_price := None; o_leverage := None |} w) as (_ & _ & Hu & Hs & _).
      destruct (place E _ w) as [w1 err]. simpl in Hu, Hs.
      destruct (t_partial_exits_done r); [| split; assumption].
      destruct (Qleb _ epsilon); [split; assumption |].
      destruct nsl; split; assumption. }
    destruct (execute_partial_exit_row E now id w r price pct level nsl Hr)
      as [(Ht & Hpe) | (r' & n & Ht & _ & _ & _ & _ & _ & _ & (pe & Hpe & Hid & _) & _)].
    + split; [intros other _; rewrite Ht; reflexivity |].
      split; [left; exact Hpe | exact Hmarkers].
    + split; [intros other Hne; rewrite Ht; apply lookup_insert_ne; congruence |].
      split; [right; exists pe; split; assumption | exact Hmarkers].
Qed.

Lemma booked_pnl_app (rows : list partial_exit) (pe : partial_exit) (id : Z) :
  booked_pnl (rows ++ [pe]) id
  == booked_pnl rows id + (if Z.eqb (pe_trade_id pe) id then pe_pnl pe else 0).
Proof.
  induction rows as [| x rows IH]; simpl; [ring |]. rewrite IH. ring.
Qed.

(** X6: the partial P&L of a row stays equal to the sum of the P&L of its
    rows in [partial_exits] across a poll; and when the poll closes the
    position with its last partial exit, the realised P&L is that sum. *)
Theorem poll_keeps_partial_pnl_booked
        (E : exchange) (now id : Z) (w : world) (r : trade) (p : Q) :
  trades w !! id = Some r ->
  t_partial_pnl r = Some p ->
  p == booked_pnl (partial_exits w) id ->
  let w' := snd (poll_trade E now id w) in
  exists r' p',
    trades w' !! id = Some r'
    /\ t_partial_pnl r' = Some p'
    /\ p' == booked_pnl (partial_exits w') id
    /\ (partial_exits w' <> partial_exits w -> t_status r' = StClosed ->
        exists total, t_pnl r' = Some total
                      /\ total == booked_pnl (partial_exits w') id).
Proof.
  intros Hr Hp Hbooked. cbv zeta.
  destruct (poll_trade_cases E now id w r Hr)
    as [-> | [(price & reason & _ & ->) | (price & pct & level & nsl & Hopen & _ & ->)]].
  - exists r, p. split; [exact Hr |]. split; [exact Hp |]. split; [exact Hbooked |].
    intros Hne. exfalso. apply Hne. reflexivity.
  - pose proof (ExitMonitorSpec.close_remaining_position_closes E now id price reason w r Hr)
      as (r' & Ht & _ & _ & _ & _ & _ & _ & _ & Hpe & _).
    assert (Hpp : t_partial_pnl r' = t_partial_pnl r).
    { unfold close_remaining_position in Ht. rewrite Hr in Ht.
      destruct (place E _ w) as [w1 err]. simpl in Ht.
      assert (Hl : <[id := r']> (trades w) !! id = Some r') by apply lookup_insert_eq.
      rewrite <- Ht in Hl. unfold set_trades in Hl. simpl in Hl.
      rewrite lookup_insert_eq in Hl. injection Hl as <-. reflexivity. }
    exists r', p. rewrite Ht, lookup_insert_eq, Hpe.
    split; [reflexivity |]. split; [rewrite Hpp; exact Hp |]. split; [exact Hbooked |].
    intros Hne. exfalso. apply Hne. reflexivity.
  - destruct (execute_partial_exit_row E now id w r price pct level nsl Hr)
      as [(Ht & Hpe) | (r' & n & Ht & _ & _ & Hpp & _ & _ & _
                         & (pe & Hpe & Hid & Hpnl & _) & Hcase)].
    + exists r, p. rewrite Ht, Hpe.
      split; [exact Hr |]. split; [exact Hp |]. split; [exact Hbooked |].
      intros Hne. exfalso. apply Hne. reflexivity.
    + rewrite Hp in Hpp. simpl in Hpp.
      assert (Hsum : p + pnl_per_unit (t_side r) (t_entry_price r) price
                         * py_min (original_of r * pct) (remaining_of r)
                     == booked_pnl (partial_exits
                          (execute_partial_exit E now id price pct level nsl w)) id).
      { rewrite Hpe, booked_pnl_app, Hid, Z.eqb_refl, Hpnl, Hbooked. reflexivity. }
      exists r'. eexists. rewrite Ht, lookup_insert_eq.
      split; [reflexivity |]. split; [exact Hpp |]. split; [exact Hsum |].
      intros _ Hclosed.
      destruct Hcase as [(_ & _ & Htotal & _) | (Hst & _)].
      * rewrite Hp in Htotal. simpl in Htotal.
        eexists. split; [exact Htotal | exact Hsum].
      * exfalso. rewrite Hst, Hopen in Hclosed. discriminate.
Qed.

Lemma poll_books_witness :
  exists r' p',
    trades (snd (poll_trade (quoting 111) 0 1 scenario_C)) !! 1%Z = Some r'
    /\ t_partial_pnl r' = Some p'
    /\ p' == booked_pnl (partial_exits (snd (poll_trade (quoting 111) 0 1 scenario_C))) 1
    /\ (partial_exits (snd (poll_trade (quoting 111) 0 1 scenario_C))
        <> partial_exits scenario_C ->
        t_status r' = StClosed ->
        exists total, t_pnl r' = Some total
          /\ total == booked_pnl
                        (partial_exits (snd (poll_trade (quoting 111) 0 1 scenario_C))) 1).
Proof.
  apply (poll_keeps_partial_pnl_booked (quoting 111) 0%Z 1%Z scenario_C
           (open_trade (u "BTC/USDT") Buy 100 10 90 110 0) 0).
  - vm_compute; reflexivity.
  - reflexivity.
  - reflexivity.
Defined.

(** The first take-profit branch of [check_exit_conditions], on either
    side, when the stop is not crossed. *)
Lemma first_target_branch (E : exchange) (now id : Z) (w : world) (r : trade)
      (price target : Q) :
  stop_not_hit (t_side r) price (t_stop_loss r) ->
  t_partial_exits_done r = Some 0%Z ->
  t_take_profit_1 r = Some target ->
  ~ target == 0 ->
  target_reached (t_side r) price target ->
  check_exit_conditions E now (dict_of_row id r) price w
  = (Some (TP1Hit price),
     execute_partial_exit E now id price tp1_exit_percent 1 (Some (t_entry_price r)) w).
Proof.
  intros Hstop Hn Htarget Hnz Hreach.
  unfold check_exit_conditions. simpl. rewrite Hn. simpl.
  destruct (t_side r); simpl in Hstop, Hreach.
  - rewrite (ExitMonitorSpec.and_then_false (t_stop_loss r) (fun sl => Qleb price sl)).
    2:{ unfold stop_not_hit in Hstop. destruct (t_stop_loss r) as [sl |]; [| exact I].
        destruct Hstop as [Hz | Hnot]; [left; exact Hz | right].
        simpl in Hnot. apply Qleb_false. apply Qnot_le_lt. exact Hnot. }
    apply Qgeb_ge in Hreach.
    assert (Htp : and_then (t_take_profit_1 r) (fun tp => Qgeb price tp) = true)
      by (apply (ExitMonitorSpec.and_then_true _ _ target); assumption).
    rewrite Htp. reflexivity.
  - rewrite (ExitMonitorSpec.and_then_false (t_stop_loss r) (fun sl => Qgeb price sl)).
    2:{ unfold stop_not_hit in Hstop. destruct (t_stop_loss r) as [sl |]; [| exact I].
        destruct Hstop as [Hz | Hnot]; [left; exact Hz | right].
        simpl in Hnot. destruct (Qgeb price sl) eqn:Hge; [| reflexivity].
        apply Qgeb_ge in Hge. contradiction. }
    apply Qleb_le in Hreach.
    assert (Htp : and_then (t_take_profit_1 r) (fun tp => Qleb price tp) = true)
      by (apply (ExitMonitorSpec.and_then_true _ _ target); assumption).
    rewrite Htp. reflexivity.
Qed.

(** X7: once the first target was taken and the position stayed open, its
    stop is the entry price, so a later poll whose price is back at the
    entry (or beyond) closes the rest as a breakeven stop, not as a stop
    loss: the event is the free-trade close and the row is closed with
    nothing remaining. *)
Theorem stop_after_first_target_is_breakeven
        (E1 E2 : exchange) (now1 now2 id : Z) (w : world) (r : trade)
        (target price1 price2 : Q) :
  trades w !! id = Some r ->
  t_status r = StOpen ->
  t_partial_exits_done r = Some 0%Z ->
  t_take_profit_1 r = Some target ->
  ~ target == 0 ->
  ~ t_entry_price r == 0 ->
  last_price E1 (t_symbol r) = Some price1 ->
  stop_not_hit (t_side r) price1 (t_stop_loss r) ->
  target_reached (t_side r) price1 target ->
  epsilon < remaining_of r - py_min (original_of r * tp1_exit_percent) (remaining_of r) ->
  last_price E2 (t_symbol r) = Some price2 ->
  stop_hit (t_side r) price2 (t_entry_price r) ->
  let w1 := snd (poll_trade E1 now1 id w) in
  let w2 := snd (poll_trade E2 now2 id w1) in
  fst (poll_trade E1 now1 id w) = Some (TP1Hit price1)
  /\ fst (poll_trade E2 now2 id w1) = Some (FreeTradeClosed price2)
  /\ exists r2,
       trades w2 !! id = Some r2
       /\ t_status r2 = StClosed
       /\ t_remaining_quantity r2 = Some 0
       /\ t_exit_price r2 = Some price2
       /\ partial_exits w2 = partial_exits w1.
Proof.
  intros Hr Hopen Hn Htarget Hnz Hentry Hp1 Hstop Hreach Hrem Hp2 Hhit. cbv zeta.
  assert (Hpoll1 : poll_trade E1 now1 id w
                   = (Some (TP1Hit price1),
                      execute_partial_exit E1 now1 id price1 tp1_exit_percent 1
                        (Some (t_entry_price r)) w)).
  { unfold poll_trade. rewrite Hr, Hopen, Hp1.
    apply (first_target_branch E1 now1 id w r price1 target); assumption. }
  rewrite Hpoll1. simpl fst. simpl snd.
  split; [reflexivity |].
  destruct (execute_partial_exit_row E1 now1 id w r price1 tp1_exit_percent 1
              (Some (t_entry_price r)) Hr)
    as [(Ht & _) | (r1 & n & Ht & _ & _ & _ & Hside & Hent & Hsym & _ & Hcase)].
  { exfalso.
    destruct (ExitMonitorSpec.execute_partial_exit_partial E1 now1 id w r price1
                tp1_exit_percent 1 0 (t_entry_price r) Hr Hn Hrem)
      as (r1 & Ht1 & _ & _ & Hdone & _).
    rewrite Ht in Ht1.
    assert (Hl : <[id := r1]> (trades w) !! id = Some r1) by apply lookup_insert_eq.
    rewrite <- Ht1, Hr in Hl. injection Hl as <-.
    rewrite Hn in Hdone. discriminate. }
  destruct Hcase as [(_ & _ & _ & _ & Hle) | (Hst & _ & Hsl & _)].
  { exfalso. apply (Qlt_not_le _ _ Hrem). exact Hle. }
  set (w1 := execute_partial_exit E1 now1 id price1 tp1_exit_percent 1
               (Some (t_entry_price r)) w) in *.
  assert (Hr1 : trades w1 !! id = Some r1) by (rewrite Ht; apply lookup_insert_eq).
  assert (Hpoll2 : poll_trade E2 now2 id w1
                   = (Some (FreeTradeClosed price2),
                      close_remaining_position E2 now2 id price2 BreakevenStop w1)).
  { unfold poll_trade. rewrite Hr1, Hst, Hopen, Hsym, Hp2.
    rewrite (ExitMonitorSpec.stop_branch E2 now2 id w1 r1 price2 (t_entry_price r) Hsl Hentry).
    2:{ rewrite Hside. exact Hhit. }
    rewrite Hside, Hent.
    assert (Hge : Qgeb (t_entry_price r) (t_entry_price r) = true)
      by (apply Qgeb_ge; apply Qle_refl).
    assert (Hle : Qleb (t_entry_price r) (t_entry_price r) = true)
      by (apply Qleb_le; apply Qle_refl).
    destruct (t_side r); [rewrite Hge | rewrite Hle]; reflexivity. }
  rewrite Hpoll2. simpl fst. simpl snd.
  split; [reflexivity |].
  destruct (ExitMonitorSpec.close_remaining_position_closes E2 now2 id price2
              BreakevenStop w1 r1 Hr1)
    as (r2 & Ht2 & Hst2 & Hrem2 & Hexit & _ & _ & _ & _ & Hpe & _).
  exists r2. rewrite Ht2, lookup_insert_eq.
  repeat split; assumption.
Qed.

Lemma breakeven_after_target_witness :
  fst (poll_trade (quoting 111) 0 1 scenario_C) = Some (TP1Hit 111)
  /\ fst (poll_trade (quoting 100) 1 1 (snd (poll_trade (quoting 111) 0 1 scenario_C)))
     = Some (FreeTradeClosed 100)
  /\ exists r2,
       trades (snd (poll_trade (quoting 100) 1 1
                      (snd (poll_trade (quoting 111) 0 1 scenario_C)))) !! 1%Z = Some r2
       /\ t_status r2 = StClosed
       /\ t_remaining_quantity r2 = Some 0
       /\ t_exit_price r2 = Some 100
       /\ partial_exits (snd (poll_trade (quoting 100) 1 1
                                (snd (poll_trade (quoting 111) 0 1 scenario_C))))
          = partial_exits (snd (poll_trade (quoting 111) 0 1 scenario_C)).
Proof.
  apply (stop_after_first_target_is_breakeven (quoting 111) (quoting 100) 0%Z 1%Z 1%Z
           scenario_C (open_trade (u "BTC/USDT") Buy 100 10 90 110 0) 110 111 100).
  - vm_compute; reflexivity.
  - reflexivity.
  - reflexivity.
  - reflexivity.
  - vm_compute; discriminate.
  - vm_compute; discriminate.
  - reflexivity.
  - right. vm_compute. intros H; apply H; reflexivity.
  - vm_compute; discriminate.
  - vm_compute; reflexivity.
  - reflexivity.
  - vm_compute; discriminate.
Defined.

Lemma booked_quantity_app (rows : list partial_exit) (pe : partial_exit) (id : Z) :
  booked_quantity (rows ++ [pe]) id
  == booked_quantity rows id
     + (if Z.eqb (pe_trade_id pe) id then pe_quantity_exited pe else 0).
Proof.
  induction rows as [| x rows IH]; simpl; [ring |]. rewrite IH. ring.
Qed.

(** X8: while a position stays open, the partial exits account for every
    unit sold: across a poll that leaves the position open, the remaining
    quantity plus the quantity booked for it in [partial_exits] does not
    change. *)
Theorem poll_keeps_sold_quantity_booked
        (E : exchange) (now id : Z) (w : world) (r : trade) (q : Q) :
  trades w !! id = Some r ->
  t_remaining_quantity r = Some q ->
  0 < q ->
  let w' := snd (poll_trade E now id w) in
  exists r' q',
    trades w' !! id = Some r'
    /\ t_remaining_quantity r' = Some q'
    /\ (t_status r' = StOpen ->
        q' + booked_quantity (partial_exits w') id
        == q + booked_quantity (partial_exits w) id).
Proof.
  intros Hr Hq Hpos. cbv zeta.
  destruct (poll_trade_cases E now id w r Hr)
    as [-> | [(price & reason & _ & ->) | (price & pct & level & nsl & _ & _ & ->)]].
  - exists r, q. split; [exact Hr |]. split; [exact Hq |]. intros _. reflexivity.
  - destruct (ExitMonitorSpec.close_remaining_position_closes E now id price reason w r Hr)
      as (r' & Ht & Hst & Hrem & _).
    exists r', 0. rewrite Ht, lookup_insert_eq.
    split; [reflexivity |]. split; [exact Hrem |].
    intros Hopen. rewrite Hst in Hopen. discriminate.
  - destruct (execute_partial_exit_row E now id w r price pct level nsl Hr)
      as [(Ht & Hpe) | (r' & n & Ht & _ & _ & _ & _ & _ & _
                         & (pe & Hpe & Hid & _ & Hqty) & Hcase)].
    + exists r, q. rewrite Ht, Hpe.
      split; [exact Hr |]. split; [exact Hq |]. intros _. reflexivity.
    + exists r'. rewrite Ht, lookup_insert_eq.
      destruct Hcase as [(Hst & Hrem & _) | (_ & Hrem & _)].
      * exists 0. split; [reflexivity |]. split; [exact Hrem |].
        intros Hopen. rewrite Hst in Hopen. discriminate.
      * eexists. split; [reflexivity |]. split; [exact Hrem |].
        intros _. rewrite Hpe, booked_quantity_app, Hid, Z.eqb_refl, Hqty.
        rewrite (remaining_of_truthy r q Hq Hpos). ring.
Qed.

Lemma poll_quantity_booked_witness :
  exists r' q',
    trades (snd (poll_trade (quoting 111) 0 1 scenario_C)) !! 1%Z = Some r'
    /\ t_remaining_quantity r' = Some q'
    /\ (t_status r' = StOpen ->
        q' + booked_quantity (partial_exits (snd (poll_trade (quoting 111) 0 1 scenario_C))) 1
        == 10 + booked_quantity (partial_exits scenario_C) 1).
Proof.
  apply (poll_keeps_sold_quantity_booked (quoting 111) 0%Z 1%Z scenario_C
           (open_trade (u "BTC/USDT") Buy 100 10 90 110 0) 10).
  - vm_compute; reflexivity.
  - reflexivity.
  - reflexivity.
Defined.

(** The take-profit branches of [check_exit_conditions] for a long whose
    stop is not crossed, the count of partial exits read with NULL as 0. *)
Lemma take_profit_branch_or (E : exchange) (now id : Z) (w : world) (r : trade)
      (t : tier) (price target : Q) :
  t_side r = Buy ->
  stop_not_hit Buy price (t_stop_loss r) ->
  z_or (t_partial_exits_done r) 0 = tier_exits_done t ->
  tier_target t r = Some target ->
  ~ target == 0 ->
  target <= price ->
  check_exit_conditions E now (dict_of_row id r) price w
  = (Some (tier_event t price),
     execute_partial_exit E now id price (tier_percent t) (tier_level t)
       (tier_new_stop t r) w).
Proof.
  intros Hside Hstop Hn Htarget Hnz Hcross.
  unfold check_exit_conditions.
  cbn [dict_of_row d_id d_side d_entry_price d_stop_loss d_take_profit_1 d_take_profit_2
       d_partial_exits_done].
  rewrite Hside, Hn.
  rewrite (ExitMonitorSpec.and_then_false (t_stop_loss r) (fun sl => Qleb price sl)).
  2:{ unfold stop_not_hit in Hstop. destruct (t_stop_loss r) as [sl |]; [| exact I].
      destruct Hstop as [Hz | Hnot]; [left; exact Hz | right].
      simpl in Hnot. apply Qleb_false. apply Qnot_le_lt. exact Hnot. }
  apply Qgeb_ge in Hcross.
  assert (Htp : and_then (tier_target t r) (fun tp => Qgeb price tp) = true)
    by (apply (ExitMonitorSpec.and_then_true _ _ target); assumption).
  destruct t; simpl in *; rewrite Htp; reflexivity.
Qed.

(** A partial exit whose bookkeeping raises: the order stays, the database
    is rolled back. *)
Lemma execute_partial_exit_rolled_back (E : exchange) (now id : Z) (w : world) (r : trade)
      (price pct : Q) (level : Z) (nsl : option Q) :
  trades w !! id = Some r ->
  t_partial_exits_done r = None
  \/ (nsl = None
      /\ epsilon < remaining_of r - py_min (original_of r * pct) (remaining_of r)) ->
  let w' := execute_partial_exit E now id price pct level nsl w in
  orders w' = orders_after E (closing_order r (py_min (original_of r * pct) (remaining_of r)))
                (orders w)
  /\ trades w' = trades w
  /\ partial_exits w' = partial_exits w.
Proof.
  intros Hr Hcase. cbv zeta. unfold execute_partial_exit. rewrite Hr.
  fold (original_of r). fold (remaining_of r).
  unfold place, orders_after, closing_order.
  destruct Hcase as [Hnull | [-> Hrem]].
  - rewrite Hnull. destruct (rejects E _); repeat split.
  - apply Qleb_false in Hrem. rewrite Hrem.
    destruct (t_partial_exits_done r); destruct (rejects E _); repeat split.
Qed.

(** X30: a partial exit whose bookkeeping fails is rolled back after its
    order was sent.  For an open long whose tier is due (the price at or
    above the tier's target, the stop not crossed), when the count of
    partial exits is NULL (which the check reads as 0: first tier), or at
    the second tier when the first target is NULL and more than 0.0001
    would remain, the poll reports the target as hit and sends the market
    order, but no row changes and no partial exit is recorded; the next
    poll at that price finds the position as it was and sends the order
    again. *)
Theorem rolled_back_partial_exit_repeats_its_order
        (E : exchange) (now now2 id : Z) (w : world) (r : trade) (t : tier)
        (price target : Q) :
  trades w !! id = Some r ->
  t_status r = StOpen ->
  t_side r = Buy ->
  last_price E (t_symbol r) = Some price ->
  z_or (t_partial_exits_done r) 0 = tier_exits_done t ->
  tier_target t r = Some target ->
  ~ target == 0 ->
  target <= price ->
  stop_not_hit Buy price (t_stop_loss r) ->
  let exit_quantity := py_min (original_of r * tier_percent t) (remaining_of r) in
  t_partial_exits_done r = None
  \/ (tier_new_stop t r = None /\ epsilon < remaining_of r - exit_quantity) ->
  exists w',
    poll_trade E now id w = (Some (tier_event t price), w')
    /\ orders w' = orders_after E (closing_order r exit_quantity) (orders w)
    /\ trades w' = trades w
    /\ partial_exits w' = partial_exits w
    /\ exists w'',
         poll_trade E now2 id w' = (Some (tier_event t price), w'')
         /\ orders w'' = orders_after E (closing_order r exit_quantity) (orders w')
         /\ trades w'' = trades w
         /\ partial_exits w'' = partial_exits w.
Proof.
  intros Hr Hopen Hside Hprice Hn Htarget Hnz Hcross Hstop exit_quantity Hcase.
  assert (Hpoll : forall now' w0, trades w0 !! id = Some r ->
            poll_trade E now' id w0
            = (Some (tier_event t price),
               execute_partial_exit E now' id price (tier_percent t) (tier_level t)
                 (tier_new_stop t r) w0)).
  { intros now' w0 Hr0. unfold poll_trade. rewrite Hr0, Hopen, Hprice.
    apply take_profit_branch_or with (target := target); assumption. }
  destruct (execute_partial_exit_rolled_back E now id w r price (tier_percent t)
              (tier_level t) (tier_new_stop t r) Hr Hcase) as (Ho & Ht & Hpe).
  eexists. split; [apply Hpoll, Hr |].
  split; [exact Ho |]. split; [exact Ht |]. split; [exact Hpe |].
  assert (Hr' : trades (execute_partial_exit E now id price (tier_percent t) (tier_level t)
                          (tier_new_stop t r) w) !! id = Some r)
    by (rewrite Ht; exact Hr).
  destruct (execute_partial_exit_rolled_back E now2 id _ r price (tier_percent t)
              (tier_level t) (tier_new_stop t r) Hr' Hcase) as (Ho2 & Ht2 & Hpe2).
  eexists. split; [apply Hpoll, Hr' |].
  split; [exact Ho2 |]. split; [rewrite Ht2; exact Ht | rewrite Hpe2; exact Hpe].
Qed.

Lemma rolled_back_partial_exit_witness :
  let w := ledger_of [(1%Z, second_tier_without_first_target)] in
  let sell := closing_order second_tier_without_first_target (10 * (3 # 10)) in
  exists w' w'',
    poll_trade (quoting 121) 0 1 w = (Some (TP2Hit 121), w')
    /\ orders w' = [sell]
    /\ trades w' = trades w
    /\ partial_exits w' = []
    /\ poll_trade (quoting 121) 60 1 w' = (Some (TP2Hit 121), w'')
    /\ orders w'' = [sell; sell]
    /\ trades w'' = trades w
    /\ partial_exits w'' = [].
Proof.
  cbv zeta.
  destruct (rolled_back_partial_exit_repeats_its_order (quoting 121) 0%Z 60%Z 1%Z
              (ledger_of [(1%Z, second_tier_without_first_target)])
              second_tier_without_first_target Tier2 121 120)
    as (w' & Hpoll & Ho & Ht & Hpe & w'' & Hpoll2 & Ho2 & Ht2 & Hpe2).
  - vm_compute; reflexivity.
  - reflexivity.
  - reflexivity.
  - reflexivity.
  - reflexivity.
  - reflexivity.
  - intros H; vm_compute in H; discriminate.
  - lra.
  - simpl. right. lra.
  - right. split; [reflexivity | vm_compute; reflexivity].
  - exists w', w''. rewrite Ho in Ho2.
    repeat split; assumption.
Defined.

End ExitMonitorFacts.

(** ** The portfolio heat *)

Module PortfolioHeatFacts.
Import PyStr Truth TruthFacts Ledger ExitMonitor Notions Scenarios PortfolioHeat Bookkeeping.
#[local] Open Scope Q_scope.

(** X9: new positions are allowed exactly when the total risk of the open
    positions is below 100, that is 2 % of the balance of 5000 the function
    assumes. *)
Theorem can_open_more_below_100 (w : world) :
  can_open_more (calculate_portfolio_heat w) = true
  <-> total_risk (calculate_portfolio_heat w) < 100.
Proof.
  unfold calculate_portfolio_heat, heat_of. cbn [can_open_more total_risk].
  rewrite Qltb_lt. unfold account_balance.
  generalize (acc_total_risk (heat_of_rows (open_rows w))). intros t.
  split; intros H.
  - assert (E : t == t / 5000 * 100 * 50) by (field).
    rewrite E. lra.
  - assert (E : t / 5000 * 100 == t * (1 # 50)) by (field).
    rewrite E. lra.
Qed.

Lemma risk_of_free_row (r : trade) :
  stop_at_or_above_entry r ->
  fst (risk_of_row r) = 0 /\ snd (risk_of_row r) <> Some false.
Proof.
  intros (sl & Hsl & Hpos & Hge). unfold risk_of_row. rewrite Hsl. simpl.
  assert (Ht : q_truthy sl = true) by (apply q_truthy_true; lra).
  assert (Hg : Qgtb sl 0 = true) by (apply Qgtb_gt; exact Hpos).
  assert (He : Qgeb sl (t_entry_price r) = true) by (apply Qgeb_ge; exact Hge).
  rewrite Ht, Hg, He. simpl.
  destruct (q_truthy (q_or (t_remaining_quantity r) 0)); simpl; split;
    try reflexivity; discriminate.
Qed.

Lemma heat_of_free_rows (rows : list trade) (acc : heat_acc) :
  Forall stop_at_or_above_entry rows ->
  acc_total_risk (fold_left heat_step rows acc) == acc_total_risk acc
  /\ acc_risky_trades (fold_left heat_step rows acc) = acc_risky_trades acc.
Proof.
  revert acc. induction rows as [| r rows IH]; intros acc Hall; simpl.
  - split; reflexivity.
  - apply Forall_cons_1 in Hall. destruct Hall as [Hr Hrows].
    destruct (IH (heat_step acc r) Hrows) as [IH1 IH2]. rewrite IH1, IH2.
    destruct (risk_of_free_row r Hr) as [H1 H2].
    unfold heat_step. destruct (risk_of_row r) as [risk filed]. simpl in *. subst risk.
    split; [ring |].
    destruct filed as [[|] |]; try reflexivity. congruence.
Qed.

Lemma open_rows_spec (w : world) (r : trade) :
  In r (open_rows w) -> exists id, trades w !! id = Some r /\ t_status r = StOpen.
Proof.
  unfold open_rows. intros H. apply in_map_iff in H.
  destruct H as ([id r'] & <- & H). apply filter_In in H. destruct H as [H Hst].
  apply (Permutation_in _ (merge_sort_Permutation by_id (map_to_list (trades w)))) in H.
  exists id. split.
  - apply elem_of_map_to_list. apply list_elem_of_In. exact H.
  - simpl. destruct (t_status r'); try discriminate. reflexivity.
Qed.

(** X10: when every open row has a positive stop at or above its entry, the
    portfolio carries no risk at all, no row is filed as risky and new
    positions are allowed, whatever the sides of the rows: a short whose
    stop lies above its entry counts as a free trade. *)
Theorem stops_above_entry_carry_no_heat (w : world) :
  (forall id r, trades w !! id = Some r -> t_status r = StOpen ->
                stop_at_or_above_entry r) ->
  total_risk (calculate_portfolio_heat w) == 0
  /\ risky_trades_count (calculate_portfolio_heat w) = 0%nat
  /\ can_open_more (calculate_portfolio_heat w) = true.
Proof.
  intros Hall.
  assert (Hrows : Forall stop_at_or_above_entry (open_rows w)).
  { apply List.Forall_forall. intros r Hin.
    destruct (open_rows_spec w r Hin) as (id & Hr & Hst). exact (Hall id r Hr Hst). }
  destruct (heat_of_free_rows (open_rows w)
              {| acc_total_risk := 0; acc_free_trades := []; acc_risky_trades := [] |}
              Hrows) as [Hrisk Hrisky].
  simpl in Hrisk, Hrisky.
  unfold calculate_portfolio_heat, heat_of. cbn [total_risk risky_trades_count can_open_more].
  fold (heat_of_rows (open_rows w)) in Hrisk, Hrisky.
  split; [exact Hrisk |]. split; [rewrite Hrisky; reflexivity |].
  apply Qltb_lt. rewrite Hrisk. unfold account_balance. reflexivity.
Qed.

Lemma short_with_stop_above_witness :
  total_risk (calculate_portfolio_heat short_with_stop_above) == 0
  /\ risky_trades_count (calculate_portfolio_heat short_with_stop_above) = 0%nat
  /\ can_open_more (calculate_portfolio_heat short_with_stop_above) = true.
Proof.
  apply (stops_above_entry_carry_no_heat short_with_stop_above).
  intros id r Hr _. unfold short_with_stop_above in Hr. cbn [trades] in Hr.
  apply lookup_singleton_Some in Hr. destruct Hr as [_ <-].
  exists 110. split; [reflexivity |]. split; [reflexivity |]. vm_compute; discriminate.
Defined.

(** X11: a position that took its first target and stayed open is a free
    trade for the portfolio heat: its stop is its (positive) entry price, so
    it adds no risk and is filed under the free trades, on either side. *)
Theorem position_after_first_target_carries_no_heat
        (E : exchange) (now id : Z) (w : world) (r : trade) (price : Q) :
  trades w !! id = Some r ->
  t_partial_exits_done r = Some 0%Z ->
  0 < t_entry_price r ->
  epsilon < remaining_of r - py_min (original_of r * tp1_exit_percent) (remaining_of r) ->
  let w1 := execute_partial_exit E now id price tp1_exit_percent 1
              (Some (t_entry_price r)) w in
  exists r1, trades w1 !! id = Some r1 /\ risk_of_row r1 = (0, Some true).
Proof.
  intros Hr Hn Hentry Hrem. cbv zeta.
  destruct (ExitMonitorFacts.execute_partial_exit_open_row E now id w r price
              tp1_exit_percent 1 0 (t_entry_price r) Hr Hn Hrem)
    as (r1 & Ht & Hsl & Hq & _ & Hent & _).
  exists r1. split; [rewrite Ht; apply lookup_insert_eq |].
  unfold risk_of_row. rewrite Hsl, Hq, Hent. simpl.
  assert (H1 : q_truthy (t_entry_price r) = true) by (apply q_truthy_true; lra).
  assert (H2 : Qgtb (t_entry_price r) 0 = true) by (apply Qgtb_gt; exact Hentry).
  assert (H3 : Qgeb (t_entry_price r) (t_entry_price r) = true)
    by (apply Qgeb_ge; apply Qle_refl).
  assert (H4 : q_truthy (remaining_of r
                         - py_min (original_of r * tp1_exit_percent) (remaining_of r))
               = true).
  { apply q_truthy_true. unfold epsilon in Hrem. lra. }
  rewrite H1, H2, H4. simpl. rewrite H4. simpl. rewrite H3. reflexivity.
Qed.

Lemma heat_after_first_target_witness :
  exists r1,
    trades (execute_partial_exit (quoting 111) 0 1 111 tp1_exit_percent 1
              (Some 100) scenario_C) !! 1%Z = Some r1
    /\ risk_of_row r1 = (0, Some true).
Proof.
  apply (position_after_first_target_carries_no_heat (quoting 111) 0%Z 1%Z scenario_C
           (open_trade (u "BTC/USDT") Buy 100 10 90 110 0) 111).
  - vm_compute; reflexivity.
  - reflexivity.
  - reflexivity.
  - vm_compute; reflexivity.
Defined.

End PortfolioHeatFacts.

(** ** The exchange wrapper *)

Module UnifiedExchangeFacts.
Import PyStr Truth TruthFacts Ledger ExitMonitor Notions Scenarios UnifiedExchange Bookkeeping.
#[local] Open Scope Q_scope.

Lemma contains_suffix (needle s t : pystr) :
  starts_with needle t = true -> contains needle (s ++ t) = true.
Proof.
  intros H. induction s as [| c s IH]; simpl.
  - destruct t; simpl in *; rewrite H; reflexivity.
  - rewrite IH. apply orb_true_r.
Qed.

(** X12: converting a symbol to its perpetual form twice is converting it
    once: a symbol that is already in perpetual form is passed on as it
    is. *)
Theorem convert_to_perp_symbol_idempotent (symbol : pystr) :
  convert_to_perp_symbol (convert_to_perp_symbol symbol) = convert_to_perp_symbol symbol.
Proof.
  unfold convert_to_perp_symbol at 2.
  destruct (contains (u "/") symbol && negb (contains (u ":") symbol))%bool eqn:E;
    unfold convert_to_perp_symbol.
  - rewrite E, (contains_suffix (u ":") symbol (u ":USDT") eq_refl).
    rewrite andb_false_r. reflexivity.
  - rewrite E. reflexivity.
Qed.

Lemma capped_amount (amount last : Q) :
  let sent := if Qgtb (amount * last) safety_limit then safety_limit / last else amount in
  sent * last <= safety_limit
  /\ (0 <= amount -> 0 <= last -> sent <= amount)
  /\ (safety_limit < amount * last -> 0 < last -> sent < amount).
Proof.
  cbv zeta. unfold safety_limit.
  destruct (Qgtb (amount * last) 1000) eqn:E.
  - apply Qgtb_gt in E.
    assert (Hnz : ~ last == 0).
    { intros H. rewrite H in E. lra. }
    assert (Hmul : 1000 / last * last == 1000) by (field; exact Hnz).
    split; [rewrite Hmul; lra |].
    split.
    + intros Ha Hl.
      assert (Hpos : 0 < last) by (destruct (Qlt_le_dec 0 last); [assumption | exfalso; apply Hnz; lra]).
      apply Qle_shift_div_r; [exact Hpos | lra].
    + intros _ Hpos. apply Qlt_shift_div_r; [exact Hpos | lra].
  - apply Qgtb_false in E.
    split; [exact E |]. split; [intros; lra |]. intros H. lra.
Qed.

Lemma create_order_amount (X : real_exchange) (symbol : pystr) (ot : order_type)
      (s : side) (amount : Q) (price leverage : option Q) (tk : ticker) :
  fetch_ticker X symbol = inl tk ->
  od_amount (create_order X symbol ot s amount price leverage)
  = if Qgtb (amount * tk_last tk) safety_limit then safety_limit / tk_last tk else amount.
Proof.
  intros H. unfold create_order. rewrite H.
  destruct (create_real_order X _ _ _ _ _); reflexivity.
Qed.

(** X13: whatever the caller asks for, the amount of an order the wrapper
    sends is worth at most the safety limit of 1000 at the mid price; for a
    non-negative amount and price it never exceeds the amount asked for. *)
Theorem order_value_is_capped (X : real_exchange) (symbol : pystr) (ot : order_type)
        (s : side) (amount : Q) (price leverage : option Q) (tk : ticker) :
  fetch_ticker X symbol = inl tk ->
  let sent := od_amount (create_order X symbol ot s amount price leverage) in
  sent * tk_last tk <= safety_limit
  /\ (0 <= amount -> 0 <= tk_last tk -> sent <= amount).
Proof.
  intros H. cbv zeta. rewrite (create_order_amount X symbol ot s amount price leverage tk H).
  destruct (capped_amount amount (tk_last tk)) as (H1 & H2 & _). split; assumption.
Qed.

Lemma order_value_witness :
  od_amount (create_order (book_of 199 201) (u "BTC/USDT") MarketOrder Sell 10 None None)
  * ((199 + 201) / 2) <= safety_limit
  /\ (0 <= 10 -> 0 <= (199 + 201) / 2 ->
      od_amount (create_order (book_of 199 201) (u "BTC/USDT") MarketOrder Sell 10 None None)
      <= 10).
Proof.
  apply (order_value_is_capped (book_of 199 201) (u "BTC/USDT") MarketOrder Sell 10 None None
           {| tk_symbol := u "BTC/USDT"; tk_last := (199 + 201) / 2;
              tk_bid := 199; tk_ask := 201;
              tk_high := (199 + 201) / 2 * (105 # 100);
              tk_low := (199 + 201) / 2 * (95 # 100); tk_volume := 0 |}).
  vm_compute. reflexivity.
Defined.

(** X14: when one side of the order book is empty the mid price is taken as
    0, the order is valued at 0 and the safety limit does not apply: the
    amount asked for is sent as it is, whatever its size. *)
Theorem one_sided_book_is_not_capped (X : real_exchange) (symbol : pystr)
        (ot : order_type) (s : side) (amount : Q) (price leverage : option Q)
        (bids asks : list (Q * Q)) :
  fetch_order_book X (convert_to_perp_symbol symbol) = inl (bids, asks) ->
  bids = [] \/ asks = [] ->
  od_amount (create_order X symbol ot s amount price leverage) = amount.
Proof.
  intros Hbook Hside.
  assert (Hticker : exists tk, fetch_ticker X symbol = inl tk /\ tk_last tk = 0).
  { unfold fetch_ticker. rewrite Hbook.
    eexists. split; [reflexivity |]. simpl.
    destruct Hside as [-> | ->]; [reflexivity | destruct bids; reflexivity]. }
  destruct Hticker as (tk & Hticker & Hlast).
  rewrite (create_order_amount X symbol ot s amount price leverage tk Hticker), Hlast.
  assert (H : Qgtb (amount * 0) safety_limit = false).
  { apply Qgtb_false. unfold safety_limit. lra. }
  rewrite H. reflexivity.
Qed.

Lemma one_sided_book_witness :
  od_amount (create_order (book_without_asks 199) (u "BTC/USDT") MarketOrder Buy 1000
               None None) = 1000.
Proof.
  apply (one_sided_book_is_not_capped (book_without_asks 199) (u "BTC/USDT") MarketOrder
           Buy 1000 None None [(199, 1)] []).
  - reflexivity.
  - right. reflexivity.
Defined.

(** X15: the exit monitor closes a position through the wrapper without
    noticing what the wrapper did with the order.  For a position worth more
    than the safety limit at the mid price, the wrapper sends less than the
    remaining quantity, yet the row is closed with nothing remaining and its
    note carries no exchange error. *)
Theorem close_through_the_wrapper_is_not_checked
        (X : real_exchange) (free : Q) (now id : Z) (price : Q) (reason : close_reason)
        (w : world) (r : trade) (tk : ticker) :
  trades w !! id = Some r ->
  fetch_ticker X (t_symbol r) = inl tk ->
  0 < tk_last tk ->
  safety_limit < remaining_on_close r * tk_last tk ->
  let w' := close_remaining_position (as_exchange X free) now id price reason w in
  od_amount (create_market_order X (t_symbol r) (opposite (t_side r)) (remaining_on_close r))
  < remaining_on_close r
  /\ exists r',
       trades w' !! id = Some r'
       /\ t_status r' = StClosed
       /\ t_remaining_quantity r' = Some 0
       /\ t_notes r' = Some [NoteClose reason None].
Proof.
  intros Hr Hticker Hpos Hvalue. cbv zeta. split.
  - unfold create_market_order.
    rewrite (create_order_amount X _ MarketOrder _ _ None None tk Hticker).
    destruct (capped_amount (remaining_on_close r) (tk_last tk)) as (_ & _ & H).
    exact (H Hvalue Hpos).
  - destruct (ExitMonitorSpec.close_remaining_position_closes (as_exchange X free) now id
                price reason w r Hr)
      as (r' & Ht & Hst & Hrem & _ & _ & Hnotes & _).
    exists r'. rewrite Ht, lookup_insert_eq.
    split; [reflexivity |]. split; [exact Hst |]. split; [exact Hrem |]. exact Hnotes.
Qed.

Lemma close_through_the_wrapper_witness :
  od_amount (create_market_order (book_of 199 201) (u "BTC/USDT") Sell 10) < 10
  /\ exists r',
       trades (close_remaining_position (as_exchange (book_of 199 201) 5000) 0 1 200
                 StopLossHit scenario_C) !! 1%Z = Some r'
       /\ t_status r' = StClosed
       /\ t_remaining_quantity r' = Some 0
       /\ t_notes r' = Some [NoteClose StopLossHit None].
Proof.
  apply (close_through_the_wrapper_is_not_checked (book_of 199 201) 5000 0%Z 1%Z 200
           StopLossHit scenario_C (open_trade (u "BTC/USDT") Buy 100 10 90 110 0)
           {| tk_symbol := u "BTC/USDT"; tk_last := (199 + 201) / 2;
              tk_bid := 199; tk_ask := 201;
              tk_high := (199 + 201) / 2 * (105 # 100);
              tk_low := (199 + 201) / 2 * (95 # 100); tk_volume := 0 |}).
  - vm_compute; reflexivity.
  - vm_compute; reflexivity.
  - reflexivity.
  - reflexivity.
Defined.

End UnifiedExchangeFacts.

(** ** The update processor *)

Module UpdateProcessorFacts.
Import PyStr Re Truth TruthFacts Ledger Runtime UpdateProcessor Notions Scenarios Bookkeeping.
Import SignalParser (group_str).
#[local] Open Scope Q_scope.

Lemma isdigit_all_digits (g : pystr) : isdigit g = true -> forallb is_ascii_digit g = true.
Proof. destruct g; [discriminate | intros H; exact H]. Qed.

Lemma first_digit_group_nonneg (m : rematch) (p : Z) :
  first_digit_group m = Some p -> (0 <= p)%Z.
Proof.
  unfold first_digit_group. intros H.
  repeat match type of H with
         | context [match group ?n m with _ => _ end] =>
             destruct (group n m) as [?g |] eqn:?
         | context [if isdigit ?g then _ else _] => destruct (isdigit g) eqn:?
         end;
    try discriminate; injection H as <-;
    apply SignalParserFacts.int_of_digits_nonneg; apply isdigit_all_digits; assumption.
Qed.

(** X16: what [determine_action] can answer.  An R action sells 40 % and
    moves the stop to breakeven for 1 <= R < 2, and sells 30 % without
    moving the stop from 2R on; a booking sells a positive percentage; a
    full exit sells 100 %; and the risk-free action only moves the stop: the
    percentage it may carry is never anything but 0, since a usable
    percentage always makes the message a booking. *)
Theorem determine_action_shape (message_text : pystr) (a : action) :
  determine_action message_text = Some a -> action_shape a.
Proof.
  unfold determine_action.
  set (sr := search IGNORECASE pat_r_action message_text).
  set (sb := search IGNORECASE pat_book_partial message_text).
  set (mr := matches IGNORECASE pat_risk_free message_text).
  set (mf := matches IGNORECASE pat_full_exit message_text).
  clearbody sr sb mr mf. cbv zeta. intros H.
  assert (Htail :
    match
      match sb with
      | Some book_match =>
          match first_digit_group book_match with
          | Some percent =>
              if Z.eqb percent 0 then None
              else Some {| a_type := BookPartial; a_partial_percent := Some percent;
                           a_move_sl_to_breakeven := false; a_r_value := None |}
          | None => None
          end
      | None => None
      end
    with
    | Some a => Some a
    | None =>
        if mr
        then Some {| a_type := MakeRiskFree;
                     a_partial_percent :=
                       match sb with
                       | Some book_match => first_digit_group book_match
                       | None => None
                       end;
                     a_move_sl_to_breakeven := true; a_r_value := None |}
        else if mf
             then Some {| a_type := FullExit; a_partial_percent := Some 100%Z;
                          a_move_sl_to_breakeven := false; a_r_value := None |}
             else None
    end = Some a -> action_shape a).
  { clear H. intros H.
    destruct sb as [book_match |];
      [destruct (first_digit_group book_match) as [percent |] eqn:Ef;
       [destruct (Z.eqb percent 0) eqn:Ez |] |].
    2:{ injection H as <-. unfold action_shape. simpl.
        split; [| reflexivity]. exists percent. split; [reflexivity |].
        apply first_digit_group_nonneg in Ef. apply Z.eqb_neq in Ez. lia. }
    all: destruct mr; [| destruct mf; [| discriminate]];
      injection H as <-; unfold action_shape; simpl.
    all: try (split; reflexivity).
    - apply Z.eqb_eq in Ez. subst percent. split; [right; reflexivity | reflexivity].
    - split; [left; reflexivity | reflexivity].
    - split; [left; reflexivity | reflexivity]. }
  destruct sr as [r_match |]; [| exact (Htail H)].
  destruct (Qgeb (float_matched (group_str 1 r_match)) 1
            && Qltb (float_matched (group_str 1 r_match)) 2)%bool eqn:E1.
  - injection H as <-. unfold action_shape. simpl.
    apply andb_true_iff in E1. destruct E1 as [Ha Hb].
    apply Qgeb_ge in Ha. apply Qltb_lt in Hb.
    split; [reflexivity |]. left. repeat split; assumption.
  - destruct (Qgeb (float_matched (group_str 1 r_match)) 2) eqn:E2; [| exact (Htail H)].
    injection H as <-. unfold action_shape. simpl.
    apply Qgeb_ge in E2. split; [reflexivity |]. right. repeat split; assumption.
Qed.

Lemma determine_action_witness :
  action_shape {| a_type := MakeRiskFree; a_partial_percent := Some 0%Z;
                  a_move_sl_to_breakeven := true; a_r_value := None |}.
Proof.
  apply (determine_action_shape (u "book 0% and make it risk free")).
  vm_compute. reflexivity.
Defined.

Lemma share_of_remaining (q : Q) (percent : Z) :
  0 < q -> (0 < percent)%Z -> 0 < q * (inject_Z percent / 100).
Proof.
  intros Hq Hp.
  assert (A : 0 < inject_Z percent)
    by (change 0 with (inject_Z 0); rewrite <- Zlt_Qlt; exact Hp).
  assert (E : q * (inject_Z percent / 100) == q * inject_Z percent * (1 # 100)) by field.
  rewrite E. nra.
Qed.

Lemma share_below_remaining (q : Q) (percent : Z) :
  0 < q -> (percent < 100)%Z -> q * (inject_Z percent / 100) < q.
Proof.
  intros Hq Hp.
  assert (B : inject_Z percent < 100)
    by (change 100 with (inject_Z 100); rewrite <- Zlt_Qlt; exact Hp).
  assert (E : q * (inject_Z percent / 100) == q * inject_Z percent * (1 # 100)) by field.
  rewrite E. nra.
Qed.

(** X17: when the ticker raises on an action that sells, the turn of the
    loop changes nothing: no row, no partial exit, no order, the stop is
    not moved although the action asks for it, and the message is not
    marked as processed, so that the next scan takes it up again.  (The
    ticker is the one call of the wrapper that raises here: its order call
    answers 'failed' instead.) *)
Theorem failed_ticker_changes_nothing
        (E : exchange) (now message_hash : Z) (symbol_usdt : pystr) (a : action)
        (p : processor) (w : world) (trade : trade_dict) (percent : Z) :
  0 < d_remaining_quantity trade ->
  a_partial_percent a = Some percent ->
  (0 < percent)%Z ->
  last_price E (d_symbol trade) = None ->
  apply_to_trade E now message_hash symbol_usdt a (p, w) trade = (p, w).
Proof.
  intros Hq Hpct Hpos Hfail.
  unfold apply_to_trade, execute_action. rewrite Hpct.
  change (default 0%Z (Some percent)) with percent.
  assert (Hgt : Qgtb (d_remaining_quantity trade * (inject_Z percent / 100)) 0 = true).
  { apply Qgtb_gt. apply share_of_remaining; assumption. }
  rewrite Hgt, Hfail. reflexivity.
Qed.

Lemma failed_ticker_witness :
  apply_to_trade (UnifiedExchange.as_exchange book_unavailable 5000) 0 7 (u "BTC/USDT")
    {| a_type := RPartial (12 # 10); a_partial_percent := Some 40%Z;
       a_move_sl_to_breakeven := true; a_r_value := Some (12 # 10) |}
    (new_processor example_runtime btc_long, btc_long)
    (dict_of_row 1 (open_trade (u "BTC/USDT") Buy 100 10 90 110 0))
  = (new_processor example_runtime btc_long, btc_long).
Proof.
  apply (failed_ticker_changes_nothing (UnifiedExchange.as_exchange book_unavailable 5000)
           0%Z 7%Z (u "BTC/USDT") _ _ _ _ 40%Z).
  - reflexivity.
  - reflexivity.
  - reflexivity.
  - vm_compute. reflexivity.
Defined.

(** The row a partial action leaves, field by field. *)
Lemma execute_action_partial
      (E : exchange) (R : runtime) (now id : Z) (w : world) (r : trade) (a : action)
      (percent : Z) (price q : Q) :
  trades w !! id = Some r ->
  t_remaining_quantity r = Some q ->
  0 < q ->
  a_partial_percent a = Some percent ->
  (0 < percent < 100)%Z ->
  last_price E (t_symbol r) = Some price ->
  rejects E (closing_order r (q * (inject_Z percent / 100))) = None ->
  let sold := q * (inject_Z percent / 100) in
  let w' := fst (execute_action E R now (dict_of_row id r) a w) in
  snd (execute_action E R now (dict_of_row id r) a w) = true
  /\ orders w' = orders w ++ [closing_order r sold]
  /\ (exists pe, partial_exits w' = partial_exits w ++ [pe]
        /\ pe_trade_id pe = id /\ pe_quantity_exited pe = sold
        /\ pe_pnl pe = pnl_per_unit (t_side r) (t_entry_price r) price * sold)
  /\ exists r',
       trades w' !! id = Some r'
       /\ t_remaining_quantity r' = Some (q + - sold)
       /\ t_status r' = t_status r
       /\ t_partial_exits_done r' = option_map (fun n => (n + 1)%Z) (t_partial_exits_done r)
       /\ t_stop_loss r'
          = (if a_move_sl_to_breakeven a
             then Some (breakeven (t_side r) (t_entry_price r))
             else t_stop_loss r)
       /\ t_side r' = t_side r /\ t_entry_price r' = t_entry_price r
       /\ t_symbol r' = t_symbol r
       /\ t_take_profit_1 r' = t_take_profit_1 r
       /\ t_take_profit_2 r' = t_take_profit_2 r.
Proof.
  intros Hr Hq Hpos Hpct [Hlo Hhi] Hprice Hrej. cbv zeta.
  assert (Hrem : d_remaining_quantity (dict_of_row id r) = q).
  { simpl. unfold q_or. rewrite Hq.
    rewrite (q_truthy_true q); [reflexivity | lra]. }
  unfold execute_action. rewrite Hpct, Hrem.
  change (default 0%Z (Some percent)) with percent.
  assert (Hgt : Qgtb (q * (inject_Z percent / 100)) 0 = true).
  { apply Qgtb_gt. apply share_of_remaining; assumption. }
  rewrite Hgt. cbn [d_symbol dict_of_row d_side d_id]. rewrite Hprice.
  apply Z.ltb_lt in Hhi. rewrite Hhi.
  unfold place. unfold closing_order in Hrej. rewrite Hrej.
  unfold update_trade_partial. cbn [trades add_order]. rewrite Hr.
  split.
  { destruct (a_move_sl_to_breakeven a); reflexivity. }
  destruct (a_move_sl_to_breakeven a).
  - cbn [fst]. split; [reflexivity |].
    split.
    { eexists. split; [reflexivity |]. repeat split; reflexivity. }
    unfold move_stop_to_breakeven, set_trades. cbn [trades d_id dict_of_row].
    rewrite lookup_insert_eq.
    eexists. split; [apply lookup_insert_eq |]. cbn.
    rewrite Hq. repeat split; reflexivity.
  - cbn [fst]. split; [reflexivity |].
    split.
    { eexists. split; [reflexivity |]. repeat split; reflexivity. }
    unfold set_trades. cbn [trades].
    eexists. split; [apply lookup_insert_eq |]. cbn.
    rewrite Hq. repeat split; reflexivity.
Qed.

(** X18: a partial action of p % (0 < p < 100) on a position with a
    positive remaining quantity, the exchange answering, sells p % of the
    REMAINING quantity (not of the original one): one order and one partial
    exit for that amount are recorded, the remaining quantity goes down by it
    and stays positive, the position stays as it was but for one more partial
    exit counted, and the stop is moved to breakeven exactly when the action
    asks for it. *)
Theorem partial_action_sells_share_of_remaining
        (E : exchange) (R : runtime) (now id : Z) (w : world) (r : trade) (a : action)
        (percent : Z) (price q : Q) :
  trades w !! id = Some r ->
  t_remaining_quantity r = Some q ->
  0 < q ->
  a_partial_percent a = Some percent ->
  (0 < percent < 100)%Z ->
  last_price E (t_symbol r) = Some price ->
  rejects E (closing_order r (q * (inject_Z percent / 100))) = None ->
  let sold := q * (inject_Z percent / 100) in
  let w' := fst (execute_action E R now (dict_of_row id r) a w) in
  snd (execute_action E R now (dict_of_row id r) a w) = true
  /\ 0 < sold /\ sold < q
  /\ orders w' = orders w ++ [closing_order r sold]
  /\ (exists pe, partial_exits w' = partial_exits w ++ [pe]
        /\ pe_trade_id pe = id /\ pe_quantity_exited pe = sold
        /\ pe_pnl pe = pnl_per_unit (t_side r) (t_entry_price r) price * sold)
  /\ exists r',
       trades w' !! id = Some r'
       /\ t_remaining_quantity r' = Some (q + - sold)
       /\ t_status r' = t_status r
       /\ t_partial_exits_done r' = option_map (fun n => (n + 1)%Z) (t_partial_exits_done r)
       /\ t_stop_loss r'
          = if a_move_sl_to_breakeven a
            then Some (breakeven (t_side r) (t_entry_price r))
            else t_stop_loss r.
Proof.
  intros Hr Hq Hpos Hpct Hrange Hprice Hrej. cbv zeta.
  destruct (execute_action_partial E R now id w r a percent price q
              Hr Hq Hpos Hpct Hrange Hprice Hrej)
    as (Hok & Horders & Hpe & r' & Hr' & Hrem & Hst & Hdone & Hsl & _).
  split; [exact Hok |].
  split; [apply share_of_remaining; [exact Hpos | apply Hrange] |].
  split; [apply share_below_remaining; [exact Hpos | apply Hrange] |].
  split; [exact Horders |]. split; [exact Hpe |].
  exists r'. repeat split; assumption.
Qed.

Lemma partial_action_witness :
  let a := {| a_type := BookPartial; a_partial_percent := Some 50%Z;
              a_move_sl_to_breakeven := false; a_r_value := None |} in
  let r := open_trade (u "BTC/USDT") Buy 100 10 90 110 0 in
  let sold := 10 * (inject_Z 50 / 100) in
  let w' := fst (execute_action (quoting 112) example_runtime 0 (dict_of_row 1 r) a
                   btc_long) in
  snd (execute_action (quoting 112) example_runtime 0 (dict_of_row 1 r) a btc_long) = true
  /\ 0 < sold /\ sold < 10
  /\ orders w' = orders btc_long ++ [closing_order r sold]
  /\ (exists pe, partial_exits w' = partial_exits btc_long ++ [pe]
        /\ pe_trade_id pe = 1%Z /\ pe_quantity_exited pe = sold
        /\ pe_pnl pe = pnl_per_unit (t_side r) (t_entry_price r) 112 * sold)
  /\ exists r',
       trades w' !! 1%Z = Some r'
       /\ t_remaining_quantity r' = Some (10 + - sold)
       /\ t_status r' = t_status r
       /\ t_partial_exits_done r' = option_map (fun n => (n + 1)%Z) (t_partial_exits_done r)
       /\ t_stop_loss r'
          = if a_move_sl_to_breakeven a
            then Some (breakeven (t_side r) (t_entry_price r))
            else t_stop_loss r.
Proof.
  apply (partial_action_sells_share_of_remaining (quoting 112) example_runtime 0%Z 1%Z
           btc_long (open_trade (u "BTC/USDT") Buy 100 10 90 110 0)
           {| a_type := BookPartial; a_partial_percent := Some 50%Z;
              a_move_sl_to_breakeven := false; a_r_value := None |} 50%Z 112 10).
  - vm_compute; reflexivity.
  - reflexivity.
  - reflexivity.
  - reflexivity.
  - lia.
  - reflexivity.
  - reflexivity.
Defined.

(** X28: the update processor books a partial exit whether or not the
    exchange took the order.  The order call of the wrapper answers
    'failed' instead of raising, and the answer is not looked at: for a
    partial action of p % (0 < p < 100) on a position with a positive
    remaining quantity, the ticker answering and the order being refused,
    the turn still counts as a success, the partial exit is recorded with
    its P&L at the ticker's price, the remaining quantity goes down by the
    amount that was not sold, one more partial exit is counted and the stop
    is moved to breakeven when the action asks for it. *)
Theorem refused_order_is_still_booked
        (X : UnifiedExchange.real_exchange) (free : Q) (R : runtime) (now id : Z)
        (w : world) (r : trade) (a : action) (percent : Z) (q : Q)
        (tk : UnifiedExchange.ticker) :
  trades w !! id = Some r ->
  t_remaining_quantity r = Some q ->
  0 < q ->
  a_partial_percent a = Some percent ->
  (0 < percent < 100)%Z ->
  UnifiedExchange.fetch_ticker X (t_symbol r) = inl tk ->
  let sold := q * (inject_Z percent / 100) in
  UnifiedExchange.od_status
    (UnifiedExchange.create_order X (t_symbol r) MarketOrder (opposite (t_side r)) sold
       None None)
  = UnifiedExchange.Failed ->
  let E := UnifiedExchange.as_exchange X free in
  let w' := fst (execute_action E R now (dict_of_row id r) a w) in
  snd (execute_action E R now (dict_of_row id r) a w) = true
  /\ (exists pe, partial_exits w' = partial_exits w ++ [pe]
        /\ pe_trade_id pe = id /\ pe_quantity_exited pe = sold
        /\ pe_pnl pe
           = pnl_per_unit (t_side r) (t_entry_price r) (UnifiedExchange.tk_last tk) * sold)
  /\ exists r',
       trades w' !! id = Some r'
       /\ t_remaining_quantity r' = Some (q + - sold)
       /\ t_status r' = t_status r
       /\ t_partial_exits_done r' = option_map (fun n => (n + 1)%Z) (t_partial_exits_done r)
       /\ t_stop_loss r'
          = if a_move_sl_to_breakeven a
            then Some (breakeven (t_side r) (t_entry_price r))
            else t_stop_loss r.
Proof.
  intros Hr Hq Hpos Hpct Hrange Hticker sold _ E. cbv zeta.
  assert (Hprice : last_price E (t_symbol r) = Some (UnifiedExchange.tk_last tk)).
  { unfold E. cbn [last_price UnifiedExchange.as_exchange]. rewrite Hticker. reflexivity. }
  destruct (execute_action_partial E R now id w r a percent (UnifiedExchange.tk_last tk) q
              Hr Hq Hpos Hpct Hrange Hprice eq_refl)
    as (Hok & _ & Hpe & r' & Hr' & Hrem & Hst & Hdone & Hsl & _).
  split; [exact Hok |]. split; [exact Hpe |].
  exists r'. repeat split; assumption.
Qed.

Lemma refused_order_witness :
  let a := {| a_type := BookPartial; a_partial_percent := Some 50%Z;
              a_move_sl_to_breakeven := false; a_r_value := None |} in
  let r := open_trade (u "BTC/USDT") Buy 100 10 90 110 0 in
  let sold := 10 * (inject_Z 50 / 100) in
  let E := UnifiedExchange.as_exchange (failing_book_of 199 201) 5000 in
  let w' := fst (execute_action E example_runtime 0 (dict_of_row 1 r) a btc_long) in
  UnifiedExchange.od_status
    (UnifiedExchange.create_order (failing_book_of 199 201) (t_symbol r) MarketOrder
       (opposite (t_side r)) sold None None)
  = UnifiedExchange.Failed
  /\ snd (execute_action E example_runtime 0 (dict_of_row 1 r) a btc_long) = true
  /\ (exists pe, partial_exits w' = partial_exits btc_long ++ [pe]
        /\ pe_trade_id pe = 1%Z /\ pe_quantity_exited pe = sold
        /\ pe_pnl pe = pnl_per_unit (t_side r) (t_entry_price r) ((199 + 201) / 2) * sold)
  /\ exists r',
       trades w' !! 1%Z = Some r'
       /\ t_remaining_quantity r' = Some (10 + - sold)
       /\ t_status r' = t_status r
       /\ t_partial_exits_done r' = option_map (fun n => (n + 1)%Z) (t_partial_exits_done r)
       /\ t_stop_loss r'
          = if a_move_sl_to_breakeven a
            then Some (breakeven (t_side r) (t_entry_price r))
            else t_stop_loss r.
Proof.
  cbv zeta. split; [reflexivity |].
  apply (refused_order_is_still_booked (failing_book_of 199 201) 5000 example_runtime 0%Z 1%Z
           btc_long (open_trade (u "BTC/USDT") Buy 100 10 90 110 0)
           {| a_type := BookPartial; a_partial_percent := Some 50%Z;
              a_move_sl_to_breakeven := false; a_r_value := None |} 50%Z 10
           {| UnifiedExchange.tk_symbol := u "BTC/USDT";
              UnifiedExchange.tk_last := (199 + 201) / 2;
              UnifiedExchange.tk_bid := 199; UnifiedExchange.tk_ask := 201;
              UnifiedExchange.tk_high := (199 + 201) / 2 * (105 # 100);
              UnifiedExchange.tk_low := (199 + 201) / 2 * (95 # 100);
              UnifiedExchange.tk_volume := 0 |}).
  - vm_compute; reflexivity.
  - reflexivity.
  - reflexivity.
  - reflexivity.
  - lia.
  - vm_compute. reflexivity.
  - reflexivity.
Defined.

(** X19: a partial exit taken on an update counts as the first tier of the
    exit monitor.  After it, a poll at a price that has reached the first
    target (or any other price) takes no exit, as long as the stop is not
    crossed and the second target is not reached: the first tier is not
    taken a second time. *)
Theorem update_partial_counts_as_first_tier
        (E E2 : exchange) (R : runtime) (now now2 id : Z) (w : world) (r : trade)
        (a : action) (percent : Z) (price q price2 : Q) :
  trades w !! id = Some r ->
  t_status r = StOpen ->
  t_partial_exits_done r = Some 0%Z ->
  t_remaining_quantity r = Some q ->
  0 < q ->
  a_partial_percent a = Some percent ->
  (0 < percent < 100)%Z ->
  last_price E (t_symbol r) = Some price ->
  rejects E (closing_order r (q * (inject_Z percent / 100))) = None ->
  last_price E2 (t_symbol r) = Some price2 ->
  stop_not_hit (t_side r) price2
    (if a_move_sl_to_breakeven a
     then Some (breakeven (t_side r) (t_entry_price r)) else t_stop_loss r) ->
  match t_take_profit_2 r with
  | Some tp2 => tp2 == 0 \/ ~ target_reached (t_side r) price2 tp2
  | None => True
  end ->
  let w' := fst (execute_action E R now (dict_of_row id r) a w) in
  ExitMonitor.poll_trade E2 now2 id w' = (None, w').
Proof.
  intros Hr Hopen Hdone0 Hq Hpos Hpct Hrange Hprice Hrej Hprice2 Hstop Htp2. cbv zeta.
  destruct (execute_action_partial E R now id w r a percent price q
              Hr Hq Hpos Hpct Hrange Hprice Hrej)
    as (_ & _ & _ & r' & Hr' & _ & Hst & Hdone & Hsl & Hside & Hent & Hsym & _ & Htp2').
  unfold ExitMonitor.poll_trade. rewrite Hr', Hst, Hopen, Hsym, Hprice2.
  unfold ExitMonitor.check_exit_conditions. simpl.
  rewrite Hdone, Hdone0, Hside, Hsl, Htp2'. simpl.
  destruct (t_side r); simpl in Hstop, Htp2.
  - rewrite (ExitMonitorSpec.and_then_false _ (fun sl => Qleb price2 sl)).
    2:{ destruct (if a_move_sl_to_breakeven a then _ else _) as [sl |]; [| exact I].
        destruct Hstop as [Hz | Hnot]; [left; exact Hz | right].
        simpl in Hnot. apply Qleb_false. apply Qnot_le_lt. exact Hnot. }
    rewrite (ExitMonitorSpec.and_then_false _ (fun tp => Qgeb price2 tp)).
    2:{ destruct (t_take_profit_2 r) as [tp2 |]; [| exact I].
        destruct Htp2 as [Hz | Hnot]; [left; exact Hz | right].
        destruct (Qgeb price2 tp2) eqn:Hge; [| reflexivity].
        apply Qgeb_ge in Hge. contradiction. }
    reflexivity.
  - rewrite (ExitMonitorSpec.and_then_false _ (fun sl => Qgeb price2 sl)).
    2:{ destruct (if a_move_sl_to_breakeven a then _ else _) as [sl |]; [| exact I].
        destruct Hstop as [Hz | Hnot]; [left; exact Hz | right].
        simpl in Hnot. destruct (Qgeb price2 sl) eqn:Hge; [| reflexivity].
        apply Qgeb_ge in Hge. contradiction. }
    rewrite (ExitMonitorSpec.and_then_false _ (fun tp => Qleb price2 tp)).
    2:{ destruct (t_take_profit_2 r) as [tp2 |]; [| exact I].
        destruct Htp2 as [Hz | Hnot]; [left; exact Hz | right].
        apply Qleb_false. apply Qnot_le_lt. exact Hnot. }
    reflexivity.
Qed.

Lemma update_partial_witness :
  ExitMonitor.poll_trade (quoting 115) 1 1
    (fst (execute_action (quoting 112) example_runtime 0
            (dict_of_row 1 (open_trade (u "BTC/USDT") Buy 100 10 90 110 0))
            {| a_type := RPartial (12 # 10); a_partial_percent := Some 40%Z;
               a_move_sl_to_breakeven := true; a_r_value := Some (12 # 10) |} btc_long))
  = (None,
     fst (execute_action (quoting 112) example_runtime 0
            (dict_of_row 1 (open_trade (u "BTC/USDT") Buy 100 10 90 110 0))
            {| a_type := RPartial (12 # 10); a_partial_percent := Some 40%Z;
               a_move_sl_to_breakeven := true; a_r_value := Some (12 # 10) |} btc_long)).
Proof.
  apply (update_partial_counts_as_first_tier (quoting 112) (quoting 115) example_runtime
           0%Z 1%Z 1%Z btc_long (open_trade (u "BTC/USDT") Buy 100 10 90 110 0)
           {| a_type := RPartial (12 # 10); a_partial_percent := Some 40%Z;
              a_move_sl_to_breakeven := true; a_r_value := Some (12 # 10) |}
           40%Z 112 10 115).
  - vm_compute; reflexivity.
  - reflexivity.
  - reflexivity.
  - reflexivity.
  - reflexivity.
  - reflexivity.
  - lia.
  - reflexivity.
  - reflexivity.
  - reflexivity.
  - right. vm_compute. intros H; apply H; reflexivity.
  - left. reflexivity.
Defined.

(** X20: the breakeven stop an update sets is a free-trade stop for the exit
    monitor.  For a position with a positive entry price whose stop an
    update has moved to breakeven, a poll whose price has crossed that stop
    closes the position as a breakeven stop (free trade), never as a stop
    loss, on either side. *)
Theorem stop_moved_by_update_closes_as_free_trade
        (E : exchange) (now id : Z) (w : world) (r : trade) (price : Q) :
  trades w !! id = Some r ->
  t_status r = StOpen ->
  0 < t_entry_price r ->
  last_price E (t_symbol r) = Some price ->
  stop_hit (t_side r) price (breakeven (t_side r) (t_entry_price r)) ->
  let w1 := move_stop_to_breakeven (dict_of_row id r) w in
  ExitMonitor.poll_trade E now id w1
  = (Some (ExitMonitor.FreeTradeClosed price),
     ExitMonitor.close_remaining_position E now id price BreakevenStop w1).
Proof.
  intros Hr Hopen Hentry Hprice Hhit. cbv zeta.
  destruct (UpdateProcessorSpec.move_stop_lookup (dict_of_row id r) w r Hr)
    as (r1 & Ht & Hsl & Hsym & Hside & Hent & Hst & _).
  cbn [d_id d_side d_entry_price dict_of_row] in Ht, Hsl.
  assert (Hr1 : trades (move_stop_to_breakeven (dict_of_row id r) w) !! id = Some r1)
    by (rewrite Ht; apply lookup_insert_eq).
  unfold ExitMonitor.poll_trade. rewrite Hr1, Hst, Hopen, Hsym, Hprice.
  assert (Hnz : ~ breakeven (t_side r) (t_entry_price r) == 0).
  { unfold breakeven. destruct (t_side r); intros H; nra. }
  rewrite (ExitMonitorSpec.stop_branch E now id _ r1 price
             (breakeven (t_side r) (t_entry_price r)) Hsl Hnz).
  2:{ rewrite Hside. exact Hhit. }
  rewrite Hside, Hent.
  assert (Hfree : match t_side r with
                  | Buy => Qgeb (breakeven (t_side r) (t_entry_price r)) (t_entry_price r)
                  | Sell => Qleb (breakeven (t_side r) (t_entry_price r)) (t_entry_price r)
                  end = true).
  { unfold breakeven. destruct (t_side r); [apply Qgeb_ge | apply Qleb_le]; nra. }
  rewrite Hfree. reflexivity.
Qed.

Lemma stop_moved_by_update_witness :
  ExitMonitor.poll_trade (quoting 100) 1 1
    (move_stop_to_breakeven (dict_of_row 1 (open_trade (u "BTC/USDT") Buy 100 10 90 110 0))
       btc_long)
  = (Some (ExitMonitor.FreeTradeClosed 100),
     ExitMonitor.close_remaining_position (quoting 100) 1 1 100 BreakevenStop
       (move_stop_to_breakeven (dict_of_row 1 (open_trade (u "BTC/USDT") Buy 100 10 90 110 0))
          btc_long)).
Proof.
  apply (stop_moved_by_update_closes_as_free_trade (quoting 100) 1%Z 1%Z btc_long
           (open_trade (u "BTC/USDT") Buy 100 10 90 110 0) 100).
  - vm_compute; reflexivity.
  - reflexivity.
  - reflexivity.
  - reflexivity.
  - vm_compute; discriminate.
Defined.


Lemma filter_none {A : Type} (f : A -> bool) (l : list A) :
  (forall x, In x l -> f x = false) -> List.filter f l = [].
Proof.
  induction l as [| x l IH]; intros H; simpl; [reflexivity |].
  rewrite (H x (or_introl eq_refl)). apply IH. intros y Hy. apply H. right. exact Hy.
Qed.

(** X21: a scan looks only at messages of the last six hours that contain
    one of the four key phrases ("UPDATE", "R locked", "R done",
    "R reached", in any case of the ASCII letters).  When every message in
    the table is older or contains none of them, the scan changes nothing:
    no trade is touched, no order is sent, nothing is marked. *)
Theorem stale_or_unrelated_messages_are_ignored
        (E : exchange) (now : Z) (p : processor) (w : world) :
  (forall message_text timestamp,
     In (message_text, timestamp) (all_gauls_messages w) ->
     (timestamp <= now - six_hours)%Z
     \/ (like_contains (u "UPDATE") message_text = false
         /\ like_contains (u "R locked") message_text = false
         /\ like_contains (u "R done") message_text = false
         /\ like_contains (u "R reached") message_text = false)) ->
  scan_for_updates E now (p, w) = (p, w).
Proof.
  intros Hall. unfold scan_for_updates, recent_update_messages. cbn [snd].
  rewrite filter_none; [reflexivity |].
  intros [message_text timestamp] Hin.
  destruct (Hall message_text timestamp Hin) as [Hold | (H1 & H2 & H3 & H4)].
  - apply andb_false_iff. left. apply Z.ltb_ge. exact Hold.
  - rewrite H1, H2, H3, H4. apply andb_false_r.
Qed.

Lemma stale_message_witness :
  scan_for_updates (quoting 112) (1000 + six_hours)
    (new_processor example_runtime btc_long_with_update, btc_long_with_update)
  = (new_processor example_runtime btc_long_with_update, btc_long_with_update).
Proof.
  apply (stale_or_unrelated_messages_are_ignored (quoting 112) (1000 + six_hours)%Z).
  intros message_text timestamp Hin. left.
  destruct Hin as [Hin | []]. injection Hin as _ <-. vm_compute. discriminate.
Defined.

End UpdateProcessorFacts.

(** ** The copy trader *)

Module CopyTraderFacts.
Import PyStr Truth TruthFacts Ledger Runtime CopyTrader Notions Scenarios Bookkeeping.
#[local] Open Scope Q_scope.

(** The outcomes of the sizing, with the risk per unit [d]. *)
Lemma position_sizing_cases (stop_loss : option Q) (price available modifier : Q)
      (sz : sizing) :
  position_sizing stop_loss price available modifier = Some sz ->
  exists sl d,
    stop_loss = Some sl /\ ~ sl == 0 /\ d = Qabs (price - sl) /\ 0 < d
    /\ quantity sz == max_units sz * modifier
    /\ leverage sz = GAULS_LEVERAGE
    /\ ((scaled_down sz = false
         /\ MAX_LOSS_PER_TRADE_EUR / d * price / GAULS_LEVERAGE <= available
         /\ max_units sz = MAX_LOSS_PER_TRADE_EUR / d
         /\ actual_risk sz == MAX_LOSS_PER_TRADE_EUR * modifier)
        \/ (scaled_down sz = true
            /\ available < MAX_LOSS_PER_TRADE_EUR / d * price / GAULS_LEVERAGE
            /\ ~ price == 0
            /\ max_units sz = available * MARGIN_USAGE_PCT * GAULS_LEVERAGE / price
            /\ actual_risk sz == max_units sz * d * modifier)).
Proof.
  unfold position_sizing. cbv zeta.
  destruct stop_loss as [sl |]; [| discriminate].
  unfold opt_truthy. destruct (q_truthy sl) eqn:Hsl; [| discriminate].
  change (default 0 (Some sl)) with sl. change (negb true) with false. cbv iota.
  set (d := Qabs (price - sl)).
  destruct (Qeq_bool d 0) eqn:Ez; [discriminate |].
  assert (Hd : 0 < d).
  { pose proof (Qabs_nonneg (price - sl)) as H. fold d in H.
    apply Qle_lteq in H. destruct H as [H | H]; [exact H |].
    exfalso. apply Qeq_bool_neq in Ez. apply Ez. symmetry. exact H. }
  assert (Hmod : forall a : Q,
            (if Qeq_bool modifier 1 then a else a * modifier) == a * modifier).
  { intros a. destruct (Qeq_bool modifier 1) eqn:Em; [| reflexivity].
    apply Qeq_bool_iff in Em. rewrite Em. ring. }
  apply q_truthy_spec in Hsl.
  destruct (Qgtb (MAX_LOSS_PER_TRADE_EUR / d * price / GAULS_LEVERAGE) available) eqn:Egt.
  - unfold py_div. destruct (q_truthy price) eqn:Hp; [| discriminate].
    apply q_truthy_spec in Hp. apply Qgtb_gt in Egt.
    destruct (Qeq_bool modifier 1) eqn:Em; intros H;
      cbv beta iota zeta delta [mbind option_bind negb] in H; injection H as <-;
      exists sl, d; cbn [quantity max_units actual_risk scaled_down leverage];
      (split; [reflexivity |]); (split; [exact Hsl |]); (split; [reflexivity |]);
      (split; [exact Hd |]);
      (split; [first [reflexivity | apply Qeq_bool_iff in Em; rewrite Em; ring] |]);
      (split; [reflexivity |]); right;
      (split; [reflexivity |]); (split; [exact Egt |]); (split; [exact Hp |]);
      (split; [reflexivity |]);
      first [reflexivity | apply Qeq_bool_iff in Em; rewrite Em; ring].
  - apply Qgtb_false in Egt.
    destruct (Qeq_bool modifier 1) eqn:Em; intros H;
      cbv beta iota zeta delta [mbind option_bind negb] in H; injection H as <-;
      exists sl, d; cbn [quantity max_units actual_risk scaled_down leverage];
      (split; [reflexivity |]); (split; [exact Hsl |]); (split; [reflexivity |]);
      (split; [exact Hd |]);
      (split; [first [reflexivity | apply Qeq_bool_iff in Em; rewrite Em; ring] |]);
      (split; [reflexivity |]); left;
      (split; [reflexivity |]); (split; [exact Egt |]);
      (split; [reflexivity |]);
      first [reflexivity | apply Qeq_bool_iff in Em; rewrite Em; ring].
Qed.

(** X22: the position the sizing returns can be paid for and stays within
    the configured loss.  For a positive execution price, a non-negative
    free balance and a size modifier between 0 and 1, the margin of the
    quantity at the leverage of 10 is at most the free balance, and the risk
    reported, which is the quantity times the distance to the stop, is at
    most the maximum loss per trade of 25. *)
Theorem sized_position_is_affordable
        (stop_loss : option Q) (price available modifier : Q) (sz : sizing) :
  position_sizing stop_loss price available modifier = Some sz ->
  0 < price ->
  0 <= available ->
  0 <= modifier ->
  modifier <= 1 ->
  quantity sz * price / leverage sz <= available
  /\ 0 <= quantity sz
  /\ actual_risk sz == quantity sz * Qabs (price - default 0 stop_loss)
  /\ actual_risk sz <= MAX_LOSS_PER_TRADE_EUR.
Proof.
  intros Hsz Hprice Havail Hm0 Hm1.
  destruct (position_sizing_cases stop_loss price available modifier sz Hsz)
    as (sl & d & -> & _ & Hd & Hpos & Hq & Hlev & Hcase).
  change (default 0 (Some sl)) with sl. rewrite <- Hd. clear Hd Hsz.
  rewrite Hlev.
  unfold MAX_LOSS_PER_TRADE_EUR, GAULS_LEVERAGE, MARGIN_USAGE_PCT in *.
  destruct Hcase as [(_ & Hfit & Hu & Hrisk) | (_ & Hshort & Hnz & Hu & Hrisk)].
  - rewrite Hrisk, Hq, Hu.
    set (x := 25 / d) in *.
    assert (Hx : x * d == 25) by (unfold x; field; lra).
    assert (Hxpos : 0 < x) by (apply Qlt_shift_div_l; lra).
    assert (Hfit' : x * price <= 10 * available).
    { assert (E : x * price == x * price / 10 * 10) by field. rewrite E. lra. }
    assert (E : x * modifier * price / 10 == x * price * modifier * (1 # 10)) by field.
    rewrite E.
    split; [nra |]. split; [nra |].
    split; [rewrite <- Hx; ring | nra].
  - rewrite Hrisk, Hq, Hu.
    set (x := available * (9 # 10) * 10 / price) in *.
    assert (Hx : x * price == 9 * available) by (unfold x; field; lra).
    assert (Hxpos : 0 <= x).
    { unfold x. apply Qle_shift_div_l; [exact Hprice | lra]. }
    assert (Hshort' : 10 * (available * d) < 25 * price).
    { apply (Qmult_lt_r _ _ (10 * d)) in Hshort; [| lra].
      assert (Heq : 25 / d * price / 10 * (10 * d) == 25 * price) by (field; lra).
      rewrite Heq in Hshort. lra. }
    assert (Hxd : x * d < 25).
    { apply (Qmult_lt_r _ _ price); [exact Hprice |].
      assert (E : x * d * price == x * price * d) by ring.
      rewrite E, Hx. nra. }
    assert (E : x * modifier * price / 10 == x * price * modifier * (1 # 10)) by field.
    rewrite E, Hx.
    split; [nra |]. split; [nra |].
    split; [ring | nra].
Qed.

Lemma sized_position_witness :
  exists sz,
    position_sizing (Some 99) 100 200 1 = Some sz
    /\ quantity sz * 100 / leverage sz <= 200
    /\ 0 <= quantity sz
    /\ actual_risk sz == quantity sz * Qabs (100 - 99)
    /\ actual_risk sz <= MAX_LOSS_PER_TRADE_EUR.
Proof.
  destruct (position_sizing (Some 99) 100 200 1) as [sz |] eqn:Hsz;
    [| vm_compute in Hsz; discriminate].
  exists sz. split; [reflexivity |].
  apply (sized_position_is_affordable (Some 99) 100 200 1 sz Hsz);
    first [reflexivity | vm_compute; discriminate].
Defined.

(** X23: a signal whose stop-loss is missing or zero is never traded: the
    execution returns nothing, places no order, inserts no trade row and
    tracks no position, whatever the market and the enrichment service
    answer. *)
Theorem signal_without_stop_is_not_traded
        (E : exchange) (L : llm_analyzer) (R : runtime) (now : Z)
        (s : exec_signal) (t : trader) (w : world) :
  match SignalParser.stop_loss (parsed s) with
  | Some sl => sl == 0
  | None => True
  end ->
  let result := execute_gauls_signal E L R now s (t, w) in
  fst result = None
  /\ orders (snd (snd result)) = orders w
  /\ trades (snd (snd result)) = trades w
  /\ fst (snd result) = t.
Proof.
  intros Hstop. cbv zeta.
  assert (Hsz : forall ep av m,
            position_sizing (SignalParser.stop_loss (parsed s)) ep av m = None).
  { intros ep av m. unfold position_sizing.
    destruct (SignalParser.stop_loss (parsed s)) as [sl |]; [| reflexivity].
    unfold opt_truthy. rewrite (q_truthy_false sl Hstop). reflexivity. }
  unfold execute_gauls_signal.
  destruct (is_signal_already_processed R s w); [repeat split |].
  destruct (has_recent_trade now _ w); [repeat split |].
  destruct (positions t !! signal_key s).
  { unfold record_processed_signal.
    destruct (processed_gauls_signals w); [| | destruct (existsb _ _)]; repeat split. }
  destruct (negb _); [repeat split |].
  destruct (last_price E _) as [current_price |]; [| repeat split].
  cbv beta iota zeta delta [mbind option_bind].
  destruct (entry_decision L s current_price) as [[ot ep] |]; [| repeat split].
  rewrite Hsz. repeat split.
Qed.

Lemma signal_without_stop_witness :
  let s := {| parsed :=
                {| SignalParser.symbol := u "BTC/USDT"; SignalParser.sig_side := Buy;
                   SignalParser.entry_price := None;
                   SignalParser.sig_entry_type := SignalParser.Market;
                   SignalParser.sig_entry_hint := None;
                   SignalParser.stop_loss := None;
                   SignalParser.take_profit := Some 114786;
                   SignalParser.risk_reward := None;
                   SignalParser.conviction := u "high";
                   SignalParser.raw_text := u "BTC";
                   SignalParser.source := u "gauls_copy";
                   SignalParser.original_target := None |};
              insight_id := None; timestamp := None; take_profits := [] |} in
  let result := execute_gauls_signal (quoting 112000) permissive_llm example_runtime 100 s
                  (no_positions, empty_ledger) in
  fst result = None
  /\ orders (snd (snd result)) = orders empty_ledger
  /\ trades (snd (snd result)) = trades empty_ledger
  /\ fst (snd result) = no_positions.
Proof.
  cbv zeta.
  apply (signal_without_stop_is_not_traded (quoting 112000) permissive_llm example_runtime
           100%Z _ no_positions empty_ledger).
  exact I.
Defined.

(** The row [_record_gauls_trade] inserts. *)
Lemma record_gauls_trade_row (R : runtime) (now : Z) (s : exec_signal)
      (amount entry : Q) (plan : execution_plan) (st : status) (w : world) :
  exists r,
    trades (record_gauls_trade R now s amount entry plan st w)
    = <[next_trade_id w := r]> (trades w)
    /\ t_symbol r = SignalParser.symbol (parsed s)
    /\ t_side r = SignalParser.sig_side (parsed s)
    /\ t_entry_price r = entry
    /\ t_entry_time r = now
    /\ t_quantity r = amount
    /\ t_remaining_quantity r = Some amount
    /\ t_stop_loss r = Some (default 0 (SignalParser.stop_loss (parsed s)))
    /\ t_partial_pnl r = Some 0
    /\ t_partial_exits_done r = Some 0%Z
    /\ t_status r = st
    /\ t_strategy r = u "gauls_copy".
Proof.
  unfold record_gauls_trade.
  destruct (match take_profits s with [] => _ | _ => _ end) as [tp1 tp2].
  unfold record_processed_signal. cbn [processed_gauls_signals set_trades].
  destruct (processed_gauls_signals w); [| | destruct (existsb _ _)];
    eexists; (split; [reflexivity |]); repeat split.
Qed.

(** The plan [execute_gauls_signal] follows. *)
Lemma execution_inversion
      (E : exchange) (L : llm_analyzer) (R : runtime) (now : Z)
      (s : exec_signal) (t t' : trader) (w w' : world) (o : order) :
  execute_gauls_signal E L R now s (t, w) = (Some o, (t', w')) ->
  let plan := match SignalParser.sig_entry_type (parsed s) with
              | SignalParser.Market => default_plan
              | SignalParser.Limit => plan_for L s
              end in
  exists current_price execution_price sz,
    last_price E (SignalParser.symbol (parsed s)) = Some current_price
    /\ entry_decision L s current_price = Some (o_type o, execution_price)
    /\ position_sizing (SignalParser.stop_loss (parsed s)) execution_price (free_usdt E)
         (position_size_modifier plan) = Some sz
    /\ o_amount o = quantity sz
    /\ o_symbol o = SignalParser.symbol (parsed s)
    /\ w' = record_gauls_trade R now s (filled_amount E o) execution_price plan
              match o_type o with LimitOrder => StPending | MarketOrder => StOpen end
              (add_order o w).
Proof.
  unfold execute_gauls_signal.
  destruct (is_signal_already_processed R s w); [discriminate |].
  destruct (has_recent_trade now _ w); [discriminate |].
  destruct (positions t !! signal_key s); [discriminate |].
  destruct (negb _); [discriminate |].
  destruct (last_price E _) as [current_price |]; [| discriminate].
  cbv beta iota zeta delta [mbind option_bind].
  destruct (entry_decision L s current_price) as [[ot ep] |] eqn:Hed; [| discriminate].
  destruct (position_sizing _ ep _ _) as [sz |] eqn:Hsz; [| discriminate].
  unfold place.
  destruct (rejects E _); [discriminate |].
  intros [= <- _ <-].
  exists current_price, ep, sz. cbn [o_type o_amount o_symbol].
  split; [reflexivity |]. split; [exact Hed |]. split; [exact Hsz |].
  repeat split; reflexivity.
Qed.

(** X24: a market execution starts the cooldown of its symbol, which lasts
    for as long as the trade row it inserted is still open.  An execution
    that returned a market order has inserted an open row; in every later
    state of the trader and the databases in which that row is still open,
    with the symbol, strategy and entry time it was inserted with, any
    signal for the same symbol that arrives less than five minutes after
    the execution is dropped, whatever its text, its time stamp, the market
    and the enrichment service are: nothing is ordered and nothing is
    recorded.  (Once the row is closed, by a stop or an update, the
    cooldown is over.) *)
Theorem market_execution_starts_the_cooldown
        (E E2 : exchange) (L L2 : llm_analyzer) (R R2 : runtime) (now now2 : Z)
        (s s2 : exec_signal) (t t' : trader) (w w' : world) (o : order) :
  execute_gauls_signal E L R now s (t, w) = (Some o, (t', w')) ->
  o_type o = MarketOrder ->
  SignalParser.symbol (parsed s2) = SignalParser.symbol (parsed s) ->
  (now2 - cooldown_seconds < now)%Z ->
  exists r,
    trades w' !! next_trade_id w = Some r
    /\ t_status r = StOpen
    /\ forall (t2 : trader) (w2 : world) (r2 : trade),
         trades w2 !! next_trade_id w = Some r2 ->
         t_status r2 = StOpen ->
         t_symbol r2 = t_symbol r ->
         t_strategy r2 = t_strategy r ->
         t_entry_time r2 = t_entry_time r ->
         execute_gauls_signal E2 L2 R2 now2 s2 (t2, w2) = (None, (t2, w2)).
Proof.
  intros Hexec Hmarket Hsymbol Hsoon.
  destruct (execution_inversion E L R now s t t' w w' o Hexec)
    as (cp & ep & sz & _ & _ & _ & _ & _ & Hw').
  rewrite Hmarket in Hw'.
  destruct (record_gauls_trade_row R now s (filled_amount E o) ep
              match SignalParser.sig_entry_type (parsed s) with
              | SignalParser.Market => default_plan
              | SignalParser.Limit => plan_for L s
              end StOpen (add_order o w))
    as (r & Ht & Hsym & _ & _ & Htime & _ & _ & _ & _ & _ & Hst & Hstrat).
  rewrite <- Hw' in Ht.
  change (next_trade_id (add_order o w)) with (next_trade_id w) in Ht.
  exists r. split; [rewrite Ht; apply lookup_insert_eq |]. split; [exact Hst |].
  intros t2 w2 r2 Hr2 Hst2 Hsym2 Hstrat2 Htime2.
  assert (Hrecent : has_recent_trade now2 (SignalParser.symbol (parsed s2)) w2 = true).
  { unfold has_recent_trade. apply List.existsb_exists.
    exists (next_trade_id w, r2). split.
    - apply list_elem_of_In. apply elem_of_map_to_list. exact Hr2.
    - rewrite Hsym2, Hstrat2, Htime2, Hst2, Hsym, Hsymbol, Hstrat, Htime.
      rewrite !CopyTraderSpec.pystr_eqb_refl. simpl.
      rewrite andb_true_r. apply Z.ltb_lt. exact Hsoon. }
  unfold execute_gauls_signal.
  destruct (is_signal_already_processed R2 s2 w2); [reflexivity |].
  rewrite Hrecent. reflexivity.
Qed.

(** X25: a market entry that the balance can pay for loses the configured
    amount when it is stopped out at its stop.  After an execution of a
    market signal whose stop lies on the losing side of the price, the
    margin at full size not exceeding the free balance and the exchange
    filling the amount ordered, a poll of the new position at its stop
    price closes it as a stop loss with a realised P&L of minus the maximum
    loss per trade (25). *)
Theorem stop_out_loses_the_configured_amount
        (E E2 : exchange) (L : llm_analyzer) (R : runtime) (now now2 : Z)
        (s : exec_signal) (t t' : trader) (w w' : world) (o : order) (price sl : Q) :
  execute_gauls_signal E L R now s (t, w) = (Some o, (t', w')) ->
  SignalParser.sig_entry_type (parsed s) = SignalParser.Market ->
  SignalParser.stop_loss (parsed s) = Some sl ->
  last_price E (SignalParser.symbol (parsed s)) = Some price ->
  match SignalParser.sig_side (parsed s) with
  | Buy => sl < price
  | Sell => price < sl
  end ->
  MAX_LOSS_PER_TRADE_EUR / Qabs (price - sl) * price / GAULS_LEVERAGE <= free_usdt E ->
  filled_amount E o = o_amount o ->
  last_price E2 (SignalParser.symbol (parsed s)) = Some sl ->
  let id := next_trade_id w in
  fst (ExitMonitor.poll_trade E2 now2 id w') = Some (ExitMonitor.StopLoss sl)
  /\ exists r2 pnl,
       trades (snd (ExitMonitor.poll_trade E2 now2 id w')) !! id = Some r2
       /\ t_status r2 = StClosed
       /\ t_pnl r2 = Some pnl
       /\ pnl == - MAX_LOSS_PER_TRADE_EUR.
Proof.
  intros Hexec Hmarket Hstop Hprice Hside Hmargin Hfilled Hprice2. cbv zeta.
  destruct (execution_inversion E L R now s t t' w w' o Hexec)
    as (cp & ep & sz & Hcp & Hed & Hsz & Hamount & _ & Hw').
  rewrite Hprice in Hcp. injection Hcp as <-.
  unfold entry_decision in Hed. rewrite Hmarket in Hed.
  injection Hed as Hot <-.
  rewrite Hmarket in Hsz, Hw'. rewrite <- Hot in Hw'.
  change (position_size_modifier default_plan) with 1 in Hsz.
  destruct (position_sizing_cases _ _ _ _ _ Hsz)
    as (sl' & d & Hsl' & Hnz & Hd & Hdpos & Hq & _ & Hcase).
  rewrite Hstop in Hsl'. injection Hsl' as <-.
  destruct Hcase as [(_ & _ & Hunits & _) | (_ & Hshort & _)].
  2:{ exfalso. rewrite Hd in Hshort. exact (Qlt_not_le _ _ Hshort Hmargin). }
  destruct (record_gauls_trade_row R now s (filled_amount E o) price default_plan StOpen
              (add_order o w))
    as (r & Ht & Hsym & Hrside & Hentry & _ & _ & Hrem & Hrstop & Hpp & _ & Hst & _).
  rewrite <- Hw' in Ht.
  change (next_trade_id (add_order o w)) with (next_trade_id w) in Ht.
  rewrite Hstop in Hrstop. change (default 0 (Some sl)) with sl in Hrstop.
  assert (Hr : trades w' !! next_trade_id w = Some r)
    by (rewrite Ht; apply lookup_insert_eq).
  assert (Hpoll : ExitMonitor.poll_trade E2 now2 (next_trade_id w) w'
                  = (Some (ExitMonitor.StopLoss sl),
                     ExitMonitor.close_remaining_position E2 now2 (next_trade_id w) sl
                       StopLossHit w')).
  { unfold ExitMonitor.poll_trade. rewrite Hr, Hst, Hsym, Hprice2.
    rewrite (ExitMonitorSpec.stop_branch E2 now2 _ w' r sl sl Hrstop Hnz).
    2:{ destruct (t_side r); simpl; apply Qle_refl. }
    rewrite Hrside, Hentry.
    destruct (SignalParser.sig_side (parsed s)).
    - assert (Hf : Qgeb sl price = false).
      { destruct (Qgeb sl price) eqn:Hge; [| reflexivity].
        apply Qgeb_ge in Hge. exfalso. exact (Qlt_not_le _ _ Hside Hge). }
      rewrite Hf. reflexivity.
    - assert (Hf : Qleb sl price = false) by (apply Qleb_false; exact Hside).
      rewrite Hf. reflexivity. }
  rewrite Hpoll. cbn [fst snd]. split; [reflexivity |].
  destruct (ExitMonitorSpec.close_remaining_position_closes E2 now2 (next_trade_id w) sl
              StopLossHit w' r Hr)
    as (r2 & Ht2 & Hst2 & _ & _ & Hpnl & _).
  exists r2. eexists. rewrite Ht2, lookup_insert_eq.
  split; [reflexivity |]. split; [exact Hst2 |]. split; [exact Hpnl |].
  unfold remaining_on_close. rewrite Hrem, Hpp, Hrside, Hentry, Hfilled, Hamount.
  change (q_or (Some 0) 0) with 0.
  rewrite Hq, Hunits. unfold MAX_LOSS_PER_TRADE_EUR.
  assert (Hdnz : ~ d == 0) by lra.
  destruct (SignalParser.sig_side (parsed s)); simpl.
  - assert (Habs : d == price - sl) by (rewrite Hd; apply Qabs_pos; lra).
    assert (Hgoal : 0 + (sl - price) * (25 / d * 1) == - (d * (25 / d))).
    { rewrite Habs at 2. ring. }
    rewrite Hgoal. field. exact Hdnz.
  - assert (Habs : d == - (price - sl)) by (rewrite Hd; apply Qabs_neg; lra).
    assert (Hgoal : 0 + (price - sl) * (25 / d * 1) == - (d * (25 / d))).
    { rewrite Habs at 2. ring. }
    rewrite Hgoal. field. exact Hdnz.
Qed.

Lemma cooldown_witness :
  execute_gauls_signal (quoting 113000) permissive_llm example_runtime 220 second_btc_signal
    (restarted after_scenario_A)
  = (None, restarted after_scenario_A).
Proof.
  unfold after_scenario_A.
  destruct (execute_gauls_signal (quoting 112000) permissive_llm example_runtime 100
              scenario_A_signal (no_positions, empty_ledger))
    as [[o |] [t' w']] eqn:Hexec; cbn [snd].
  - destruct (market_execution_starts_the_cooldown (quoting 112000) (quoting 113000)
                permissive_llm permissive_llm example_runtime example_runtime 100%Z 220%Z
                scenario_A_signal second_btc_signal no_positions t' empty_ledger w' o Hexec)
      as (r & Hr & Hopen & Hlater).
    + vm_compute in Hexec. injection Hexec as <- _ _. reflexivity.
    + reflexivity.
    + reflexivity.
    + unfold restarted. cbn [snd].
      exact (Hlater (load_existing_positions w') w' r Hr Hopen eq_refl eq_refl eq_refl).
  - exfalso. vm_compute in Hexec. discriminate.
Defined.

Lemma stop_out_witness :
  fst (ExitMonitor.poll_trade (quoting 111468) 300 (next_trade_id empty_ledger)
         (snd after_scenario_A))
  = Some (ExitMonitor.StopLoss 111468)
  /\ exists r2 pnl,
       trades (snd (ExitMonitor.poll_trade (quoting 111468) 300 (next_trade_id empty_ledger)
                      (snd after_scenario_A))) !! next_trade_id empty_ledger = Some r2
       /\ t_status r2 = StClosed
       /\ t_pnl r2 = Some pnl
       /\ pnl == - MAX_LOSS_PER_TRADE_EUR.
Proof.
  unfold after_scenario_A.
  destruct (execute_gauls_signal (quoting 112000) permissive_llm example_runtime 100
              scenario_A_signal (no_positions, empty_ledger))
    as [[o |] [t' w']] eqn:Hexec; cbn [snd].
  - apply (stop_out_loses_the_configured_amount (quoting 112000) (quoting 111468)
             permissive_llm example_runtime 100%Z 300%Z scenario_A_signal
             no_positions t' empty_ledger w' o 112000 111468 Hexec).
    + reflexivity.
    + reflexivity.
    + reflexivity.
    + reflexivity.
    + vm_compute. discriminate.
    + reflexivity.
    + reflexivity.
  - exfalso. vm_compute in Hexec. discriminate.
Defined.

(** X26: the copy trader records what the wrapper answers without looking
    at its status.  When the wrapper's order call answers 'failed' (the
    exchange refused the order), a market signal that passed the gates and
    the sizing is still returned as executed, and a trade row is inserted as
    an open position with the amount of the answer as its quantity. *)
Theorem failed_order_is_recorded_as_open
        (X : UnifiedExchange.real_exchange) (free : Q) (L : llm_analyzer) (R : runtime)
        (now : Z) (s : exec_signal) (t : trader) (w : world)
        (tk : UnifiedExchange.ticker) (sz : sizing) :
  is_signal_already_processed R s w = false ->
  has_recent_trade now (SignalParser.symbol (parsed s)) w = false ->
  positions t !! signal_key s = None ->
  SignalParser.sig_entry_type (parsed s) = SignalParser.Market ->
  UnifiedExchange.fetch_ticker X (SignalParser.symbol (parsed s)) = inl tk ->
  position_sizing (SignalParser.stop_loss (parsed s)) (UnifiedExchange.tk_last tk) free 1
  = Some sz ->
  let answer :=
    UnifiedExchange.create_order X (SignalParser.symbol (parsed s)) MarketOrder
      (SignalParser.sig_side (parsed s)) (quantity sz)
      (Some (UnifiedExchange.tk_last tk)) (Some (leverage sz)) in
  UnifiedExchange.od_status answer = UnifiedExchange.Failed ->
  let result := execute_gauls_signal (UnifiedExchange.as_exchange X free) L R now s (t, w) in
  (exists o, fst result = Some o)
  /\ exists r,
       trades (snd (snd result)) !! next_trade_id w = Some r
       /\ t_status r = StOpen
       /\ t_quantity r = UnifiedExchange.od_amount answer
       /\ t_remaining_quantity r = Some (UnifiedExchange.od_amount answer).
Proof.
  intros Hnew Hcool Hpos Hmarket Hticker Hsz answer _. cbv zeta.
  unfold execute_gauls_signal. rewrite Hnew, Hcool, Hpos, Hmarket.
  change (negb (should_execute default_plan)) with false. cbv iota.
  cbn [last_price UnifiedExchange.as_exchange]. rewrite Hticker.
  cbv beta iota zeta delta [mbind option_bind].
  unfold entry_decision. rewrite Hmarket.
  change (free_usdt (UnifiedExchange.as_exchange X free)) with free.
  change (position_size_modifier default_plan) with 1. rewrite Hsz.
  unfold place.
  change (rejects (UnifiedExchange.as_exchange X free)) with (fun _ : order => @None pystr).
  cbv beta iota. cbn [fst snd].
  split; [eexists; reflexivity |].
  match goal with
  | |- context [record_gauls_trade R now s ?amount ?entry ?plan ?st ?w1] =>
      destruct (record_gauls_trade_row R now s amount entry plan st w1)
        as (r & Ht & _ & _ & _ & _ & Hq & Hrem & _ & _ & _ & Hst & _)
  end.
  exists r. rewrite Ht.
  split; [apply lookup_insert_eq |]. split; [exact Hst |].
  split; [exact Hq | exact Hrem].
Qed.

Lemma failed_order_witness :
  exists sz,
    position_sizing (SignalParser.stop_loss (parsed scenario_A_signal)) ((199 + 201) / 2)
      5000 1 = Some sz
    /\ let answer :=
         UnifiedExchange.create_order (failing_book_of 199 201)
           (SignalParser.symbol (parsed scenario_A_signal)) MarketOrder
           (SignalParser.sig_side (parsed scenario_A_signal)) (quantity sz)
           (Some ((199 + 201) / 2)) (Some (leverage sz)) in
       let result :=
         execute_gauls_signal (UnifiedExchange.as_exchange (failing_book_of 199 201) 5000)
           permissive_llm example_runtime 100 scenario_A_signal
           (no_positions, empty_ledger) in
       (exists o, fst result = Some o)
       /\ exists r,
            trades (snd (snd result)) !! next_trade_id empty_ledger = Some r
            /\ t_status r = StOpen
            /\ t_quantity r = UnifiedExchange.od_amount answer
            /\ t_remaining_quantity r = Some (UnifiedExchange.od_amount answer).
Proof.
  destruct (position_sizing (SignalParser.stop_loss (parsed scenario_A_signal))
              ((199 + 201) / 2) 5000 1) as [sz |] eqn:Hsz;
    [| vm_compute in Hsz; discriminate].
  exists sz. split; [reflexivity |].
  apply (failed_order_is_recorded_as_open (failing_book_of 199 201) 5000 permissive_llm
           example_runtime 100%Z scenario_A_signal no_positions empty_ledger
           {| UnifiedExchange.tk_symbol := u "BTC/USDT";
              UnifiedExchange.tk_last := (199 + 201) / 2;
              UnifiedExchange.tk_bid := 199; UnifiedExchange.tk_ask := 201;
              UnifiedExchange.tk_high := (199 + 201) / 2 * (105 # 100);
              UnifiedExchange.tk_low := (199 + 201) / 2 * (95 # 100);
              UnifiedExchange.tk_volume := 0 |} sz).
  - reflexivity.
  - reflexivity.
  - reflexivity.
  - reflexivity.
  - vm_compute. reflexivity.
  - exact Hsz.
  - unfold UnifiedExchange.create_order. reflexivity.
Defined.

(** X29: on a table of processed signals that has the columns the copy
    trader names, the raw text of an executed signal is not executed again.
    An execution that returned an order has written a marker with the
    fingerprint of the raw text; in every later state whose table still
    holds the markers written so far, executing a signal with the same raw
    text returns nothing and changes nothing, whatever its row id, its time
    stamp, the market and the enrichment service are. *)
Theorem recorded_signal_is_not_executed_again
        (E E2 : exchange) (L L2 : llm_analyzer) (R : runtime) (now now2 : Z)
        (s s2 : exec_signal) (t t' : trader) (w w' : world) (o : order)
        (rows : list signal_marker) :
  processed_gauls_signals w = WithTraderColumns rows ->
  execute_gauls_signal E L R now s (t, w) = (Some o, (t', w')) ->
  SignalParser.raw_text (parsed s2) = SignalParser.raw_text (parsed s) ->
  exists rows',
    processed_gauls_signals w' = WithTraderColumns rows'
    /\ forall (t2 : trader) (w2 : world) (rows2 : list signal_marker),
         processed_gauls_signals w2 = WithTraderColumns rows2 ->
         incl rows' rows2 ->
         execute_gauls_signal E2 L2 R now2 s2 (t2, w2) = (None, (t2, w2)).
Proof.
  intros Htable Hexec Hraw.
  destruct (CopyTraderSpec.executed_signal_is_recorded E L R now s (t, w) (t', w') o rows
              Htable Hexec) as (rows' & m & Hrows' & Hin & Hm).
  exists rows'. split; [exact Hrows' |].
  intros t2 w2 rows2 Htable2 Hincl.
  apply CopyTraderSpec.processed_signal_returns_none.
  apply CopyTraderSpec.is_signal_already_processed_spec.
  exists rows2, m. split; [exact Htable2 |]. split; [apply Hincl, Hin |].
  left. unfold signal_hash. rewrite Hraw. exact Hm.
Qed.

Lemma recorded_signal_witness :
  exists o tw',
    execute_gauls_signal (quoting 112000) permissive_llm example_runtime 100
      scenario_A_signal (no_positions, ledger_with_trader_columns) = (Some o, tw')
    /\ execute_gauls_signal (quoting 112000) permissive_llm example_runtime 460
         scenario_A_again (restarted tw')
       = (None, restarted tw').
Proof.
  destruct (execute_gauls_signal (quoting 112000) permissive_llm example_runtime 100
              scenario_A_signal (no_positions, ledger_with_trader_columns))
    as [[o |] [t' w']] eqn:Hexec; [| exfalso; vm_compute in Hexec; discriminate].
  exists o, (t', w'). split; [reflexivity |].
  destruct (recorded_signal_is_not_executed_again (quoting 112000) (quoting 112000)
              permissive_llm permissive_llm example_runtime 100%Z 460%Z
              scenario_A_signal scenario_A_again no_positions t'
              ledger_with_trader_columns w' o [] eq_refl Hexec eq_refl)
    as (rows' & Hrows' & Hlater).
  unfold restarted. cbn [snd].
  exact (Hlater (load_existing_positions w') w' rows' Hrows' (incl_refl rows')).
Defined.

End CopyTraderFacts.
